(** * pyweatherfetch: the cache / fetch / normalise / render pipeline

    A shallow embedding of [pyweatherfetch/_openweathermap.py] and of the
    template renderer of [pyweatherfetch/_main.py], with the properties the
    specification states about them.

    Conventions of the embedding:
    - a JSON number is a Python [int] or a Python [float]; an [int] is a [Z],
      a [float] is an IEEE-754 binary64 datum ([spec_float]).  Every
      comparison and every [Decimal] conversion the program performs is exact
      on the mathematical value, so values are compared as rationals;
    - a Python [str] is a [string] holding its UTF-8 bytes (all the patterns
      the program searches for are ASCII);
    - a function that can raise returns [exception + A];
    - code that touches the cache directory, the clock or the network
      threads a [world] through a state-and-exception monad. *)

From Stdlib Require Import ZArith QArith Qabs Lqa Lia Ascii String.
From Stdlib Require Import Floats.SpecFloat.
From stdpp Require Import base option gmap strings list pretty.

Local Open Scope string_scope.
Local Open Scope Z_scope.

(** ** Python numbers *)

Inductive number :=
  | Int (z : Z)
  | Float (f : spec_float).

(** The exact value of a number: a rational, an infinity, or not-a-number. *)
Inductive xvalue :=
  | XNaN
  | XNegInf
  | XFin (q : Q)
  | XPosInf.

Definition float_value (f : spec_float) : xvalue :=
  match f with
  | S754_zero _ => XFin 0
  | S754_infinity s => if s then XNegInf else XPosInf
  | S754_nan => XNaN
  | S754_finite s m e =>
      let a := (inject_Z (Z.pos m) * Qpower 2 e)%Q in
      XFin (if s then Qopp a else a)
  end.

Definition value (n : number) : xvalue :=
  match n with
  | Int z => XFin (inject_Z z)
  | Float f => float_value f
  end.

(** [x >= bound] and [x < bound] against a finite float constant.  Python
    compares an [int] with a [float] exactly; any comparison with NaN is
    [False]. *)
Definition ge_const (x : number) (bound : Q) : bool :=
  match value x with
  | XFin q => Qle_bool bound q
  | XPosInf => true
  | XNegInf | XNaN => false
  end.

Definition lt_const (x : number) (bound : Q) : bool :=
  match value x with
  | XFin q => negb (Qle_bool bound q)
  | XNegInf => true
  | XPosInf | XNaN => false
  end.

(** ** Wind direction: [_interpret_direction] *)

(** Lower bound, upper bound, direction.  Every bound is a multiple of 0.25,
    hence exactly the value of the float literal in the source. *)
Definition cardinals : list (Q * Q * string) :=
  [ (348.75, 11.25, "N");
    (11.25, 33.75, "NNE");
    (33.75, 56.25, "NE");
    (56.25, 78.75, "ENE");
    (78.75, 101.25, "E");
    (101.25, 123.75, "ESE");
    (123.75, 146.25, "SE");
    (146.25, 168.75, "SSE");
    (168.75, 191.25, "S");
    (191.25, 213.75, "SSW");
    (213.75, 236.25, "SW");
    (236.25, 258.75, "WSW");
    (258.75, 281.25, "W");
    (281.25, 303.75, "WNW");
    (303.75, 326.25, "NW");
    (326.25, 348.75, "NNW") ]%Q.

(** The [for c in cardinals] loop, with the loop variable [candidate] as an
    accumulator; the empty list is the code after the loop. *)
Fixpoint scan (degrees : number) (cs : list (Q * Q * string))
    (candidate : option (Q * Q * string)) : option string :=
  match cs with
  | [] =>
      match candidate with
      | Some c => Some c.2
      | None => None
      end
  | c :: rest =>
      if ge_const degrees c.1.1 || lt_const degrees c.1.2 then
        match candidate with
        | None => scan degrees rest (Some c)
        | Some _ =>
            if ge_const degrees c.1.1 && lt_const degrees c.1.2
            then Some c.2
            else scan degrees rest candidate
        end
      else scan degrees rest candidate
  end.

Definition _interpret_direction (degrees : number) : option string :=
  scan degrees cardinals None.

(** A wedge matches tightly when the bearing lies between its bounds. *)
Definition tight (degrees : number) (c : Q * Q * string) : bool :=
  ge_const degrees c.1.1 && lt_const degrees c.1.2.

(** The sixteen labels of the table. *)
Definition labels : list string := map snd cardinals.

(** The wedge of the compass rose a bearing lies in, as the specification
    words it: between the two bounds, or, for the wedge that straddles
    North (lower bound above upper bound), on either side of the rollover. *)
Definition in_wedge (q : Q) (c : Q * Q * string) : Prop :=
  if Qle_bool c.1.1 c.1.2
  then (c.1.1 <= q /\ q < c.1.2)%Q
  else ((c.1.1 <= q /\ q < 360) \/ (0 <= q /\ q < c.1.2))%Q.

(** The binary64 values [json.loads] yields for the literals 11.24 and 359.9
    (0 and 180 are integers, 11.25 is exact). *)
Definition f64_11_24 : spec_float := S754_finite false 6327557476455547 (-49).
Definition f64_359_9 : spec_float := S754_finite false 3165713878692659 (-43).
Definition f64_11_25 : spec_float := S754_finite false 45 (-2).


(** The binary64 values of further literals used as examples. *)
Definition f64_21_04 : spec_float := S754_finite false 2961116754996101 (-47).
Definition f64_21_05 : spec_float := S754_finite false 5925048259759309 (-48).
Definition f64_3_456 : spec_float := S754_finite false 7782220156096217 (-51).
Definition f64_20_25 : spec_float := S754_finite false 81 (-2).
Definition f64_19_5 : spec_float := S754_finite false 39 (-1).

(** ** Exceptions *)

Inductive exception :=
  | KeyError (key : string)
  | IndexError
  | TypeError
  | InvalidOperation
  (** [ValueError], [OverflowError] or [OSError] raised by [datetime],
      [timedelta] and [timezone] for a value outside their range *)
  | OutOfRange
  | OSError (path : string)
  | JSONDecodeError
  (** [urllib3.exceptions.HTTPError]: the request could not be sent or no
      response was received *)
  | HTTPError (detail : string)
  | APIError (message : string) (data : option string)
  | ArgumentError (message : string).

Definition result (A : Type) : Type := exception + A.

Abbreviation ok a := (@inr exception _ a).
Abbreviation throw e := (@inl exception _ e).
Definition and_then {A B} (r : result A) (k : A -> result B) : result B :=
  match r with
  | inl e => inl e
  | inr a => k a
  end.

Declare Scope result_scope.
Delimit Scope result_scope with result.
Notation "x <- r ;; k" := (and_then r (fun x => k))
  (at level 100, r at next level, right associativity) : result_scope.

(** [d[key]] on a dictionary whose entry [key] may be absent. *)
Definition item {A} (key : string) (entry : option A) : result A :=
  match entry with
  | Some a => ok a
  | None => throw (KeyError key)
  end.

(** ** [decimal.Decimal] *)

(** A finite decimal is sign, coefficient and exponent; [quantize] carries a
    NaN through and never returns an infinity. *)
Inductive decimal :=
  | DNaN
  | DFinite (sign : bool) (coefficient : N) (exponent : Z).

(** Nearest integer to [num / den] for [0 <= num], a tie going to the even
    neighbour: [ROUND_HALF_EVEN], the rounding of the default context. *)
Definition round_half_even (num : Z) (den : positive) : Z :=
  let k := num / Z.pos den in
  let r := num mod Z.pos den in
  match 2 * r ?= Z.pos den with
  | Lt => k
  | Gt => k + 1
  | Eq => if Z.even k then k else k + 1
  end.

(** The sign [Decimal(x)] records; a float zero keeps its sign bit. *)
Definition is_negative (x : number) : bool :=
  match x with
  | Int z => z <? 0
  | Float (S754_zero s) | Float (S754_infinity s) | Float (S754_finite s _ _) => s
  | Float S754_nan => false
  end.

(** The precision of the default context. *)
Definition prec : Z := 28.

(** [Decimal(x).quantize(Decimal(q))] where [q] is [.0] ([places = 1]) or
    [.00] ([places = 2]).  [Decimal(x)] is exact; the result has exponent
    [- places]; a coefficient of more than [prec] digits, or an infinite
    operand, signals [InvalidOperation]. *)
Definition quantize (x : number) (places : Z) : result decimal :=
  match value x with
  | XNaN => ok DNaN
  | XNegInf | XPosInf => throw InvalidOperation
  | XFin q =>
      let c := round_half_even (Z.abs (Qnum q) * 10 ^ places) (Qden q) in
      if 10 ^ prec <=? c then throw InvalidOperation
      else ok (DFinite (is_negative x) (Z.to_N c) (- places))
  end.

(** Rounding as the specification words it, to compare with the code:
    round half up, a tie going away from zero ([ROUND_HALF_UP]). *)
Definition round_half_up (num : Z) (den : positive) : Z :=
  (2 * num + Z.pos den) / (2 * Z.pos den).

Definition quantize_half_up (x : number) (places : Z) : result decimal :=
  match value x with
  | XNaN => ok DNaN
  | XNegInf | XPosInf => throw InvalidOperation
  | XFin q =>
      let c := round_half_up (Z.abs (Qnum q) * 10 ^ places) (Qden q) in
      if 10 ^ prec <=? c then throw InvalidOperation
      else ok (DFinite (is_negative x) (Z.to_N c) (- places))
  end.

(** [c] is a nearest integer to [|q| * 10 ^ places], and the even one when
    two integers are equally near. *)
Definition nearest_even (q : Q) (places : Z) (c : N) : Prop :=
  let err := Qabs (inject_Z (Z.of_N c) - Qabs q * inject_Z (10 ^ places)) in
  (err <= 1 # 2)%Q /\ (err == 1 # 2 -> N.even c = true)%Q.

(** [d] is [x] rounded to [places] fractional digits, to nearest, ties to
    even; a NaN stays a NaN. *)
Definition rounded (x : number) (places : Z) (d : decimal) : Prop :=
  match value x with
  | XNaN => d = DNaN
  | XFin q => exists c, d = DFinite (is_negative x) c (- places) /\ nearest_even q places c
  | XNegInf | XPosInf => False
  end.

Fixpoint zeros (n : nat) : string :=
  match n with
  | O => ""
  | S k => String "0"%char (zeros k)
  end.

(** [str(d)] for a decimal of negative exponent no smaller than [-6]: the
    branch of [Decimal.__str__] without an exponent part, the only one
    reachable from [quantize] above. *)
Definition str_decimal (d : decimal) : string :=
  match d with
  | DNaN => "NaN"
  | DFinite s c e =>
      let digits := pretty c in
      let places := Z.to_nat (- e) in
      let len := String.length digits in
      (if s then "-" else "") +:+
      (if (places <? len)%nat
       then substring 0 (len - places) digits +:+ "." +:+
            substring (len - places) places digits
       else "0." +:+ zeros (places - len) +:+ digits)
  end.

(** ** [datetime] *)

(** An aware [datetime] with whole seconds: the instant, in seconds since the
    epoch, and the UTC offset of its zone, in seconds. *)
Record datetime := { instant : Z; utcoffset : Z }.

(** 0001-01-01 00:00:00 and 9999-12-31 23:59:59, in seconds since the epoch. *)
Definition MINTS : Z := -62135596800.
Definition MAXTS : Z := 253402300799.

Definition in_range (t : Z) : bool := (MINTS <=? t) && (t <=? MAXTS).

(** [datetime.fromtimestamp(t, timezone.utc)] *)
Definition fromtimestamp_utc (t : Z) : result datetime :=
  if in_range t then ok {| instant := t; utcoffset := 0 |} else throw OutOfRange.

(** [timezone(timedelta(seconds=offset))]: the offset must lie strictly
    between minus and plus one day. *)
Definition timezone (offset : Z) : result Z :=
  if (-86400 <? offset) && (offset <? 86400) then ok offset else throw OutOfRange.

(** [dt.astimezone(tz)]: the same instant, shown in zone [tz]; the local
    date must exist. *)
Definition astimezone (dt : datetime) (tz : Z) : result datetime :=
  if in_range (instant dt + tz) then ok {| instant := instant dt; utcoffset := tz |}
  else throw OutOfRange.

(** Two digits, zero padded: [%02d] for [0 <= n]. *)
Definition pad2 (n : Z) : string :=
  if n <? 10 then "0" +:+ pretty n else pretty n.

(** Four digits, zero padded: [%04d] for [0 <= n]. *)
Definition pad4 (n : Z) : string :=
  if n <? 10 then "000" +:+ pretty n
  else if n <? 100 then "00" +:+ pretty n
  else if n <? 1000 then "0" +:+ pretty n
  else pretty n.

Definition local_seconds (dt : datetime) : Z := instant dt + utcoffset dt.

(** [dt.strftime('%H:%M')] *)
Definition strftime_HM (dt : datetime) : string :=
  let s := local_seconds dt mod 86400 in
  pad2 (s / 3600) +:+ ":" +:+ pad2 (s mod 3600 / 60).

(** Year, month and day of the proleptic Gregorian calendar for a count of
    days since 1970-01-01. *)
Definition civil_from_days (days : Z) : Z * Z * Z :=
  let z := days + 719468 in
  let era := z / 146097 in
  let doe := z mod 146097 in
  let yoe := (doe - doe / 1460 + doe / 36524 - doe / 146096) / 365 in
  let doy := doe - (365 * yoe + yoe / 4 - yoe / 100) in
  let mp := (5 * doy + 2) / 153 in
  let d := doy - (153 * mp + 2) / 5 + 1 in
  let m := if mp <? 10 then mp + 3 else mp - 9 in
  let y := yoe + era * 400 + (if m <=? 2 then 1 else 0) in
  (y, m, d).

(** The [+HH:MM] suffix of [str(dt)], with [:SS] when the offset is not a
    whole number of minutes. *)
Definition format_offset (off : Z) : string :=
  let a := Z.abs off in
  (if off <? 0 then "-" else "+") +:+ pad2 (a / 3600) +:+ ":" +:+
  pad2 (a mod 3600 / 60) +:+
  (if a mod 60 =? 0 then "" else ":" +:+ pad2 (a mod 60)).

(** [str(dt)], that is [dt.isoformat(sep=' ')]. *)
Definition str_datetime (dt : datetime) : string :=
  let l := local_seconds dt in
  let '(y, m, d) := civil_from_days (l / 86400) in
  let s := l mod 86400 in
  pad4 y +:+ "-" +:+ pad2 m +:+ "-" +:+ pad2 d +:+ " " +:+
  pad2 (s / 3600) +:+ ":" +:+ pad2 (s mod 3600 / 60) +:+ ":" +:+
  pad2 (s mod 60) +:+ format_offset (utcoffset dt).

(** ** The icon tables *)

(** The UTF-8 form of a code point of the Basic Multilingual Plane at or
    above U+0800: the glyphs of the table are Nerd Font code points in the
    private use area. *)
Definition glyph (cp : N) : string :=
  String (ascii_of_N (224 + cp / 4096))
 (String (ascii_of_N (128 + cp / 64 mod 64))
 (String (ascii_of_N (128 + cp mod 64)) ""))%N.

Definition _icons_items : list (string * string) :=
  [
    ("01d", glyph 0xe30d);
    ("01n", glyph 0xe32b);
    ("02d", glyph 0xe30c);
    ("02n", glyph 0xe37b);
    ("03d", glyph 0xe302);
    ("03n", glyph 0xe32e);
    ("04d", glyph 0xe312);
    ("04n", glyph 0xe312);
    ("09d", glyph 0xe309);
    ("09n", glyph 0xe334);
    ("10d", glyph 0xe308);
    ("10n", glyph 0xe333);
    ("11d", glyph 0xe305);
    ("11n", glyph 0xe338);
    ("13d", glyph 0xe30a);
    ("13n", glyph 0xe335);
    ("50d", glyph 0xe303);
    ("50n", glyph 0xe346)
  ].

Definition _icon_colours_items : list (string * string) :=
  [
    ("01d", "#e5c07b");
    ("01n", "#34e2e2");
    ("02d", "#e5c07b");
    ("02n", "#34e2e2");
    ("03d", "#eea825");
    ("03n", "#56b6c2");
    ("04d", "#abb2bf");
    ("04n", "#6f737b");
    ("09d", "#abb2bf");
    ("09n", "#6f737b");
    ("10d", "#abb2bf");
    ("10n", "#6f737b");
    ("11d", "#e06c75");
    ("11n", "#e05661");
    ("13d", "#f2f2f2");
    ("13n", "#abb2bf");
    ("50d", "#abb2bf");
    ("50n", "#6f737b")
  ].

Definition _icons : gmap string string := list_to_map _icons_items.
Definition _icon_colours : gmap string string := list_to_map _icon_colours_items.

(** [table[key]] on a dictionary with string keys. *)
Definition getitem (table : gmap string string) (key : string) : result string :=
  item key (table !! key).

(** ** The provider's payload *)

(** The document [json.loads] returns, at the types of the provider's
    schema: numbers for the measurements, integers for pressure, humidity,
    the epoch timestamps and the zone offset, a string for the icon code.
    Every key may be absent. *)
Module Raw.
Record main := {
  temp : option number;
  feels_like : option number;
  pressure : option Z;
  humidity : option Z
}.
Record condition := { icon : option string }.
Record wind := { speed : option number; deg : option number }.
Record sys := { sunrise : option Z; sunset : option Z }.
Record payload := {
  p_main : option main;
  p_dt : option Z;
  p_weather : option (list condition);
  p_wind : option wind;
  p_timezone : option Z;
  p_sys : option sys
}.
End Raw.

(** What a JSON text parses to: [None], a payload object, or a value that
    is no object at all (a list, a number, a string, a boolean). *)
Inductive document :=
  | Null
  | Object (p : Raw.payload)
  | Scalar.

(** ** The report: the dictionary [_filter_data] builds *)

Record wind_report := {
  speed : decimal;
  direction : option string
}.

Record report := {
  calculated_at : datetime;
  temperature : decimal;
  feels_like : decimal;
  pressure : Z;
  humidity : Z;
  icon : string;
  icon_colour : string;
  wind : wind_report;
  sunrise : datetime;
  sunset : datetime
}.

(** [l[0]] *)
Definition first {A} (l : list A) : result A :=
  match l with
  | x :: _ => ok x
  | [] => throw IndexError
  end.

(** [_filter_data] on a payload object, statement by statement. *)
Definition filter_payload (data : Raw.payload) : result report :=
  (main <- item "main" (Raw.p_main data) ;;
   dt <- item "dt" (Raw.p_dt data) ;;
   calculated_at <- fromtimestamp_utc dt ;;
   temp <- item "temp" (Raw.temp main) ;;
   temperature <- quantize temp 1 ;;
   fl <- item "feels_like" (Raw.feels_like main) ;;
   feels_like <- quantize fl 1 ;;
   pressure <- item "pressure" (Raw.pressure main) ;;
   humidity <- item "humidity" (Raw.humidity main) ;;
   weathers <- item "weather" (Raw.p_weather data) ;;
   weather <- first weathers ;;
   code <- item "icon" (Raw.icon weather) ;;
   icon <- getitem _icons code ;;
   code' <- item "icon" (Raw.icon weather) ;;
   icon_colour <- getitem _icon_colours code' ;;
   wind <- item "wind" (Raw.p_wind data) ;;
   sp <- item "speed" (Raw.speed wind) ;;
   speed <- quantize sp 2 ;;
   deg <- item "deg" (Raw.deg wind) ;;
   offset <- item "timezone" (Raw.p_timezone data) ;;
   tz <- timezone offset ;;
   sys <- item "sys" (Raw.p_sys data) ;;
   rise <- item "sunrise" (Raw.sunrise sys) ;;
   rise_utc <- fromtimestamp_utc rise ;;
   sunrise <- astimezone rise_utc tz ;;
   set <- item "sunset" (Raw.sunset sys) ;;
   set_utc <- fromtimestamp_utc set ;;
   sunset <- astimezone set_utc tz ;;
   ok {| calculated_at := calculated_at;
         temperature := temperature;
         feels_like := feels_like;
         pressure := pressure;
         humidity := humidity;
         icon := icon;
         icon_colour := icon_colour;
         wind := {| speed := speed; direction := _interpret_direction deg |};
         sunrise := sunrise;
         sunset := sunset |})%result.

(** [_filter_data]: subscripting [None] or a value that is no dictionary
    raises [TypeError] at [data['main']]. *)
Definition _filter_data (data : document) : result report :=
  match data with
  | Object p => filter_payload p
  | Null | Scalar => throw TypeError
  end.

(** The payloads [_filter_data] accepts, and the report of each: every key
    is present, the timestamps and the zone offset are in range, the three
    measurements quantize, and the icon code is a key of both tables. *)
Inductive normalised : Raw.payload -> report -> Prop :=
  | Normalised dt temp feels press humid code conditions sp deg offset rise set
      temperature' feels_like' icon' colour' speed' :
      in_range dt = true ->
      quantize temp 1 = ok temperature' ->
      quantize feels 1 = ok feels_like' ->
      _icons !! code = Some icon' ->
      _icon_colours !! code = Some colour' ->
      quantize sp 2 = ok speed' ->
      -86400 < offset < 86400 ->
      in_range rise = true ->
      in_range (rise + offset) = true ->
      in_range set = true ->
      in_range (set + offset) = true ->
      normalised
        {| Raw.p_main := Some {| Raw.temp := Some temp; Raw.feels_like := Some feels;
                                 Raw.pressure := Some press; Raw.humidity := Some humid |};
           Raw.p_dt := Some dt;
           Raw.p_weather := Some ({| Raw.icon := Some code |} :: conditions);
           Raw.p_wind := Some {| Raw.speed := Some sp; Raw.deg := Some deg |};
           Raw.p_timezone := Some offset;
           Raw.p_sys := Some {| Raw.sunrise := Some rise; Raw.sunset := Some set |} |}
        {| calculated_at := {| instant := dt; utcoffset := 0 |};
           temperature := temperature';
           feels_like := feels_like';
           pressure := press;
           humidity := humid;
           icon := icon';
           icon_colour := colour';
           wind := {| speed := speed'; direction := _interpret_direction deg |};
           sunrise := {| instant := rise; utcoffset := offset |};
           sunset := {| instant := set; utcoffset := offset |} |}.

(** A complete payload, for examples: the measurements and the icon code
    vary, the rest is fixed. *)
Definition example_payload (temp feels_like speed deg : number) (code : string) : Raw.payload :=
  {| Raw.p_main := Some {| Raw.temp := Some temp; Raw.feels_like := Some feels_like;
                           Raw.pressure := Some 1013; Raw.humidity := Some 60 |};
     Raw.p_dt := Some 1700000000;
     Raw.p_weather := Some [ {| Raw.icon := Some code |} ];
     Raw.p_wind := Some {| Raw.speed := Some speed; Raw.deg := Some deg |};
     Raw.p_timezone := Some 3600;
     Raw.p_sys := Some {| Raw.sunrise := Some 1699950000; Raw.sunset := Some 1699984000 |} |}.

(** ** Configuration, cache directory, clock and network *)

(** The settings [_config.py] serves, each absent until set. *)
Record config := {
  api_key : option string;
  cache_duration : option Z;
  default_template : option string;
  templates : gmap string string;
  cache_directory : string
}.

Definition get_api_key (c : config) : option string := api_key c.
Definition get_cache_duration (c : config) : Z := default 30 (cache_duration c).
Definition get_default_template (c : config) : option string := default_template c.
Definition get_template (c : config) (name : string) : option string := templates c !! name.
Definition get_cache_directory (c : config) : string := cache_directory c.

(** A file of the cache directory: modification time, in microseconds since
    the epoch (the resolution of [datetime]), and text. *)
Record file := { st_mtime : Z; content : string }.

(** What one [http.request] comes to: a response with its status and body,
    or a failure to send the request or to receive any response. *)
Inductive http_outcome :=
  | Response (status : Z) (body : string)
  | NoResponse (detail : string).

(** The state one invocation runs in.  [can_read] and [can_write] say
    whether opening a path succeeds; [network] answers the [n]-th request
    of the invocation; [requests] logs the requests made, oldest first;
    [now] is the clock, in microseconds since the epoch. *)
Record world := {
  settings : config;
  files : gmap string file;
  now : Z;
  can_read : string -> bool;
  can_write : string -> bool;
  network : nat -> string -> http_outcome;
  requests : list string
}.

Definition with_files (fs : gmap string file) (w : world) : world :=
  {| settings := settings w; files := fs; now := now w;
     can_read := can_read w; can_write := can_write w;
     network := network w; requests := requests w |}.

Definition with_requests (rs : list string) (w : world) : world :=
  {| settings := settings w; files := files w; now := now w;
     can_read := can_read w; can_write := can_write w;
     network := network w; requests := rs |}.

(** State and exceptions: a raise keeps the effects that came before it. *)
Definition M (A : Type) : Type := world -> result A * world.

Definition ret {A} (a : A) : M A := fun w => (ok a, w).
Definition raise {A} (e : exception) : M A := fun w => (throw e, w).
Definition bind {A B} (m : M A) (k : A -> M B) : M B :=
  fun w =>
    match m w with
    | (inl e, w') => (inl e, w')
    | (inr a, w') => k a w'
    end.
Definition lift {A} (r : result A) : M A := fun w => (r, w).
Definition gets {A} (f : world -> A) : M A := fun w => (ok (f w), w).
Definition modify (f : world -> world) : M unit := fun w => (ok tt, f w).

Declare Scope io_scope.
Delimit Scope io_scope with io.
Notation "x <- m ;; k" := (bind m (fun x => k))
  (at level 100, m at next level, right associativity) : io_scope.
Notation "m ;;; k" := (bind m (fun _ => k))
  (at level 100, right associativity) : io_scope.

(** [str(x)] of an optional string: [None] prints as its name. *)
Definition str_option (x : option string) : string := default "None" x.

(** [timedelta(minutes=m)], in microseconds; a magnitude of more than
    999999999 days overflows. *)
Definition timedelta_minutes (m : Z) : result Z :=
  if Z.abs (m / 1440) <=? 999999999 then ok (m * 60000000) else throw OutOfRange.

Definition is_null (d : document) : bool :=
  match d with
  | Null => true
  | _ => false
  end.

Section Service.

(** [hashlib.sha1(text).hexdigest()], and the two directions of the
    [json] module, which the service uses as they are. *)
Variable sha1_hexdigest : string -> string.
Variable json_loads : string -> result document.
Variable json_dumps : document -> string.

Definition _get_cache_hash (latitude longitude : option string) (units : string) : string :=
  sha1_hexdigest (str_option latitude +:+ str_option longitude +:+ units).

Definition cache_path (c : config) (hash : string) : string :=
  get_cache_directory c +:+ "/" +:+ "last_response_" +:+ hash +:+ ".json".

(** [json.load(open(path))] *)
Definition load_file (path : string) (f : file) : M document :=
  (readable <- gets (fun w => can_read w path) ;;
   if readable : bool then lift (json_loads (content f))
   else raise (OSError path))%io.

Definition _get_cached (latitude longitude : option string) (units : string) : M document :=
  (let hash := _get_cache_hash latitude longitude units in
   cache_duration <- gets (fun w => get_cache_duration (settings w)) ;;
   cache_location <- gets (fun w => cache_path (settings w) hash) ;;
   entry <- gets (fun w => files w !! cache_location) ;;
   match entry with
   | None => ret Null
   | Some f =>
       let mtime := st_mtime f in
       curtime <- gets now ;;
       max_age <- lift (timedelta_minutes cache_duration) ;;
       if curtime - mtime >? max_age then ret Null
       else load_file cache_location f
   end)%io.

(** [http.request('GET', url)]: one request, logged. *)
Definition http_request (url : string) : M (Z * string) :=
  fun w =>
    let w' := with_requests (requests w ++ [url]) w in
    match network w (length (requests w)) url with
    | Response status body => (ok (status, body), w')
    | NoResponse detail => (throw (HTTPError detail), w')
    end.

(** [json.dump(data, open(path, 'w'))] *)
Definition dump_file (data : document) (path : string) : M unit :=
  (writable <- gets (fun w => can_write w path) ;;
   if writable : bool then
     modify (fun w =>
       with_files (<[path := {| st_mtime := now w; content := json_dumps data |}]> (files w)) w)
   else raise (OSError path))%io.

Definition _cache_response (data : document) (latitude longitude : option string)
    (units : string) : M unit :=
  (let hash := _get_cache_hash latitude longitude units in
   cache_location <- gets (fun w => cache_path (settings w) hash) ;;
   dump_file data cache_location)%io.

Definition request_url (latitude longitude api_key : option string) (units : string) : string :=
  "https://api.openweathermap.org/data/2.5/weather?lat=" +:+ str_option latitude +:+
  "&lon=" +:+ str_option longitude +:+ "&appid=" +:+ str_option api_key +:+
  "&units=" +:+ units.

Definition _get_fresh (latitude longitude : option string) (units : string) : M document :=
  (api_key <- gets (fun w => get_api_key (settings w)) ;;
   response <- http_request (request_url latitude longitude api_key units) ;;
   if negb (response.1 =? 200) then
     raise (APIError ("Received error response from API: " +:+ pretty response.1)
                     (Some response.2))
   else
     data <- lift (json_loads response.2) ;;
     _cache_response data latitude longitude units ;;;
     ret data)%io.

Definition get_weather (latitude longitude : option string) (units : string) : M report :=
  (data <- _get_cached latitude longitude units ;;
   data <- (if is_null data then _get_fresh latitude longitude units else ret data) ;;
   if is_null data then
     raise (APIError "Failed to retrieve weather data from API" None)
   else lift (_filter_data data))%io.

End Service.

(** The class test [isinstance(e, APIError)]. *)
Definition is_APIError (e : exception) : bool :=
  match e with
  | APIError _ _ => true
  | _ => false
  end.

(** A hash, a parser and a printer to run examples with: the text itself as
    its own digest, every text parsing to one fixed payload. *)
Definition example_digest (text : string) : string := text.
Definition example_document : document :=
  Object (example_payload (Float f64_21_04) (Float f64_19_5) (Float f64_3_456) (Int 180) "01d").
Definition example_loads (text : string) : result document :=
  if String.eqb text "" then throw JSONDecodeError else ok example_document.
Definition example_dumps (d : document) : string := "{}".

(** A parser that also knows the document [null]. *)
Definition example_loads_null (text : string) : result document :=
  if String.eqb text "null" then ok Null else example_loads text.

Definition example_settings : config :=
  {| api_key := Some "key"; cache_duration := Some 30; default_template := None;
     templates := ∅; cache_directory := "/cache" |}.

(** A world at time [t] (in microseconds) whose cache directory holds
    [entries], where every request is answered by [answer]. *)
Definition example_world (t : Z) (entries : gmap string file) (readable writable : bool)
    (answer : http_outcome) : world :=
  {| settings := example_settings; files := entries; now := t;
     can_read := fun _ => readable; can_write := fun _ => writable;
     network := fun _ _ => answer; requests := [] |}.

(** A cache entry written [age] microseconds before [t]. *)
Definition example_entry (t age : Z) : gmap string file :=
  {[ "/cache/last_response_53.1-6.2metric.json" := {| st_mtime := t - age; content := "{}" |} ]}.

(** Thirty minutes, the default [cache_duration], in microseconds. *)
Definition half_hour : Z := 1800000000.

Definition example_path : string := "/cache/last_response_53.1-6.2metric.json".

(** A cache entry written [age] microseconds before [t] that holds [null]. *)
Definition example_null_entry (t age : Z) : gmap string file :=
  {[ example_path := {| st_mtime := t - age; content := "null" |} ]}.

(** ** Rendering: [_apply_template] *)

(** [s.replace(old, new)] for an empty [old]: [new] before every character
    and at the end. *)
Fixpoint replace_empty (new s : string) : string :=
  match s with
  | EmptyString => new
  | String c rest => new +:+ String c (replace_empty new rest)
  end.

(** The left-to-right scan of [s.replace(old, new)] for a non-empty [old]:
    [skip] counts the characters of a match still to be passed over. *)
Fixpoint replace_scan (old new : string) (skip : nat) (s : string) : string :=
  match s with
  | EmptyString => EmptyString
  | String c rest =>
      match skip with
      | S k => replace_scan old new k rest
      | O =>
          if String.prefix old s
          then new +:+ replace_scan old new (String.length old - 1) rest
          else String c (replace_scan old new O rest)
      end
  end.

(** [s.replace(old, new)]: every non-overlapping occurrence, leftmost first. *)
Definition replace (s old new : string) : string :=
  match old with
  | EmptyString => replace_empty new s
  | _ => replace_scan old new O s
  end.

(** The values a report holds, and [str] on them. *)
Inductive pyvalue :=
  | VStr (s : string)
  | VNone
  | VInt (z : Z)
  | VDecimal (d : decimal)
  | VDatetime (dt : datetime).

Definition str (v : pyvalue) : string :=
  match v with
  | VStr s => s
  | VNone => "None"
  | VInt z => pretty z
  | VDecimal d => str_decimal d
  | VDatetime dt => str_datetime dt
  end.

Definition of_option (x : option string) : pyvalue :=
  match x with
  | Some s => VStr s
  | None => VNone
  end.

Definition subs (weather : report) : list (string * pyvalue) :=
  [ ("icon", VStr (icon weather));
    ("icon_colour", VStr (icon_colour weather));
    ("temperature", VDecimal (temperature weather));
    ("feels_like", VDecimal (feels_like weather));
    ("calculated_at", VDatetime (calculated_at weather));
    ("pressure", VInt (pressure weather));
    ("humidity", VInt (humidity weather));
    ("sunrise", VStr (strftime_HM (sunrise weather)));
    ("sunset", VStr (strftime_HM (sunset weather)));
    ("wind_speed", VDecimal (speed (wind weather)));
    ("wind_direction", of_option (direction (wind weather))) ].

(** The loop [for sub in subs: formatted = formatted.replace(...)]. *)
Definition substitute (table : list (string * pyvalue)) (template : string) : string :=
  fold_left (fun formatted sub => replace formatted ("|" +:+ sub.1 +:+ "|") (str sub.2))
            table template.

Definition _apply_template (c : config) (weather : report)
    (template_name : option string) : result string :=
  (let template_name :=
     match template_name with
     | None => get_default_template c
     | Some _ => template_name
     end in
   template <-
     match template_name with
     | None => ok "|temperature|"
     | Some name =>
         match get_template c name with
         | None => throw (ArgumentError "Specified template does not exist.")
         | Some t => ok t
         end
     end ;;
   ok (substitute (subs weather) template))%result.


(** *** Rendering, as the specification words it *)

(** A template is text with tokens: a token is a field name between two
    bars. *)
Inductive segment :=
  | Lit (text : string)
  | Tok (name : string).

Definition segment_text (s : segment) : string :=
  match s with
  | Lit text => text
  | Tok name => "|" +:+ name +:+ "|"
  end.

Definition template_text (segs : list segment) : string :=
  foldr (fun s rest => segment_text s +:+ rest) "" segs.

(** The value the table of substitutions has for a name, if any. *)
Fixpoint field (table : list (string * pyvalue)) (name : string) : option pyvalue :=
  match table with
  | [] => None
  | (n, v) :: rest => if String.eqb n name then Some v else field rest name
  end.

(** A recognised token gives way to the string form of its field; anything
    else stays as it is. *)
Definition render_segment (table : list (string * pyvalue)) (s : segment) : segment :=
  match s with
  | Lit text => Lit text
  | Tok name =>
      match field table name with
      | Some v => Lit (str v)
      | None => Tok name
      end
  end.

Definition render (table : list (string * pyvalue)) (segs : list segment) : string :=
  template_text (map (render_segment table) segs).

(** The string form of each field, by name: sunrise and sunset as [HH:MM] in
    the zone of the report, the others by [str]. *)
Definition field_text (weather : report) (name : string) : option string :=
  if String.eqb name "icon" then Some (icon weather)
  else if String.eqb name "icon_colour" then Some (icon_colour weather)
  else if String.eqb name "temperature" then Some (str_decimal (temperature weather))
  else if String.eqb name "feels_like" then Some (str_decimal (feels_like weather))
  else if String.eqb name "calculated_at" then Some (str_datetime (calculated_at weather))
  else if String.eqb name "pressure" then Some (pretty (pressure weather))
  else if String.eqb name "humidity" then Some (pretty (humidity weather))
  else if String.eqb name "sunrise" then
    Some (pad2 (local_seconds (sunrise weather) mod 86400 / 3600) +:+ ":" +:+
          pad2 (local_seconds (sunrise weather) mod 3600 / 60))
  else if String.eqb name "sunset" then
    Some (pad2 (local_seconds (sunset weather) mod 86400 / 3600) +:+ ":" +:+
          pad2 (local_seconds (sunset weather) mod 3600 / 60))
  else if String.eqb name "wind_speed" then Some (str_decimal (speed (wind weather)))
  else if String.eqb name "wind_direction" then
    Some (default "None" (direction (wind weather)))
  else None.

Definition is_bar (c : ascii) : bool := Ascii.eqb c "|".

Fixpoint no_bar (s : string) : bool :=
  match s with
  | EmptyString => true
  | String c rest => negb (is_bar c) && no_bar rest
  end.

(** The characters field names are made of: lower case letters and the
    underscore. *)
Definition name_char (c : ascii) : bool :=
  let n := nat_of_ascii c in
  ((97 <=? n) && (n <=? 122) || (n =? 95))%nat.

Fixpoint is_name (s : string) : bool :=
  match s with
  | EmptyString => true
  | String c rest => name_char c && is_name rest
  end.

(** A value fit to stand in a rendered template: it has no bar, and it is
    not made of the characters of field names only. *)
Definition value_like (s : string) : Prop := no_bar s = true /\ is_name s = false.

(** The literal text up to the next token, when there is a next token. *)
Fixpoint gap (segs : list segment) : option string :=
  match segs with
  | [] => None
  | Lit text :: rest => String.append text <$> gap rest
  | Tok _ :: _ => Some ""
  end.

Definition recognised (names : list string) (name : string) : bool :=
  existsb (String.eqb name) names.

(** The tokens of a template are told apart from its text: bars occur only
    as the two ends of a token, and the text between two tokens is not
    itself one of the recognised names. *)
Fixpoint well_formed (names : list string) (segs : list segment) : bool :=
  match segs with
  | [] => true
  | Lit text :: rest => no_bar text && well_formed names rest
  | Tok name :: rest =>
      no_bar name &&
      match gap rest with
      | Some g => negb (recognised names g)
      | None => true
      end &&
      well_formed names rest
  end.

(** One round of the loop, on segments: the tokens of one name give way to
    a value. *)
Definition substitute_token (name value : string) (s : segment) : segment :=
  match s with
  | Lit text => Lit text
  | Tok n => if String.eqb n name then Lit value else Tok n
  end.

Definition field_names : list string :=
  [ "icon"; "icon_colour"; "temperature"; "feels_like"; "calculated_at"; "pressure";
    "humidity"; "sunrise"; "sunset"; "wind_speed"; "wind_direction" ].

(** The template of the specification's example, its segments, and settings
    that hold it under the name [t]. *)
Definition example_template : string := "|temperature| feels like |feels_like|".
Definition example_segments : list segment :=
  [ Tok "temperature"; Lit " feels like "; Tok "feels_like" ].
Definition example_templates : config :=
  {| api_key := None; cache_duration := None; default_template := None;
     templates := {[ "t" := example_template ]}; cache_directory := "/cache" |}.

(** A payload whose temperature is 21 and whose feels_like is 19.5. *)
Definition example_mild : Raw.payload :=
  example_payload (Int 21) (Float f64_19_5) (Float f64_3_456) (Int 180) "01d".

(** Settings with a default template, and settings whose template [t] has
    two tokens that share a bar. *)
Definition example_default : config :=
  {| api_key := None; cache_duration := None; default_template := Some "t";
     templates := {[ "t" := "|humidity|%" ]}; cache_directory := "/cache" |}.
Definition example_overlap : config :=
  {| api_key := None; cache_duration := None; default_template := None;
     templates := {[ "t" := "|temperature|icon|" ]}; cache_directory := "/cache" |}.


(** * The rest of the program: configuration and commands *)

From Stdlib Require Import Qpower.

(** The same world at another time. *)
Definition with_now (t : Z) (w : world) : world :=
  {| settings := settings w; files := files w; now := t;
     can_read := can_read w; can_write := can_write w;
     network := network w; requests := requests w |}.

(** The exceptions [_filter_data] can raise. *)
Definition normalisation_error (e : exception) : bool :=
  match e with
  | KeyError _ | IndexError | TypeError | InvalidOperation | OutOfRange => true
  | _ => false
  end.

(** ** Exceptions and state of the commands *)

(** What a command or a function of [_config.py] can raise: an exception of
    the service, a [ValueError], or an error of the geocoder
    ([geopy.exc.GeopyError], which is no [ValueError]). *)
Inductive raised :=
  | Exc (e : exception)
  | ValueError (message : string)
  | GeopyError (detail : string).

Definition outcome (A : Type) : Type := raised + A.

(** State and exceptions over any state. *)
Definition St (S A : Type) : Type := S -> outcome A * S.

Definition st_ret {S A} (a : A) : St S A := fun s => (inr a, s).
Definition st_raise {S A} (e : raised) : St S A := fun s => (inl e, s).
Definition st_bind {S A B} (m : St S A) (k : A -> St S B) : St S B :=
  fun s =>
    match m s with
    | (inl e, s') => (inl e, s')
    | (inr a, s') => k a s'
    end.

Declare Scope st_scope.
Delimit Scope st_scope with st.
Notation "x <- m ;; k" := (st_bind m (fun x => k))
  (at level 100, m at next level, right associativity) : st_scope.
Notation "m ;;; k" := (st_bind m (fun _ => k))
  (at level 100, right associativity) : st_scope.

(** A latitude or a longitude: the text of a command line option, or a
    float of the geocoder. *)
Inductive coordinate :=
  | Text (s : string)
  | Number (f : spec_float).

(** ** The configuration: [_config.py] *)

Module Config.

(** The table [general], at the types the commands write. *)
Record general := {
  api_key : option string;
  cache_duration : option Z;
  units : option string;
  default_location : option string;
  default_template : option string
}.

(** The TOML document: each of the three tables may be absent. *)
Record toml := {
  general_table : option general;
  locations : option (gmap string (coordinate * coordinate));
  templates : option (gmap string string)
}.

(** [table()] and [document()] *)
Definition no_settings : general :=
  {| api_key := None; cache_duration := None; units := None;
     default_location := None; default_template := None |}.
Definition empty : toml :=
  {| general_table := None; locations := None; templates := None |}.

(** The global [_config] of the process, absent until first use, and the
    file [config.toml]: its text if it can be read, and whether it can be
    written. *)
Record store := {
  memory : option toml;
  disk : option string;
  writable : bool
}.

Definition with_memory (d : toml) (s : store) : store :=
  {| memory := Some d; disk := disk s; writable := writable s |}.
Definition with_disk (text : string) (s : store) : store :=
  {| memory := memory s; disk := Some text; writable := writable s |}.

Definition config_file : string := "config.toml".

(** A table of the document, as [config.get(section)] and
    [config[section] = t] see it. *)
Record section (T : Type) := {
  table : toml -> option T;
  attach : T -> toml -> toml;
  fresh : T
}.
Arguments table {T}.
Arguments attach {T}.
Arguments fresh {T}.

(** A key of a table, as [t.get(key)], [t[key] = value] and [del t[key]]
    see it. *)
Record key (T V : Type) := {
  name : string;
  read : T -> option V;
  write : option V -> T -> T
}.
Arguments name {T V}.
Arguments read {T V}.
Arguments write {T V}.

Definition general_section : section general :=
  {| table := general_table;
     attach := fun t d => {| general_table := Some t; locations := locations d;
                             templates := templates d |};
     fresh := no_settings |}.
Definition locations_section : section (gmap string (coordinate * coordinate)) :=
  {| table := locations;
     attach := fun t d => {| general_table := general_table d; locations := Some t;
                             templates := templates d |};
     fresh := ∅ |}.
Definition templates_section : section (gmap string string) :=
  {| table := templates;
     attach := fun t d => {| general_table := general_table d; locations := locations d;
                             templates := Some t |};
     fresh := ∅ |}.

Definition api_key_key : key general string :=
  {| name := "api_key"; read := api_key;
     write := fun v g => {| api_key := v; cache_duration := cache_duration g;
                            units := units g; default_location := default_location g;
                            default_template := default_template g |} |}.
Definition cache_duration_key : key general Z :=
  {| name := "cache_duration"; read := cache_duration;
     write := fun v g => {| api_key := api_key g; cache_duration := v;
                            units := units g; default_location := default_location g;
                            default_template := default_template g |} |}.
Definition units_key : key general string :=
  {| name := "units"; read := units;
     write := fun v g => {| api_key := api_key g; cache_duration := cache_duration g;
                            units := v; default_location := default_location g;
                            default_template := default_template g |} |}.
Definition default_location_key : key general string :=
  {| name := "default_location"; read := default_location;
     write := fun v g => {| api_key := api_key g; cache_duration := cache_duration g;
                            units := units g; default_location := v;
                            default_template := default_template g |} |}.
Definition default_template_key : key general string :=
  {| name := "default_template"; read := default_template;
     write := fun v g => {| api_key := api_key g; cache_duration := cache_duration g;
                            units := units g; default_location := default_location g;
                            default_template := v |} |}.

(** The key [n] of a table with any keys. *)
Definition entry {V} (n : string) : key (gmap string V) V :=
  {| name := n; read := fun t => t !! n;
     write := fun v t => match v with
                         | Some x => <[n := x]> t
                         | None => delete n t
                         end |}.

Definition valid_units : list string := [ "standard"; "metric"; "imperial" ].

Section Store.

(** [tomlkit.loads] and [tomlkit.dumps]; the error of a text that does not
    parse, [tomlkit.exceptions.ParseError], is a [ValueError]. *)
Variable loads : string -> outcome toml.
Variable dumps : toml -> string.

Definition _load_config : St store toml :=
  fun s =>
    match memory s with
    | Some d => (inr d, s)
    | None =>
        match disk s with
        | Some text =>
            match loads text with
            | inl e => (inl e, s)
            | inr d => (inr d, with_memory d s)
            end
        | None => (inr empty, with_memory empty s)
        end
    end.

Definition _save_config : St store unit :=
  (config <- _load_config ;;
   fun s =>
     if writable s then (inr tt, with_disk (dumps config) s)
     else (inl (Exc (OSError config_file)), s))%st.

Definition _get_config_variable {T V} (sec : section T) (k : key T V)
    (default : option V) : St store (option V) :=
  (config <- _load_config ;;
   match table sec config with
   | None => st_ret default
   | Some t =>
       st_ret (match read k t with
               | Some v => Some v
               | None => default
               end)
   end)%st.

Definition _set_config_variable {T V} (sec : section T) (k : key T V) (value : V)
    : St store unit :=
  (config <- _load_config ;;
   let t := match table sec config with
            | Some t => t
            | None => fresh sec
            end in
   fun s => (inr tt, with_memory (attach sec (write k (Some value) t) config) s))%st.

Definition _delete_config_variable {T V} (sec : section T) (k : key T V)
    : St store unit :=
  (config <- _load_config ;;
   match table sec config with
   | None => st_raise (Exc (ArgumentError "Specified section does not exist"))
   | Some t =>
       match read k t with
       | None => st_raise (Exc (KeyError (name k)))
       | Some _ => fun s => (inr tt, with_memory (attach sec (write k None t) config) s)
       end
   end)%st.

Definition get_cache_duration : St store Z :=
  (v <- _get_config_variable general_section cache_duration_key (Some 30) ;;
   st_ret (default 30 v))%st.

Definition set_cache_duration (value : Z) : St store unit :=
  (_set_config_variable general_section cache_duration_key value ;;;
   _save_config)%st.

Definition get_units : St store string :=
  (v <- _get_config_variable general_section units_key (Some "metric") ;;
   st_ret (default "metric" v))%st.

Definition set_units (value : string) : St store unit :=
  (if bool_decide (value ∈ valid_units) then
     _set_config_variable general_section units_key value ;;;
     _save_config
   else st_raise (ValueError "Invalid units"))%st.

Definition get_api_key : St store (option string) :=
  _get_config_variable general_section api_key_key None.

Definition set_api_key (value : string) : St store unit :=
  (_set_config_variable general_section api_key_key value ;;;
   _save_config)%st.

Definition save_named_location (n : string) (latitude longitude : coordinate)
    : St store unit :=
  (_set_config_variable locations_section (entry n) (latitude, longitude) ;;;
   _save_config)%st.

Definition get_named_location (n : string) : St store (coordinate * coordinate) :=
  (d <- _get_config_variable locations_section (entry n) None ;;
   match d with
   | None => st_raise (Exc (ArgumentError "Named location not found."))
   | Some location => st_ret location
   end)%st.

Definition set_default_location (n : string) : St store unit :=
  (_set_config_variable general_section default_location_key n ;;;
   _save_config)%st.

Definition get_default_location : St store (option string) :=
  _get_config_variable general_section default_location_key None.

Definition delete_location (n : string) : St store unit :=
  (d <- get_default_location ;;
   (if bool_decide (d = Some n)
    then _delete_config_variable general_section default_location_key
    else st_ret tt) ;;;
   _delete_config_variable locations_section (entry (V := coordinate * coordinate) n) ;;;
   _save_config)%st.

Definition save_template (n template : string) : St store unit :=
  (_set_config_variable templates_section (entry n) template ;;;
   _save_config)%st.

Definition get_template (n : string) : St store (option string) :=
  _get_config_variable templates_section (entry n) None.

Definition set_default_template (n : string) : St store unit :=
  (_set_config_variable general_section default_template_key n ;;;
   _save_config)%st.

Definition get_default_template : St store (option string) :=
  _get_config_variable general_section default_template_key None.

Definition delete_template (n : string) : St store unit :=
  (d <- get_default_template ;;
   (if bool_decide (d = Some n)
    then _delete_config_variable general_section default_template_key
    else st_ret tt) ;;;
   _delete_config_variable templates_section (entry (V := string) n) ;;;
   _save_config)%st.

End Store.

End Config.

(** A new process over the same file: nothing is in memory yet. *)
Definition restart (s : Config.store) : Config.store :=
  {| Config.memory := None; Config.disk := Config.disk s;
     Config.writable := Config.writable s |}.

(** The default location, when there is one, names a saved location. *)
Definition default_location_exists (d : Config.toml) : Prop :=
  forall n,
    (Config.general_table d ≫= Config.default_location) = Some n ->
    is_Some (Config.locations d ≫= fun t => t !! n).

(** The document without its default location, if that is [n]. *)
Definition forget_default_location (n : string) (d : Config.toml) : Config.toml :=
  match Config.general_table d with
  | Some g =>
      if bool_decide (Config.default_location g = Some n)
      then Config.attach Config.general_section
             (Config.write Config.default_location_key None g) d
      else d
  | None => d
  end.

(** The document without the location [n]. *)
Definition forget_location (n : string) (d : Config.toml) : Config.toml :=
  match Config.locations d with
  | Some t => Config.attach Config.locations_section (delete n t) d
  | None => d
  end.


(** A configuration, a parser and a printer to run examples with: the text
    [[] does not parse, every other text parses to one given document. *)
Definition example_configuration : Config.toml :=
  {| Config.general_table :=
       Some {| Config.api_key := Some "0123456789abcdef"; Config.cache_duration := None;
               Config.units := None; Config.default_location := Some "home";
               Config.default_template := None |};
     Config.locations := Some {[ "home" := (Text "53.1", Text "-6.2") ]};
     Config.templates := None |}.
Definition example_toml_loads (d : Config.toml) (text : string) : outcome Config.toml :=
  if String.eqb text "[" then inl (ValueError "Unexpected end of file") else inr d.
Definition example_toml_dumps (d : Config.toml) : string := "# pyweatherfetch".
Definition example_store (text : option string) (writable : bool) : Config.store :=
  {| Config.memory := None; Config.disk := text; Config.writable := writable |}.

(** ** The commands: [_main.py] and [_location.py] *)

(** The state of a command: the configuration, the world of the service
    and of the output file, and the lines written with [click.echo], oldest
    first. *)
Record app := {
  conf : Config.store;
  env : world;
  echoed : list string
}.

Definition with_conf (c : Config.store) (a : app) : app :=
  {| conf := c; env := env a; echoed := echoed a |}.
Definition with_env (w : world) (a : app) : app :=
  {| conf := conf a; env := w; echoed := echoed a |}.

(** [click.echo(message)] *)
Definition echo (message : string) : St app unit :=
  fun a => (inr tt, {| conf := conf a; env := env a;
                       echoed := echoed a ++ [message] |}).

(** A function of [_config.py], run on the configuration of the command. *)
Definition configured {A} (m : St Config.store A) : St app A :=
  fun a => let '(r, c) := m (conf a) in (r, with_conf c a).

(** The settings the service and the templates read, as a document gives
    them; the cache directory is not a setting of the document. *)
Definition settings_of (d : Config.toml) (directory : string) : config :=
  {| api_key := Config.general_table d ≫= Config.api_key;
     cache_duration := Config.general_table d ≫= Config.cache_duration;
     default_template := Config.general_table d ≫= Config.default_template;
     templates := default ∅ (Config.templates d);
     cache_directory := directory |}.

Definition with_settings (c : config) (w : world) : world :=
  {| settings := c; files := files w; now := now w;
     can_read := can_read w; can_write := can_write w;
     network := network w; requests := requests w |}.

(** The class tests of the [except] clauses.  [OutOfRange], which stands for
    more than one class, is raised by no statement under a clause that
    tests for [ValueError] or [IOError]. *)
Definition is_ArgumentError (e : raised) : bool :=
  match e with
  | Exc (ArgumentError _) => true
  | _ => false
  end.
Definition is_KeyError (e : raised) : bool :=
  match e with
  | Exc (KeyError _) => true
  | _ => false
  end.
Definition is_IOError (e : raised) : bool :=
  match e with
  | Exc (OSError _) => true
  | _ => false
  end.
Definition is_ValueError (e : raised) : bool :=
  match e with
  | ValueError _ | Exc JSONDecodeError => true
  | _ => false
  end.
Definition is_API_error (e : raised) : bool :=
  match e with
  | Exc e => is_APIError e
  | _ => false
  end.

(** [try: m  except E as e: handler] *)
Definition try_except {S A} (m : St S A) (E : raised -> bool) (handler : raised -> St S A)
    : St S A :=
  fun s =>
    match m s with
    | (inl e, s') => if E e then handler e s' else (inl e, s')
    | (inr x, s') => (inr x, s')
    end.

(** A stretch of the body of a command: it leaves the command with a
    [return], or goes on to the next statement with the variables it has
    set. *)
Definition step (R A : Type) : Type := St app (R + A).

Definition returns {R A} (value : R) : step R A := st_ret (inl value).
Definition goes_on {R A} (x : A) : step R A := st_ret (inr x).
Definition run {R A} (m : St app A) : step R A := st_bind m goes_on.
Definition and_next {R A B} (m : step R A) (k : A -> step R B) : step R B :=
  st_bind m (fun r => match r with
                      | inl value => st_ret (inl value)
                      | inr x => k x
                      end).
Definition body {R} (m : step R R) : St app R :=
  st_bind m (fun r => st_ret match r with
                             | inl value => value
                             | inr value => value
                             end).

Declare Scope step_scope.
Delimit Scope step_scope with step.
Notation "x <- m ;; k" := (and_next m (fun x => k))
  (at level 100, m at next level, right associativity) : step_scope.
Notation "m ;;; k" := (and_next m (fun _ => k))
  (at level 100, right associativity) : step_scope.

(** What [geolocator.geocode(address)] comes to. *)
Inductive geocoded :=
  | Found (latitude longitude : spec_float)
  | NotFound
  | Failed (detail : string).

(** [x != None] *)
Definition given {A} (x : option A) : bool :=
  match x with
  | Some _ => true
  | None => false
  end.

Definition _location_partially_specified {A B C D}
    (location : option A) (address : option B)
    (latitude : option C) (longitude : option D) : bool :=
  if given address || given location then false
  else (negb (given latitude) && given longitude) ||
       (negb (given longitude) && given latitude).

Section Commands.

(** The libraries the commands use: [tomlkit], [hashlib], [json], the
    geocoder, and [str] of a float. *)
Variable loads : string -> outcome Config.toml.
Variable dumps : Config.toml -> string.
Variable sha1_hexdigest : string -> string.
Variable json_loads : string -> result document.
Variable json_dumps : document -> string.
Variable geocode : string -> geocoded.
Variable str_float : spec_float -> string.

(** [str(x)] of a latitude or a longitude *)
Definition str_coordinate (x : coordinate) : string :=
  match x with
  | Text s => s
  | Number f => str_float f
  end.

Definition locate {S} (address : string) : St S (spec_float * spec_float) :=
  match geocode address with
  | Found latitude longitude => st_ret (latitude, longitude)
  | NotFound => st_raise (ValueError "Could not find location of address")
  | Failed detail => st_raise (GeopyError detail)
  end.

(** A function of the service, run by a command.  The service reads its
    settings from the configuration, which its first statement with an
    effect loads, and keeps its cache where the world has it. *)
Definition served {A} (m : M A) : St app A :=
  (d <- configured (Config._load_config loads) ;;
   fun a =>
     let '(r, w) :=
       m (with_settings (settings_of d (cache_directory (settings (env a)))) (env a)) in
     (match r with
      | inl e => inl (Exc e)
      | inr x => inr x
      end, with_env w a))%st.

(** [_apply_template], reading the templates of the configuration. *)
Definition templated (weather : report) (template_name : option string) : St app string :=
  (d <- configured (Config._load_config loads) ;;
   fun a =>
     (match _apply_template (settings_of d (cache_directory (settings (env a))))
              weather template_name with
      | inl e => inl (Exc e)
      | inr x => inr x
      end, a))%st.

(** [out] is the path [out.expanduser().resolve()] when an output file was
    asked for. *)
Definition _output (formatted : string) (out : option string) : St app unit :=
  match out with
  | None => echo formatted
  | Some path =>
      fun a =>
        if can_write (env a) path
        then (inr tt,
              with_env (with_files (<[path := {| st_mtime := now (env a);
                                                 content := formatted |}]>
                                      (files (env a))) (env a)) a)
        else (inl (Exc (OSError path)), a)
  end.

(** The options of the command line are texts; [units] has the default of
    its option, [metric], when it is not given. *)
Definition fetch (longitude latitude address location template : option string)
    (units : string) (out : option string) : St app Z :=
  body
    (position <-
        match location with
        | Some n =>
            try_except
              (l <- configured (Config.get_named_location loads n) ;;
               goes_on (Some l.1, Some l.2))%st
              is_ArgumentError
              (fun _ => echo "The specified location was not found." ;;;
                        returns 1)%st
        | None => goes_on (Text <$> latitude, Text <$> longitude)
        end ;;
     let '(latitude, longitude) := position in
     position <-
        match address with
        | Some a =>
            try_except
              (l <- locate a ;;
               goes_on (Some (Number l.1), Some (Number l.2)))%st
              is_ValueError
              (fun _ =>
                 echo "Location could not be determined from the provided address" ;;;
                 returns 1)%st
        | None => goes_on (latitude, longitude)
        end ;;
     let '(latitude, longitude) := position in
     (if _location_partially_specified location address latitude longitude
      then (echo "Both longitude and latitude options are required if either is specified" ;;;
            returns 1)%st
      else goes_on tt) ;;;
     position <-
        match latitude with
        | None =>
            (default_location <- configured (Config.get_default_location loads) ;;
             match default_location with
             | Some n =>
                 try_except
                   (l <- configured (Config.get_named_location loads n) ;;
                    goes_on (Some l.1, Some l.2))%st
                   is_ArgumentError
                   (fun _ => echo "The default location no longer exists." ;;;
                             returns 1)%st
             | None => goes_on (latitude, longitude)
             end)%st
        | Some _ => goes_on (latitude, longitude)
        end ;;
     let '(latitude, longitude) := position in
     api_key <- run (configured (Config.get_api_key loads)) ;;
     (if given api_key then goes_on tt
      else (echo "API key for OpenWeatherMap.org has not been set." ;;;
            returns 1)%st) ;;;
     weather <-
       try_except
         (run (served (get_weather sha1_hexdigest json_loads json_dumps
                         (str_coordinate <$> latitude) (str_coordinate <$> longitude)
                         units)))
         is_API_error
         (fun _ => echo "Failed to retrieve weather data from the API." ;;;
                   returns 1)%st ;;
     formatted <-
       try_except
         (run (templated weather template))
         is_ArgumentError
         (fun e => match e with
                   | Exc (ArgumentError message) => (echo message ;;; returns 1)%st
                   | _ => st_raise e
                   end) ;;
     try_except
       (run (_output formatted out))
       is_IOError
       (fun _ => echo "Failed to write output file." ;;; returns 1)%st ;;;
     returns 0)%step.

(** The command [delete-location] *)
Definition delete_location (name : string) : St app unit :=
  body
    (try_except
       (try_except
          (run (configured (Config.delete_location loads dumps name)))
          is_ArgumentError
          (fun _ => echo "Location not found." ;;; returns tt)%st)
       is_KeyError
       (fun _ => echo "Location not found." ;;; returns tt)%st ;;;
     run (echo "Location deleted."))%step.

(** The command [set-default-location] *)
Definition set_default_location (name : string) : St app unit :=
  (configured (Config.set_default_location loads dumps name) ;;;
   echo "Default location set.")%st.

(** The command [set-units] *)
Definition set_units (units : string) : St app unit :=
  if bool_decide (units ∉ Config.valid_units)
  then echo ("Invalid units. Specify one of " +:+ String.concat ", " Config.valid_units)
  else (configured (Config.set_units loads dumps units) ;;;
        echo "Default units set.")%st.

End Commands.

(** The state of a command once the document [d] is in memory. *)
Definition loaded (d : Config.toml) (a : app) : app :=
  with_conf (Config.with_memory d (conf a)) a.

(** What a command has written with [click.echo] from the state [a] on. *)
Definition said (messages : list string) (a : app) : app :=
  {| conf := conf a; env := env a; echoed := echoed a ++ messages |}.

(** A configuration that holds nothing but an API key, a geocoder that
    knows one address, a [str] that prints every float alike, and the state
    a process starts in, to run examples with. *)
Definition example_keyed : Config.toml :=
  {| Config.general_table :=
       Some {| Config.api_key := Some "0123456789abcdef"; Config.cache_duration := None;
               Config.units := None; Config.default_location := None;
               Config.default_template := None |};
     Config.locations := None;
     Config.templates := None |}.
Definition example_geocode (address : string) : geocoded :=
  if String.eqb address "Dublin" then Found f64_21_04 f64_19_5 else NotFound.
Definition example_str_float (f : spec_float) : string := "0.0".
Definition example_app (text : option string) (writable : bool) (w : world) : app :=
  {| conf := example_store text writable; env := w; echoed := [] |}.
(** * Properties *)

(** ** Wind direction *)

Lemma Qle_bool_true (a b : Q) : (a <= b)%Q -> Qle_bool a b = true.
Proof. apply Qle_bool_iff. Qed.

Lemma Qle_bool_false (a b : Q) : (b < a)%Q -> Qle_bool a b = false.
Proof.
  intros H. apply not_true_is_false. rewrite Qle_bool_iff. lra.
Qed.

Lemma ge_const_finite x q b : value x = XFin q -> ge_const x b = Qle_bool b q.
Proof. unfold ge_const. now intros ->. Qed.

Lemma lt_const_finite x q b : value x = XFin q -> lt_const x b = negb (Qle_bool b q).
Proof. unfold lt_const. now intros ->. Qed.

(** Once a candidate is held, the loop returns the first tight wedge still
    to come, and the candidate when there is none. *)
Lemma scan_candidate degrees cs c0 :
  scan degrees cs (Some c0) = Some (default c0 (find (tight degrees) cs)).2.
Proof.
  induction cs as [|c cs IH]; [reflexivity|].
  cbn [scan find]. unfold tight at 1.
  destruct (ge_const degrees c.1.1), (lt_const degrees c.1.2); cbn; auto.
Qed.

Lemma find_elem_of {A} (p : A -> bool) (l : list A) (x : A) :
  find p l = Some x -> x ∈ l.
Proof.
  induction l as [|a l IH]; cbn; [discriminate|].
  destruct (p a).
  - intros [= ->]. left.
  - intros H. right. auto.
Qed.

Lemma scan_candidate_label degrees cs c0 :
  exists c, c ∈ c0 :: cs /\ scan degrees cs (Some c0) = Some c.2.
Proof.
  rewrite scan_candidate.
  destruct (find (tight degrees) cs) as [c|] eqn:E; cbn.
  - exists c. split; [right; eauto using find_elem_of | reflexivity].
  - exists c0. split; [left | reflexivity].
Qed.

Lemma scan_start degrees c rest :
  scan degrees (c :: rest) None =
  if ge_const degrees c.1.1 || lt_const degrees c.1.2
  then scan degrees rest (Some c)
  else scan degrees rest None.
Proof. reflexivity. Qed.

(** For a real bearing the first or the second wedge of the table becomes
    the candidate, and the rest of the loop looks for a tight wedge. *)
Lemma interpret_direction_real degrees q :
  value degrees = XFin q ->
  exists c0 rest,
    (cardinals = c0 :: rest \/ exists n, cardinals = n :: c0 :: rest) /\
    _interpret_direction degrees =
      Some (default c0 (find (tight degrees) rest)).2.
Proof.
  intros Hv. unfold _interpret_direction, cardinals.
  rewrite scan_start. cbn [fst snd].
  destruct (ge_const degrees 348.75 || lt_const degrees 11.25) eqn:HN.
  - rewrite scan_candidate. do 2 eexists. split; [left; reflexivity | reflexivity].
  - rewrite scan_start. cbn [fst snd].
    apply orb_false_iff in HN as [_ HN].
    rewrite (lt_const_finite _ q) in HN by exact Hv.
    rewrite (ge_const_finite _ q) by exact Hv.
    apply negb_false_iff in HN. rewrite (Qle_bool_true 11.25 q).
    + cbn [orb]. rewrite scan_candidate.
      do 2 eexists. split; [right; eexists; reflexivity | reflexivity].
    + apply Qle_bool_iff in HN. exact HN.
Qed.

(** C10: for every real bearing, inside [0, 360) or not, the interpretation
    returns one of the sixteen cardinal labels and never [None]: a real number
    below 11.25 matches the N wedge loosely, any other matches the NNE wedge
    loosely, so a candidate is held from the second wedge on at the latest. *)
Theorem interpret_direction_total (degrees : number) (q : Q) :
  value degrees = XFin q ->
  (exists label, label ∈ labels /\ _interpret_direction degrees = Some label) /\
  _interpret_direction degrees <> None.
Proof.
  intros Hv.
  destruct (interpret_direction_real degrees q Hv) as (c0 & rest & Hc & ->).
  split; [|discriminate].
  eexists. split; [|reflexivity].
  unfold labels. apply (list_elem_of_fmap_2 snd).
  assert (c0 :: rest ⊆ cardinals) as Hsub.
  { destruct Hc as [->|[n ->]]; intros x Hx; [exact Hx | right; exact Hx]. }
  apply Hsub.
  destruct (find (tight degrees) rest) as [c|] eqn:E; cbn.
  - right. eauto using find_elem_of.
  - left.
Qed.

Lemma interpret_direction_total_witness :
  (exists label, label ∈ labels /\ _interpret_direction (Int 725) = Some label) /\
  _interpret_direction (Int 725) <> None.
Proof. apply (interpret_direction_total (Int 725) 725). reflexivity. Defined.

(** Decide every comparison of the bearing [q] with a bound of the table. *)
Ltac decide_bounds q :=
  repeat match goal with
  | |- context [Qle_bool ?b q] =>
      first [ rewrite (Qle_bool_true b q) by lra
            | rewrite (Qle_bool_false b q) by lra ]
  end.

(** Run the loop for a real bearing [q] whose place among the bounds is
    known from the hypotheses. *)
Ltac run_scan Hv q :=
  unfold _interpret_direction, cardinals;
  rewrite scan_start; cbn [fst snd];
  rewrite !(ge_const_finite _ q), !(lt_const_finite _ q) by exact Hv;
  decide_bounds q; cbn [orb negb];
  try (rewrite scan_start; cbn [fst snd];
       rewrite !(ge_const_finite _ q), !(lt_const_finite _ q) by exact Hv;
       decide_bounds q; cbn [orb negb]);
  rewrite scan_candidate; cbn [find]; unfold tight; cbn [fst snd];
  rewrite !(ge_const_finite _ q), !(lt_const_finite _ q) by exact Hv;
  decide_bounds q; reflexivity.

(** Unfold [in_wedge] at a wedge of the table: the comparison of its two
    bounds is between constants. *)
Ltac open_wedge :=
  cbv [in_wedge fst snd];
  match goal with
  | |- context [Qle_bool ?a ?b] =>
      let v := eval vm_compute in (Qle_bool a b) in
      change (Qle_bool a b) with v; cbv iota
  end.

Ltac open_wedge_in H :=
  cbv [in_wedge fst snd] in H;
  match type of H with
  | context [Qle_bool ?a ?b] =>
      let v := eval vm_compute in (Qle_bool a b) in
      change (Qle_bool a b) with v in H; cbv iota in H
  end.

(** The wedge [c] contains [q], no other wedge does, and its label is
    returned. *)
Ltac settle_wedge Hv q c :=
  exists c; split; [unfold cardinals; set_solver|]; split;
  [ open_wedge; lra |];
  split;
  [ intros c' Hin Hw; unfold cardinals in Hin;
    repeat (apply elem_of_cons in Hin as [->|Hin]);
    try reflexivity;
    try (apply elem_of_nil in Hin; contradiction);
    exfalso; open_wedge_in Hw; lra
  | run_scan Hv q ].

Lemma interpret_direction_wedge degrees q :
  value degrees = XFin q -> (0 <= q < 360)%Q ->
  exists c, c ∈ cardinals /\ in_wedge q c /\
    (forall c', c' ∈ cardinals -> in_wedge q c' -> c' = c) /\
    _interpret_direction degrees = Some c.2.
Proof.
  intros Hv [H0 H360].
  destruct (Qlt_le_dec q 11.25); [settle_wedge Hv q (348.75, 11.25, "N")%Q|].
  destruct (Qlt_le_dec q 33.75); [settle_wedge Hv q (11.25, 33.75, "NNE")%Q|].
  destruct (Qlt_le_dec q 56.25); [settle_wedge Hv q (33.75, 56.25, "NE")%Q|].
  destruct (Qlt_le_dec q 78.75); [settle_wedge Hv q (56.25, 78.75, "ENE")%Q|].
  destruct (Qlt_le_dec q 101.25); [settle_wedge Hv q (78.75, 101.25, "E")%Q|].
  destruct (Qlt_le_dec q 123.75); [settle_wedge Hv q (101.25, 123.75, "ESE")%Q|].
  destruct (Qlt_le_dec q 146.25); [settle_wedge Hv q (123.75, 146.25, "SE")%Q|].
  destruct (Qlt_le_dec q 168.75); [settle_wedge Hv q (146.25, 168.75, "SSE")%Q|].
  destruct (Qlt_le_dec q 191.25); [settle_wedge Hv q (168.75, 191.25, "S")%Q|].
  destruct (Qlt_le_dec q 213.75); [settle_wedge Hv q (191.25, 213.75, "SSW")%Q|].
  destruct (Qlt_le_dec q 236.25); [settle_wedge Hv q (213.75, 236.25, "SW")%Q|].
  destruct (Qlt_le_dec q 258.75); [settle_wedge Hv q (236.25, 258.75, "WSW")%Q|].
  destruct (Qlt_le_dec q 281.25); [settle_wedge Hv q (258.75, 281.25, "W")%Q|].
  destruct (Qlt_le_dec q 303.75); [settle_wedge Hv q (281.25, 303.75, "WNW")%Q|].
  destruct (Qlt_le_dec q 326.25); [settle_wedge Hv q (303.75, 326.25, "NW")%Q|].
  destruct (Qlt_le_dec q 348.75); [settle_wedge Hv q (326.25, 348.75, "NNW")%Q|].
  settle_wedge Hv q (348.75, 11.25, "N")%Q.
Qed.

(** The literals 11.24 and 359.9 denote the doubles nearest to them: the
    distance is at most half a unit in the last place. *)
Lemma f64_literals :
  (exists v, float_value f64_11_24 = XFin v /\ Qabs (v - 11.24) <= 1 # 2 ^ 50)%Q /\
  (exists v, float_value f64_359_9 = XFin v /\ Qabs (v - 359.9) <= 1 # 2 ^ 45)%Q /\
  float_value f64_11_25 = XFin (45 # 4).
Proof.
  repeat split.
  - eexists. split; [reflexivity|]. apply Qle_bool_iff. vm_compute. reflexivity.
  - eexists. split; [reflexivity|]. apply Qle_bool_iff. vm_compute. reflexivity.
Qed.

(** C1: the table has sixteen wedges of 22.5 degrees each, the first one
    straddling North; for every bearing in [0, 360) exactly one wedge of the
    table contains the bearing, and the interpretation returns its label.
    In particular 0, 11.24 and 359.9 give N, 11.25 gives NNE, 180 gives S. *)
Theorem interpret_direction_correct :
  (length cardinals = 16%nat /\
   Forall (fun c => c.1.2 - c.1.1 == 22.5 \/ c.1.2 + 360 - c.1.1 == 22.5)%Q cardinals /\
   (forall q, in_wedge q (348.75, 11.25, "N")%Q <->
              (348.75 <= q < 360 \/ 0 <= q < 11.25)%Q)) /\
  (forall degrees q,
     value degrees = XFin q -> (0 <= q < 360)%Q ->
     exists c, c ∈ cardinals /\ in_wedge q c /\
       (forall c', c' ∈ cardinals -> in_wedge q c' -> c' = c) /\
       _interpret_direction degrees = Some c.2) /\
  _interpret_direction (Int 0) = Some "N" /\
  _interpret_direction (Float f64_11_24) = Some "N" /\
  _interpret_direction (Float f64_11_25) = Some "NNE" /\
  _interpret_direction (Float f64_359_9) = Some "N" /\
  _interpret_direction (Int 180) = Some "S".
Proof.
  split; [split; [reflexivity|split]|split].
  - unfold cardinals.
    repeat (apply Forall_cons_2;
            [first [left; vm_compute; reflexivity | right; vm_compute; reflexivity]|]).
    apply Forall_nil_2.
  - intros q. open_wedge. tauto.
  - exact interpret_direction_wedge.
  - repeat (split; [vm_compute; reflexivity|]). vm_compute; reflexivity.
Qed.

Lemma interpret_direction_correct_witness :
  exists c, c ∈ cardinals /\ in_wedge 180%Q c /\
    (forall c', c' ∈ cardinals -> in_wedge 180%Q c' -> c' = c) /\
    _interpret_direction (Int 180) = Some c.2.
Proof.
  apply (proj1 (proj2 interpret_direction_correct) (Int 180) 180%Q).
  - reflexivity.
  - split; [apply Qle_bool_iff | apply Qlt_alt]; reflexivity.
Defined.

(** ** Rounding *)

(** [round_half_even] returns a nearest integer, and on a tie the even one. *)
Lemma round_half_even_nearest num den :
  0 <= num ->
  let c := round_half_even num den in
  0 <= c /\
  2 * Z.abs (c * Z.pos den - num) <= Z.pos den /\
  (2 * Z.abs (c * Z.pos den - num) = Z.pos den -> Z.even c = true).
Proof.
  intros Hnum. unfold round_half_even. cbv zeta.
  pose proof (Z.div_mod num (Z.pos den) ltac:(lia)) as Hdm.
  pose proof (Z.mod_pos_bound num (Z.pos den) ltac:(lia)) as Hr.
  pose proof (Z.div_pos num (Z.pos den) Hnum ltac:(lia)) as Hk.
  set (k := num / Z.pos den) in *. set (r := num mod Z.pos den) in *.
  destruct (Z.compare_spec (2 * r) (Z.pos den)) as [He|Hl|Hg].
  - destruct (Z.even k) eqn:Ek.
    + repeat split; try lia. intros _. exact Ek.
    + repeat split; try lia. intros _.
      rewrite Z.even_add, Ek. reflexivity.
  - repeat split; lia.
  - repeat split; lia.
Qed.

Lemma even_of_N (m : N) : Z.even (Z.of_N m) = N.even m.
Proof. destruct m as [|[p|p|]]; reflexivity. Qed.

Lemma round_half_even_nearest_even (q : Q) (places : Z) :
  0 <= places ->
  let c := round_half_even (Z.abs (Qnum q) * 10 ^ places) (Qden q) in
  0 <= c /\ nearest_even q places (Z.to_N c).
Proof.
  intros Hp c.
  assert (0 < 10 ^ places) as Hpow by (apply Z.pow_pos_nonneg; lia).
  destruct (round_half_even_nearest (Z.abs (Qnum q) * 10 ^ places) (Qden q)
              ltac:(nia)) as (Hc & Hnear & Htie).
  fold c in Hc, Hnear, Htie.
  split; [exact Hc|].
  unfold nearest_even. cbv zeta. rewrite <- even_of_N, Z2N.id by exact Hc.
  destruct q as [n d]. cbn [Qnum Qden] in *.
  revert Hnear Htie. generalize c (10 ^ places). clear.
  intros c P Hnear Htie.
  unfold Qabs, Qle, Qeq, Qminus, Qplus, Qopp, Qmult, inject_Z. cbn [Qnum Qden].
  rewrite !Pos.mul_1_r, !Pos.mul_1_l, !Z.mul_1_r, ?Z.mul_1_l.
  split; [lia | intros H; apply Htie; lia].
Qed.

Lemma quantize_rounded x places d :
  0 <= places -> quantize x places = ok d -> rounded x places d.
Proof.
  intros Hp. unfold quantize, rounded.
  destruct (value x) as [| |q|]; try discriminate.
  - intros [= <-]. reflexivity.
  - destruct (round_half_even_nearest_even q places Hp) as [Hc Hn].
    destruct (10 ^ prec <=? _); [discriminate|].
    intros [= <-]. eexists. split; [reflexivity | exact Hn].
Qed.

(** ** Normalisation: what a successful [_filter_data] has established *)

Lemma and_then_ok {A B} (r : result A) (k : A -> result B) (b : B) :
  and_then r k = ok b -> exists a, r = ok a /\ k a = ok b.
Proof. destruct r as [e|a]; [discriminate|]. intros H. eauto. Qed.

Lemma item_ok {A} key (entry : option A) a : item key entry = ok a -> entry = Some a.
Proof. destruct entry; [intros [= ->]; reflexivity | discriminate]. Qed.

Lemma getitem_ok table key v : getitem table key = ok v -> table !! key = Some v.
Proof. apply item_ok. Qed.

Lemma first_ok {A} (l : list A) a : first l = ok a -> exists rest, l = a :: rest.
Proof. destruct l; [discriminate | intros [= ->]; eauto]. Qed.

Lemma fromtimestamp_utc_ok t dt :
  fromtimestamp_utc t = ok dt -> dt = {| instant := t; utcoffset := 0 |} /\ in_range t = true.
Proof.
  unfold fromtimestamp_utc. destruct (in_range t); [|discriminate].
  intros [= <-]. auto.
Qed.

Lemma timezone_ok offset tz :
  timezone offset = ok tz -> tz = offset /\ -86400 < offset < 86400.
Proof.
  unfold timezone. destruct (_ && _) eqn:E; [|discriminate].
  intros [= <-]. split; [reflexivity | lia].
Qed.

Lemma astimezone_ok dt tz dt' :
  astimezone dt tz = ok dt' ->
  dt' = {| instant := instant dt; utcoffset := tz |} /\ in_range (instant dt + tz) = true.
Proof.
  unfold astimezone. destruct (in_range _); [|discriminate].
  intros [= <-]. auto.
Qed.


Ltac step_result H :=
  let a := fresh "a" in
  let Ha := fresh "Ha" in
  apply and_then_ok in H as (a & Ha & H).

(** Reduce the projections of the payload records and the plumbing of
    [result], and nothing else. *)
Ltac raw_simpl :=
  cbn [and_then item first
       Raw.p_main Raw.p_dt Raw.p_weather Raw.p_wind Raw.p_timezone Raw.p_sys
       Raw.temp Raw.feels_like Raw.pressure Raw.humidity Raw.icon
       Raw.speed Raw.deg Raw.sunrise Raw.sunset] in *.

(** [_filter_data] succeeds exactly on the well-formed payloads, with the
    report [normalised] describes. *)
Lemma filter_payload_normalised p r :
  filter_payload p = ok r <-> normalised p r.
Proof.
  split.
  - unfold filter_payload. intros H.
    repeat step_result H.
    repeat match goal with
    | H : item _ _ = ok _ |- _ => apply item_ok in H
    | H : getitem _ _ = ok _ |- _ => apply getitem_ok in H
    | H : first _ = ok _ |- _ => apply first_ok in H as [? ->]
    | H : fromtimestamp_utc _ = ok _ |- _ => apply fromtimestamp_utc_ok in H as [-> ?]
    | H : timezone _ = ok _ |- _ => apply timezone_ok in H as [-> ?]
    | H : astimezone _ _ = ok _ |- _ => apply astimezone_ok in H as [-> ?]
    end.
    injection H as <-.
    destruct p as [m dt ws wd off sy]. raw_simpl. subst.
    match goal with H : Raw.icon _ = Some ?a, H' : Raw.icon _ = Some ?b |- _ =>
      rewrite H in H'; injection H' as <- end.
    repeat match goal with
    | x : Raw.main |- _ => destruct x; raw_simpl; subst
    | x : Raw.wind |- _ => destruct x; raw_simpl; subst
    | x : Raw.sys |- _ => destruct x; raw_simpl; subst
    | x : Raw.condition |- _ => destruct x; raw_simpl; subst
    end.
    cbn [instant utcoffset] in *. now constructor.
  - intros H. destruct H. unfold filter_payload, getitem.
    unfold fromtimestamp_utc, timezone, astimezone. raw_simpl.
    repeat match goal with
    | H : in_range _ = true |- _ => rewrite H; clear H; raw_simpl; cbn [instant]
    | H : quantize _ _ = _ |- _ => rewrite H; clear H; raw_simpl
    | H : _ !! _ = Some _ |- _ => rewrite H; clear H; raw_simpl
    end.
    replace ((-86400 <? offset) && (offset <? 86400)) with true
      by (symmetry; apply andb_true_intro; split; lia).
    raw_simpl.
    repeat match goal with
    | H : in_range _ = true |- _ => rewrite H; clear H; raw_simpl; cbn [instant]
    end.
    reflexivity.
Qed.

(** The literals 21.04, 21.05 and 3.456 denote the doubles nearest to them;
    20.25 and 19.5 are exact. *)
Lemma f64_measurements :
  (exists v, float_value f64_21_04 = XFin v /\ Qabs (v - 21.04) <= 1 # 2 ^ 49 /\ v < 21.05)%Q /\
  (exists v, float_value f64_21_05 = XFin v /\ Qabs (v - 21.05) <= 1 # 2 ^ 49 /\ 21.05 < v)%Q /\
  (exists v, float_value f64_3_456 = XFin v /\ Qabs (v - 3.456) <= 1 # 2 ^ 52)%Q /\
  (exists v, float_value f64_20_25 = XFin v /\ v == 20.25)%Q /\
  (exists v, float_value f64_19_5 = XFin v /\ v == 19.5)%Q.
Proof.
  repeat split.
  - eexists. split; [reflexivity|]. split; [apply Qle_bool_iff | apply Qlt_alt]; vm_compute; reflexivity.
  - eexists. split; [reflexivity|]. split; [apply Qle_bool_iff | apply Qlt_alt]; vm_compute; reflexivity.
  - eexists. split; [reflexivity|]. apply Qle_bool_iff; vm_compute; reflexivity.
  - eexists. split; [reflexivity|]. vm_compute; reflexivity.
  - eexists. split; [reflexivity|]. vm_compute; reflexivity.
Qed.

(** C2, as stated, fails: 20.25 is a binary64 value and an exact tie between
    20.2 and 20.3; round half up gives 20.3, normalisation gives 20.2. *)
Lemma rounding_half_up_counterexample :
  (exists v, value (Float f64_20_25) = XFin v /\ v == 20.25)%Q /\
  quantize_half_up (Float f64_20_25) 1 = ok (DFinite false 203 (-1)) /\
  exists r,
    _filter_data (Object (example_payload (Float f64_20_25) (Float f64_20_25)
                            (Float f64_20_25) (Int 0) "01d")) = ok r /\
    temperature r = DFinite false 202 (-1) /\
    str_decimal (temperature r) = "20.2" /\
    quantize_half_up (Float f64_20_25) 1 <> ok (temperature r).
Proof.
  split; [|split].
  - eexists. split; [reflexivity | vm_compute; reflexivity].
  - vm_compute. reflexivity.
  - eexists. split; [vm_compute; reflexivity|].
    repeat split; try (vm_compute; reflexivity).
    vm_compute. discriminate.
Qed.

(** C2, amended: normalisation rounds temperature and feels_like to one
    fractional digit and the wind speed to two, exactly, to the nearest
    decimal of the parsed number, a tie going to the even last digit (the
    rounding of the default decimal context).  In particular 21.04 gives
    21.0, 21.05 gives 21.1 (the parsed double lies above the tie) and
    3.456 gives 3.46. *)
Theorem filter_data_rounding :
  (forall p r,
     _filter_data (Object p) = ok r ->
     exists m w t f s,
       Raw.p_main p = Some m /\ Raw.temp m = Some t /\
       Raw.feels_like m = Some f /\
       Raw.p_wind p = Some w /\ Raw.speed w = Some s /\
       rounded t 1 (temperature r) /\
       rounded f 1 (feels_like r) /\
       rounded s 2 (speed (wind r))) /\
  (exists r,
     _filter_data (Object (example_payload (Float f64_21_04) (Float f64_21_05)
                             (Float f64_3_456) (Int 180) "01d")) = ok r /\
     str_decimal (temperature r) = "21.0" /\
     str_decimal (feels_like r) = "21.1" /\
     str_decimal (speed (wind r)) = "3.46").
Proof.
  split.
  - intros p r H. cbn [_filter_data] in H.
    apply filter_payload_normalised in H. destruct H.
    do 5 eexists. cbn [Raw.p_main Raw.temp Raw.feels_like Raw.p_wind Raw.speed
                       temperature feels_like speed wind].
    repeat (split; [reflexivity|]).
    repeat split; apply quantize_rounded; (lia || assumption).
  - eexists. split; [vm_compute; reflexivity|].
    repeat split; vm_compute; reflexivity.
Qed.

Lemma filter_data_rounding_witness :
  exists r,
    _filter_data (Object (example_payload (Float f64_20_25) (Float f64_19_5)
                            (Float f64_3_456) (Int 0) "01d")) = ok r /\
    exists m w t f s,
      Raw.p_main (example_payload (Float f64_20_25) (Float f64_19_5)
                    (Float f64_3_456) (Int 0) "01d") = Some m /\
      Raw.temp m = Some t /\ Raw.feels_like m = Some f /\
      Raw.p_wind (example_payload (Float f64_20_25) (Float f64_19_5)
                    (Float f64_3_456) (Int 0) "01d") = Some w /\
      Raw.speed w = Some s /\
      rounded t 1 (temperature r) /\
      rounded f 1 (feels_like r) /\
      rounded s 2 (speed (wind r)).
Proof.
  eexists. split; [vm_compute; reflexivity|].
  apply (proj1 filter_data_rounding). vm_compute. reflexivity.
Defined.

(** ** Unknown icon codes *)

(** C4: a payload whose icon code is not a key of the glyph table is never
    normalised: [_filter_data] raises, whatever the rest of the payload, and
    returns no report, partial or otherwise; no default glyph is substituted.
    When the statements before the lookup succeed the exception is the
    [KeyError] of the dictionary lookup, carrying the code (the error the
    specification calls MalformedDataError).  The code "99x" is an instance. *)
Theorem unknown_icon_is_an_error :
  (forall p c rest code,
     Raw.p_weather p = Some (c :: rest) ->
     Raw.icon c = Some code ->
     _icons !! code = None ->
     (exists e, _filter_data (Object p) = throw e) /\
     (forall r, _filter_data (Object p) <> ok r) /\
     (forall m dt t f t' f' pr hu,
        Raw.p_main p = Some m -> Raw.p_dt p = Some dt -> in_range dt = true ->
        Raw.temp m = Some t -> quantize t 1 = ok t' ->
        Raw.feels_like m = Some f -> quantize f 1 = ok f' ->
        Raw.pressure m = Some pr -> Raw.humidity m = Some hu ->
        _filter_data (Object p) = throw (KeyError code))) /\
  _icons !! "99x" = None /\
  _filter_data (Object (example_payload (Float f64_21_04) (Float f64_21_05)
                          (Float f64_3_456) (Int 180) "99x"))
    = throw (KeyError "99x").
Proof.
  split; [|split; vm_compute; reflexivity].
  intros p c rest code Hw Hc Hnone.
  assert (forall r, _filter_data (Object p) <> ok r) as Hno.
  { intros r H. cbn [_filter_data] in H.
    apply filter_payload_normalised in H. destruct H.
    cbn [Raw.p_weather] in Hw. injection Hw as <- _.
    cbn [Raw.icon] in Hc. injection Hc as ->. congruence. }
  split; [|split; [exact Hno|]].
  - destruct (_filter_data (Object p)) as [e|r] eqn:E; [eauto|].
    exfalso. exact (Hno r eq_refl).
  - intros m dt t f t' f' pr hu Hm Hdt Hr Ht Hqt Hf Hqf Hpr Hhu.
    cbn [_filter_data]. unfold filter_payload, getitem, fromtimestamp_utc.
    rewrite Hm, Hdt, Hw. raw_simpl.
    rewrite Hr, Ht. raw_simpl.
    rewrite Hqt, Hf. raw_simpl.
    rewrite Hqf, Hpr, Hhu, Hc. raw_simpl.
    rewrite Hnone. reflexivity.
Qed.

Lemma unknown_icon_is_an_error_witness :
  (exists e, _filter_data (Object (example_payload (Int 21) (Int 20) (Int 3) (Int 90) "99x"))
             = throw e) /\
  (forall r, _filter_data (Object (example_payload (Int 21) (Int 20) (Int 3) (Int 90) "99x"))
             <> ok r).
Proof.
  destruct (proj1 unknown_icon_is_an_error
              (example_payload (Int 21) (Int 20) (Int 3) (Int 90) "99x")
              {| Raw.icon := Some "99x" |} [] "99x"
              eq_refl eq_refl ltac:(vm_compute; reflexivity)) as (H1 & H2 & _).
  exact (conj H1 H2).
Defined.

(** ** The cache and the fetch *)

Section ServiceProperties.

Variable sha1_hexdigest : string -> string.
Variable json_loads : string -> result document.
Variable json_dumps : document -> string.

Local Abbreviation lookup := (_get_cached sha1_hexdigest json_loads).
Local Abbreviation fetch := (_get_fresh sha1_hexdigest json_loads json_dumps).
Local Abbreviation service := (get_weather sha1_hexdigest json_loads json_dumps).
Local Abbreviation key_path w latitude longitude units :=
  (cache_path (settings w) (_get_cache_hash sha1_hexdigest latitude longitude units)).

(** [_get_cached], as one case analysis. *)
Lemma get_cached_unfold latitude longitude units w :
  lookup latitude longitude units w =
  match files w !! key_path w latitude longitude units with
  | None => (ok Null, w)
  | Some f =>
      match timedelta_minutes (get_cache_duration (settings w)) with
      | inl e => (throw e, w)
      | inr max_age =>
          if now w - st_mtime f >? max_age then (ok Null, w)
          else if can_read w (key_path w latitude longitude units)
               then (json_loads (content f), w)
               else (throw (OSError (key_path w latitude longitude units)), w)
      end
  end.
Proof.
  cbv [_get_cached load_file bind gets lift ret raise].
  destruct (files w !! _) as [f|]; [|reflexivity].
  destruct (timedelta_minutes _) as [e|max_age]; [reflexivity|].
  destruct (_ >? _); [reflexivity|].
  destruct (can_read w _); reflexivity.
Qed.

Lemma get_cached_state latitude longitude units w :
  (lookup latitude longitude units w).2 = w.
Proof.
  rewrite get_cached_unfold.
  repeat match goal with |- context [match ?x with _ => _ end] => destruct x end;
    reflexivity.
Qed.

Local Abbreviation url_of w latitude longitude units :=
  (request_url latitude longitude (get_api_key (settings w)) units).
Local Abbreviation logged w latitude longitude units :=
  (with_requests (requests w ++ [url_of w latitude longitude units]) w).

(** [_get_fresh], as one case analysis. *)
Lemma get_fresh_unfold latitude longitude units w :
  fetch latitude longitude units w =
  match network w (length (requests w)) (url_of w latitude longitude units) with
  | NoResponse detail => (throw (HTTPError detail), logged w latitude longitude units)
  | Response status body =>
      if negb (status =? 200) then
        (throw (APIError ("Received error response from API: " +:+ pretty status)
                         (Some body)),
         logged w latitude longitude units)
      else
        match json_loads body with
        | inl e => (throw e, logged w latitude longitude units)
        | inr data =>
            if can_write w (key_path w latitude longitude units) then
              (ok data,
               with_files
                 (<[key_path w latitude longitude units :=
                      {| st_mtime := now w; content := json_dumps data |}]> (files w))
                 (logged w latitude longitude units))
            else
              (throw (OSError (key_path w latitude longitude units)),
               logged w latitude longitude units)
        end
  end.
Proof.
  cbv [_get_fresh http_request _cache_response dump_file modify
       bind gets lift ret raise].
  destruct (network w _ _) as [status body|detail]; [|reflexivity].
  cbn [fst snd]. destruct (negb _); [reflexivity|].
  destruct (json_loads body) as [e|data]; [reflexivity|].
  cbn [settings can_write with_requests].
  destruct (can_write w _); reflexivity.
Qed.

(** [get_weather], in terms of its three stages. *)
Lemma get_weather_unfold latitude longitude units w :
  service latitude longitude units w =
  match lookup latitude longitude units w with
  | (inl e, w1) => (throw e, w1)
  | (inr data, w1) =>
      match (if is_null data then fetch latitude longitude units w1 else (ok data, w1)) with
      | (inl e, w2) => (throw e, w2)
      | (inr data', w2) =>
          if is_null data'
          then (throw (APIError "Failed to retrieve weather data from API" None), w2)
          else (_filter_data data', w2)
      end
  end.
Proof.
  cbv [get_weather bind lift ret raise].
  destruct (lookup latitude longitude units w) as [[e|data] w1]; [reflexivity|].
  destruct (is_null data).
  - destruct (fetch latitude longitude units w1) as [[e|data'] w2]; [reflexivity|].
    destruct (is_null data'); reflexivity.
  - destruct (is_null data); reflexivity.
Qed.

(** On a miss the lookup leaves the world as it was, so the fetch starts
    from it. *)
Lemma get_weather_miss latitude longitude units w :
  (lookup latitude longitude units w).1 = ok Null ->
  service latitude longitude units w =
  match fetch latitude longitude units w with
  | (inl e, w2) => (throw e, w2)
  | (inr data', w2) =>
      if is_null data'
      then (throw (APIError "Failed to retrieve weather data from API" None), w2)
      else (_filter_data data', w2)
  end.
Proof.
  intros Hmiss. rewrite get_weather_unfold.
  pose proof (get_cached_state latitude longitude units w) as Hw.
  destruct (lookup latitude longitude units w) as [r w1].
  cbn [fst snd] in Hmiss, Hw. subst. reflexivity.
Qed.

(** C3: the lookup returns a miss exactly when no entry exists for the
    key, or the age [now - mtime] of the entry is strictly greater than
    [max_age], the configured duration in minutes, or the entry is read and
    holds the document [null], which [json.load] returns as [None], the
    value of a miss.  An entry aged exactly [max_age] is fresh: the lookup
    goes on to read it, and returns what the file holds; one second older,
    it is a miss.  The lookup changes nothing. *)
Theorem cache_lookup_freshness latitude longitude units w max_age :
  timedelta_minutes (get_cache_duration (settings w)) = ok max_age ->
  max_age = get_cache_duration (settings w) * 60 * 1000000 /\
  (lookup latitude longitude units w).2 = w /\
  ((lookup latitude longitude units w).1 = ok Null <->
     files w !! key_path w latitude longitude units = None \/
     exists f, files w !! key_path w latitude longitude units = Some f /\
               (now w - st_mtime f > max_age \/
                (can_read w (key_path w latitude longitude units) = true /\
                 json_loads (content f) = ok Null))) /\
  (forall f, files w !! key_path w latitude longitude units = Some f ->
     now w - st_mtime f = max_age ->
     (lookup latitude longitude units w).1 =
       (if can_read w (key_path w latitude longitude units)
        then json_loads (content f)
        else throw (OSError (key_path w latitude longitude units)))) /\
  (forall f, files w !! key_path w latitude longitude units = Some f ->
     now w - st_mtime f = max_age + 1000000 ->
     (lookup latitude longitude units w).1 = ok Null).
Proof.
  intros Hdur.
  split.
  { unfold timedelta_minutes in Hdur.
    destruct (_ <=? _); [|discriminate]. injection Hdur as <-. lia. }
  split; [apply get_cached_state|].
  rewrite get_cached_unfold, Hdur.
  destruct (files w !! _) as [f|] eqn:Hf.
  - split; [|split].
    + destruct (Z.gtb_spec (now w - st_mtime f) max_age) as [Hgt|Hle].
      * split; [|reflexivity]. intros _. right. exists f.
        split; [reflexivity | left; lia].
      * destruct (can_read w _) eqn:Hread; cbn [fst].
        -- split.
           ++ intros H. right. exists f. split; [reflexivity|]. right. now split.
           ++ intros [H|(f' & [= <-] & [H|[_ H]])]; [discriminate | lia | exact H].
        -- split; [discriminate|].
           intros [H|(f' & [= <-] & [H|[H _]])]; [discriminate | lia | discriminate].
    + intros f' [= <-] Hage.
      destruct (Z.gtb_spec (now w - st_mtime f) max_age) as [Hgt|Hle]; [lia|].
      destruct (can_read w _); reflexivity.
    + intros f' [= <-] Hage.
      destruct (Z.gtb_spec (now w - st_mtime f) max_age) as [Hgt|Hle]; [reflexivity | lia].
  - cbn [fst]. split; [|split].
    + split; [auto | reflexivity].
    + discriminate.
    + discriminate.
Qed.

(** C5: on a cache miss, when the response has a status other than 200,
    [get_weather] raises an [APIError] whose message carries that status
    and whose data is the body of the response; the request is logged and
    nothing else changes: no file of the cache directory is written. *)
Theorem get_weather_error_status latitude longitude units w status body :
  (lookup latitude longitude units w).1 = ok Null ->
  network w (length (requests w)) (url_of w latitude longitude units)
    = Response status body ->
  status <> 200 ->
  service latitude longitude units w =
    (throw (APIError ("Received error response from API: " +:+ pretty status)
                     (Some body)),
     logged w latitude longitude units) /\
  is_APIError
    (APIError ("Received error response from API: " +:+ pretty status) (Some body)) = true /\
  files (service latitude longitude units w).2 = files w.
Proof.
  intros Hmiss Hnet Hstatus.
  assert (service latitude longitude units w =
    (throw (APIError ("Received error response from API: " +:+ pretty status)
                     (Some body)),
     logged w latitude longitude units)) as H.
  { rewrite get_weather_miss by exact Hmiss.
    rewrite get_fresh_unfold, Hnet.
    destruct (Z.eqb_spec status 200); [contradiction | reflexivity]. }
  rewrite H. auto.
Qed.

(** C7: the fetch raises an [APIError] carrying the status and the body
    whenever the status of the response is not 200, and lets the transport
    exception through, an exception of another class, whenever no response
    was received.  Whatever the outcome, exactly one request is made. *)
Theorem get_fresh_failures latitude longitude units w :
  (forall status body,
     network w (length (requests w)) (url_of w latitude longitude units)
       = Response status body ->
     status <> 200 ->
     fetch latitude longitude units w =
       (throw (APIError ("Received error response from API: " +:+ pretty status)
                        (Some body)),
        logged w latitude longitude units)) /\
  (forall detail,
     network w (length (requests w)) (url_of w latitude longitude units)
       = NoResponse detail ->
     fetch latitude longitude units w =
       (throw (HTTPError detail), logged w latitude longitude units) /\
     is_APIError (HTTPError detail) = false) /\
  (forall message data, is_APIError (APIError message data) = true) /\
  requests (fetch latitude longitude units w).2 =
    (requests w ++ [url_of w latitude longitude units])%list.
Proof.
  rewrite get_fresh_unfold.
  split; [|split; [|split]].
  - intros status body -> Hstatus.
    destruct (Z.eqb_spec status 200); [contradiction | reflexivity].
  - intros detail ->. split; reflexivity.
  - reflexivity.
  - destruct (network w _ _) as [status body|detail]; [|reflexivity].
    destruct (negb _); [reflexivity|].
    destruct (json_loads body); [reflexivity|].
    destruct (can_write w _); reflexivity.
Qed.

(** C6, amended: a failure to read or to write the cache file is not
    handled.  When the entry is fresh and cannot be read, [get_weather]
    raises the [OSError] and makes no request; when the response is good
    and the entry cannot be written, [get_weather] raises the [OSError]
    after the request, and returns no report. *)
Theorem cache_io_errors_propagate latitude longitude units w :
  (forall f max_age,
     files w !! key_path w latitude longitude units = Some f ->
     timedelta_minutes (get_cache_duration (settings w)) = ok max_age ->
     now w - st_mtime f <= max_age ->
     can_read w (key_path w latitude longitude units) = false ->
     service latitude longitude units w =
       (throw (OSError (key_path w latitude longitude units)), w)) /\
  (forall body data,
     (lookup latitude longitude units w).1 = ok Null ->
     network w (length (requests w)) (url_of w latitude longitude units)
       = Response 200 body ->
     json_loads body = ok data ->
     can_write w (key_path w latitude longitude units) = false ->
     service latitude longitude units w =
       (throw (OSError (key_path w latitude longitude units)),
        logged w latitude longitude units)).
Proof.
  split.
  - intros f max_age Hf Hdur Hage Hread.
    rewrite get_weather_unfold, get_cached_unfold, Hf, Hdur, Hread.
    destruct (Z.gtb_spec (now w - st_mtime f) max_age); [lia | reflexivity].
  - intros body data Hmiss Hnet Hdata Hwrite.
    rewrite get_weather_miss by exact Hmiss.
    rewrite get_fresh_unfold, Hnet, Hdata, Hwrite. reflexivity.
Qed.

End ServiceProperties.

(** *** Instances *)

Lemma cache_lookup_freshness_witness :
  let w := example_world 1700000000000000 (example_entry 1700000000000000 half_hour)
             true true (NoResponse "unreachable") in
  (_get_cached example_digest example_loads (Some "53.1") (Some "-6.2") "metric" w).1
    = ok example_document.
Proof.
  intros w.
  destruct (cache_lookup_freshness example_digest example_loads
              (Some "53.1") (Some "-6.2") "metric" w half_hour)
    as (_ & _ & _ & Hhit & _).
  - reflexivity.
  - apply (Hhit {| st_mtime := 1700000000000000 - half_hour; content := "{}" |});
      reflexivity.
Defined.

(** A fresh entry that holds [null] is a miss, and is fetched again. *)
Lemma cache_null_entry_counterexample :
  let f := {| st_mtime := 1700000000000000 - half_hour; content := "null" |} in
  let w := example_world 1700000000000000
             (example_null_entry 1700000000000000 half_hour)
             true true (Response 200 "{}") in
  files w !! example_path = Some f /\
  cache_path (settings w)
    (_get_cache_hash example_digest (Some "53.1") (Some "-6.2") "metric") = example_path /\
  timedelta_minutes (get_cache_duration (settings w)) = ok half_hour /\
  now w - st_mtime f = half_hour /\
  (_get_cached example_digest example_loads_null
     (Some "53.1") (Some "-6.2") "metric" w).1 = ok Null /\
  length (requests (get_weather example_digest example_loads_null example_dumps
                      (Some "53.1") (Some "-6.2") "metric" w).2) = 1%nat.
Proof.
  cbv zeta. repeat split; vm_compute; reflexivity.
Qed.

Lemma get_weather_error_status_witness :
  let w := example_world 1700000000000000 ∅ true true
             (Response 500 "Internal Server Error") in
  (get_weather example_digest example_loads example_dumps
     (Some "53.1") (Some "-6.2") "metric" w).1
    = throw (APIError "Received error response from API: 500" (Some "Internal Server Error")) /\
  files (get_weather example_digest example_loads example_dumps
           (Some "53.1") (Some "-6.2") "metric" w).2 = ∅.
Proof.
  intros w.
  destruct (get_weather_error_status example_digest example_loads example_dumps
              (Some "53.1") (Some "-6.2") "metric" w 500 "Internal Server Error")
    as (H & _ & Hfiles).
  - reflexivity.
  - reflexivity.
  - lia.
  - rewrite H. split; reflexivity.
Defined.

Lemma get_fresh_failures_witness :
  let w := example_world 1700000000000000 ∅ true true (NoResponse "timed out") in
  (_get_fresh example_digest example_loads example_dumps
     (Some "53.1") (Some "-6.2") "metric" w).1 = throw (HTTPError "timed out") /\
  is_APIError (HTTPError "timed out") = false.
Proof.
  intros w.
  destruct (proj1 (proj2 (get_fresh_failures example_digest example_loads example_dumps
                            (Some "53.1") (Some "-6.2") "metric" w))
              "timed out" eq_refl) as [H Hclass].
  rewrite H. split; [reflexivity | exact Hclass].
Defined.

(** C6, as stated, fails.  A fresh entry that cannot be read: [get_weather]
    raises [OSError] and makes no request, where a miss would have fetched.
    A good response that cannot be cached: [get_weather] raises [OSError]
    after the request, where the claim has the report returned; with a
    writable cache the same world yields the report. *)
Lemma cache_io_failure_counterexample :
  let unreadable := example_world 1700000000000000 (example_entry 1700000000000000 0)
                      false true (Response 200 "{}") in
  let unwritable := example_world 1700000000000000 ∅ true false (Response 200 "{}") in
  let writable := example_world 1700000000000000 ∅ true true (Response 200 "{}") in
  let run := get_weather example_digest example_loads example_dumps
               (Some "53.1") (Some "-6.2") "metric" in
  ((run unreadable).1 = throw (OSError example_path) /\
   requests (run unreadable).2 = []) /\
  ((run unwritable).1 = throw (OSError example_path) /\
   length (requests (run unwritable).2) = 1%nat) /\
  (exists r, (run writable).1 = ok r).
Proof.
  cbv zeta. repeat split; try (vm_compute; reflexivity).
  eexists. vm_compute. reflexivity.
Qed.

Lemma cache_io_errors_propagate_witness :
  let unreadable := example_world 1700000000000000 (example_entry 1700000000000000 0)
                      false true (Response 200 "{}") in
  get_weather example_digest example_loads example_dumps
    (Some "53.1") (Some "-6.2") "metric" unreadable
  = (throw (OSError example_path), unreadable).
Proof.
  intros w.
  apply (proj1 (cache_io_errors_propagate example_digest example_loads example_dumps
                  (Some "53.1") (Some "-6.2") "metric" w)
           {| st_mtime := 1700000000000000 - 0; content := "{}" |} half_hour).
  - reflexivity.
  - reflexivity.
  - vm_compute. discriminate.
  - reflexivity.
Defined.

(** ** Rendering *)

Lemma append_cons (x : ascii) (a b : string) : String x a +:+ b = String x (a +:+ b).
Proof. reflexivity. Qed.

Lemma append_nil_l (b : string) : "" +:+ b = b.
Proof. reflexivity. Qed.

Lemma append_assoc (a b c : string) : (a +:+ b) +:+ c = a +:+ b +:+ c.
Proof.
  induction a as [|x a IH]; [reflexivity|].
  rewrite !append_cons. now f_equal.
Qed.

Lemma append_nil_r (a : string) : a +:+ "" = a.
Proof.
  induction a as [|x a IH]; [reflexivity|].
  rewrite append_cons. now f_equal.
Qed.

Lemma no_bar_append a b : no_bar (a +:+ b) = no_bar a && no_bar b.
Proof.
  induction a as [|x a IH]; [reflexivity|].
  rewrite append_cons. cbn [no_bar is_name]. rewrite IH. now rewrite andb_assoc.
Qed.

Lemma is_name_append a b : is_name (a +:+ b) = is_name a && is_name b.
Proof.
  induction a as [|x a IH]; [reflexivity|].
  rewrite append_cons. cbn [no_bar is_name]. rewrite IH. now rewrite andb_assoc.
Qed.

Lemma prefix_nil s : String.prefix "" s = true.
Proof. destruct s; reflexivity. Qed.

Lemma prefix_cons a s1 b s2 :
  String.prefix (String a s1) (String b s2) = Ascii.eqb a b && String.prefix s1 s2.
Proof.
  cbn. destruct (ascii_dec a b) as [->|Hne].
  - now rewrite Ascii.eqb_refl.
  - apply Ascii.eqb_neq in Hne. now rewrite Hne.
Qed.

(** A pattern that ends in a bar is no prefix of text without bars. *)
Lemma prefix_bar_nobar n z :
  no_bar z = true -> String.prefix (n +:+ "|") z = false.
Proof.
  revert z. induction n as [|a n IH]; intros [|b z] Hz; try reflexivity.
  - cbn in Hz. apply andb_prop in Hz as [Hb _].
    rewrite ?append_cons, ?append_nil_l. rewrite prefix_cons.
    unfold is_bar in Hb. rewrite Ascii.eqb_sym. 
    destruct (Ascii.eqb b "|"); [discriminate | reflexivity].
  - cbn in Hz. apply andb_prop in Hz as [_ Hz].
    rewrite ?append_cons, ?append_nil_l. rewrite prefix_cons, IH by exact Hz.
    apply andb_false_r.
Qed.

(** Of two words without bars, each followed by a bar, one is a prefix of
    the other only when they are the same word. *)
Lemma prefix_bar_word n m rest :
  no_bar n = true -> no_bar m = true ->
  String.prefix (n +:+ "|") (m +:+ "|" +:+ rest) = String.eqb n m.
Proof.
  revert m. induction n as [|a n IH]; intros [|b m] Hn Hm.
  - rewrite !append_nil_l, append_cons, prefix_cons, Ascii.eqb_refl, prefix_nil.
    reflexivity.
  - cbn in Hm. apply andb_prop in Hm as [Hb _].
    rewrite ?append_cons, ?append_nil_l. rewrite prefix_cons. unfold is_bar in Hb.
    rewrite Ascii.eqb_sym. destruct (Ascii.eqb b "|"); [discriminate | reflexivity].
  - cbn in Hn. apply andb_prop in Hn as [Ha _].
    rewrite ?append_cons, ?append_nil_l. rewrite prefix_cons. unfold is_bar in Ha.
    destruct (Ascii.eqb a "|"); [discriminate | reflexivity].
  - cbn in Hn, Hm. apply andb_prop in Hn as [_ Hn]. apply andb_prop in Hm as [_ Hm].
    rewrite !append_cons. cbn [String.eqb]. rewrite prefix_cons, IH by assumption.
    reflexivity.
Qed.

Lemma prefix_append a rest : String.prefix a (a +:+ rest) = true.
Proof.
  induction a as [|x a IH]; [apply prefix_nil|].
  rewrite append_cons, prefix_cons, Ascii.eqb_refl. exact IH.
Qed.

(** The scan copies text without bars when the pattern starts with a bar. *)
Lemma replace_scan_literal old new l rest :
  no_bar l = true ->
  replace_scan (String "|" old) new 0 (l +:+ rest) =
  l +:+ replace_scan (String "|" old) new 0 rest.
Proof.
  induction l as [|c l IH]; intros Hl; [reflexivity|].
  cbn [no_bar] in Hl. apply andb_prop in Hl as [Hc Hl].
  rewrite !append_cons. cbn [replace_scan].
  rewrite prefix_cons. unfold is_bar in Hc. rewrite Ascii.eqb_sym.
  destruct (Ascii.eqb c "|"); [discriminate|].
  cbn [andb]. now rewrite IH.
Qed.

(** The scan passes over the characters of a match. *)
Lemma replace_scan_skip old new p rest :
  replace_scan old new (String.length p) (p +:+ rest) = replace_scan old new 0 rest.
Proof.
  induction p as [|c p IH]; [reflexivity|].
  rewrite append_cons. cbn [String.length replace_scan]. exact IH.
Qed.

Lemma length_append a b : String.length (a +:+ b) = (String.length a + String.length b)%nat.
Proof.
  induction a as [|x a IH]; [reflexivity|].
  rewrite append_cons. cbn [String.length]. now rewrite IH.
Qed.

(** The pattern of the field [n]. *)
Abbreviation token n := ("|" +:+ n +:+ "|").

Lemma token_cons n : token n = String "|" (n +:+ "|").
Proof. reflexivity. Qed.

Lemma replace_scan_hit n new rest :
  replace_scan (token n) new 0 (token n +:+ rest) = new +:+ replace_scan (token n) new 0 rest.
Proof.
  change (token n) with (String "|" (n +:+ "|")).
  rewrite append_cons. cbn [replace_scan String.length].
  rewrite prefix_cons, Ascii.eqb_refl, prefix_append. cbn [andb].
  replace (S (String.length (n +:+ "|")) - 1)%nat with (String.length (n +:+ "|")) by lia.
  now rewrite replace_scan_skip.
Qed.

(** At a bar that opens no token [n], the scan copies the bar. *)
Lemma replace_scan_bar n new rest :
  String.prefix (n +:+ "|") rest = false ->
  replace_scan (token n) new 0 ("|" +:+ rest) =
  "|" +:+ replace_scan (token n) new 0 rest.
Proof.
  intros H. change (token n) with (String "|" (n +:+ "|")).
  change ("|" +:+ rest) with (String "|" rest). cbn [replace_scan].
  rewrite prefix_cons, Ascii.eqb_refl, H. reflexivity.
Qed.

(** The text of a template starts with its gap and the bar of the next
    token, or has no bar at all. *)
Lemma template_text_gap names segs :
  well_formed names segs = true ->
  match gap segs with
  | Some g => no_bar g = true /\ exists rest, template_text segs = g +:+ "|" +:+ rest
  | None => no_bar (template_text segs) = true
  end.
Proof.
  induction segs as [|[t|m] segs IH]; cbn [well_formed gap template_text foldr segment_text].
  - reflexivity.
  - intros H. apply andb_prop in H as [Ht H]. specialize (IH H).
    fold (template_text segs). destruct (gap segs) as [g|]; cbn [fmap option_fmap option_map].
    + destruct IH as (Hg & rest & ->). split.
      * rewrite no_bar_append. now rewrite Ht, Hg.
      * exists rest. now rewrite append_assoc.
    + rewrite no_bar_append. now rewrite Ht, IH.
  - intros _. split; [reflexivity|].
    fold (template_text segs). exists (m +:+ "|" +:+ template_text segs).
    rewrite append_nil_l. now rewrite !append_assoc.
Qed.

Lemma recognised_true names n : recognised names n = true <-> n ∈ names.
Proof.
  unfold recognised. rewrite existsb_exists. split.
  - intros (x & Hin & Heq). apply String.eqb_eq in Heq as <-.
    now apply list_elem_of_In.
  - intros Hin. exists n. split; [now apply list_elem_of_In | apply String.eqb_refl].
Qed.

(** One round of the loop replaces the tokens of one name and nothing else. *)
Lemma replace_scan_segments names n new segs :
  n ∈ names -> no_bar n = true ->
  well_formed names segs = true ->
  replace_scan (token n) new 0 (template_text segs) =
  template_text (map (substitute_token n new) segs).
Proof.
  intros Hn Hbar.
  assert (forall segs, well_formed names segs = true ->
            match gap segs with
            | Some g => negb (recognised names g) = true
            | None => True
            end ->
            String.prefix (n +:+ "|") (template_text segs) = false) as Hclose.
  { intros ss Hwf Hgap. pose proof (template_text_gap names ss Hwf) as Ht.
    destruct (gap ss) as [g|].
    - destruct Ht as (Hg & rest & ->).
      rewrite prefix_bar_word by assumption.
      apply String.eqb_neq. intros <-.
      apply negb_true_iff in Hgap.
      apply (proj2 (recognised_true names n)) in Hn. congruence.
    - now apply prefix_bar_nobar. }
  induction segs as [|[t|m] segs IH];
    cbn [well_formed map template_text foldr segment_text substitute_token];
    [ | fold (template_text segs);
        fold (template_text (map (substitute_token n new) segs)) .. ].
  - reflexivity.
  - intros H. apply andb_prop in H as [Ht H].
    change (token n) with (String "|" (n +:+ "|")).
    rewrite replace_scan_literal by exact Ht.
    change (String "|" (n +:+ "|")) with (token n). now rewrite IH.
  - intros H. apply andb_prop in H as [H Hwf]. apply andb_prop in H as [Hm Hgap].
    destruct (String.eqb_spec m n) as [->|Hne].
    + cbn [segment_text]. rewrite replace_scan_hit. now rewrite IH.
    + cbn [segment_text].
      rewrite !append_assoc.
      rewrite replace_scan_bar.
      2:{ rewrite prefix_bar_word by assumption.
          apply String.eqb_neq. congruence. }
      change (token n) with (String "|" (n +:+ "|")).
      rewrite replace_scan_literal by exact Hm.
      change (String "|" (n +:+ "|")) with (token n).
      rewrite replace_scan_bar.
      * now rewrite IH.
      * apply Hclose; [exact Hwf|]. destruct (gap segs); [exact Hgap | exact I].
Qed.

Lemma is_name_no_bar s : is_name s = true -> no_bar s = true.
Proof.
  induction s as [|c s IH]; [reflexivity|].
  cbn [is_name no_bar]. intros H. apply andb_prop in H as [Hc Hs].
  rewrite IH by exact Hs.
  assert (is_bar c = false) as ->; [|reflexivity].
  unfold is_bar. destruct (Ascii.eqb_spec c "|") as [->|]; [discriminate | reflexivity].
Qed.

(** After a round, a gap is a gap of before, or holds the value put in. *)
Lemma gap_substitute n new segs g :
  gap (map (substitute_token n new) segs) = Some g ->
  gap segs = Some g \/ (is_name new = false -> is_name g = false).
Proof.
  revert g. induction segs as [|[t|m] segs IH]; intros g; cbn [map substitute_token gap].
  - discriminate.
  - destruct (gap (map _ segs)) as [g'|]; [|discriminate].
    cbn. intros [= <-]. destruct (IH g' eq_refl) as [->|H].
    + left. reflexivity.
    + right. intros Hnew. rewrite is_name_append, (H Hnew). apply andb_false_r.
  - destruct (String.eqb m n); cbn [gap].
    + destruct (gap (map _ segs)) as [g'|]; [|discriminate].
      cbn. intros [= <-]. right. intros Hnew.
      rewrite is_name_append, Hnew. reflexivity.
    + intros [= <-]. left. reflexivity.
Qed.

Lemma well_formed_substitute names n new segs :
  Forall (fun m => is_name m = true) names ->
  no_bar new = true -> is_name new = false ->
  well_formed names segs = true ->
  well_formed names (map (substitute_token n new) segs) = true.
Proof.
  intros Hnames Hbar Hnew.
  induction segs as [|[t|m] segs IH]; cbn [map substitute_token well_formed].
  - reflexivity.
  - intros H. apply andb_prop in H as [Ht H]. now rewrite Ht, IH.
  - intros H. apply andb_prop in H as [H Hwf]. apply andb_prop in H as [Hm Hgap].
    destruct (String.eqb m n); cbn [well_formed].
    + now rewrite Hbar, IH.
    + rewrite Hm, IH by exact Hwf. rewrite andb_true_r. cbn [andb].
      destruct (gap (map _ segs)) as [g|] eqn:Eg; [|reflexivity].
      apply gap_substitute in Eg as [Eg|Eg].
      * now rewrite Eg in Hgap.
      * apply negb_true_iff, not_true_is_false. intros Hrec.
        apply recognised_true in Hrec.
        rewrite Forall_forall in Hnames. specialize (Hnames g Hrec).
        rewrite (Eg Hnew) in Hnames. discriminate.
Qed.

Lemma render_segment_cons n v rest s :
  render_segment rest (substitute_token n (str v) s) = render_segment ((n, v) :: rest) s.
Proof.
  destruct s as [t|m]; cbn [substitute_token render_segment field]; [reflexivity|].
  rewrite (String.eqb_sym n m). destruct (String.eqb m n); reflexivity.
Qed.

(** The whole loop, on a template whose tokens are told apart from its text:
    each token with a name of the table gives way to the string form of the
    value, in one pass, whatever the order of the table; the rest of the
    template stays. *)
Lemma substitute_segments table :
  Forall (fun sub => is_name sub.1 = true /\ value_like (str sub.2)) table ->
  forall names segs,
    map fst table ⊆ names ->
    Forall (fun m => is_name m = true) names ->
    well_formed names segs = true ->
    substitute table (template_text segs) = render table segs.
Proof.
  induction table as [|[n v] table IH]; intros Htable names segs Hsub Hnames Hwf.
  - unfold render. cbn [substitute fold_left].
    f_equal. clear. induction segs as [|[t|m] segs IHs]; cbn [map render_segment field];
      [reflexivity | now f_equal ..].
  - apply Forall_cons in Htable as [(Hn & Hbar & Hval) Htable]. cbn [fst snd] in *.
    unfold substitute. cbn [fold_left fst snd].
    change (token n) with (String "|" (n +:+ "|")). cbn [replace].
    change (String "|" (n +:+ "|")) with (token n).
    rewrite (replace_scan_segments names).
    + fold (substitute table (template_text (map (substitute_token n (str v)) segs))).
      rewrite (IH Htable names).
      * unfold render. f_equal. rewrite map_map.
        apply map_ext. intros s. apply render_segment_cons.
      * intros x Hx. apply Hsub. cbn [map fst]. now right.
      * exact Hnames.
      * now apply well_formed_substitute.
    + apply Hsub. cbn [map fst]. left.
    + now apply is_name_no_bar.
    + exact Hwf.
Qed.

(** ** The icon tables *)

(** C8: the glyph table and the colour table have the same keys. *)
Theorem icon_tables_same_keys :
  dom _icons = dom _icon_colours /\
  forall code, is_Some (_icons !! code) <-> is_Some (_icon_colours !! code).
Proof.
  assert (dom _icons = dom _icon_colours) as H.
  { unfold _icons, _icon_colours. rewrite !dom_list_to_map_L. reflexivity. }
  split; [exact H|].
  intros code. rewrite <- !elem_of_dom, H. reflexivity.
Qed.

(** ** The string forms of the fields *)

Lemma value_like_append_l a b : value_like a -> no_bar b = true -> value_like (a +:+ b).
Proof.
  intros [Ha Hn] Hb. split.
  - now rewrite no_bar_append, Ha, Hb.
  - now rewrite is_name_append, Hn.
Qed.

Lemma value_like_append_r a b : no_bar a = true -> value_like b -> value_like (a +:+ b).
Proof.
  intros Ha [Hb Hn]. split.
  - now rewrite no_bar_append, Ha, Hb.
  - rewrite is_name_append, Hn. apply andb_false_r.
Qed.

Lemma pretty_N_char_digit y :
  is_bar (pretty_N_char y) = false /\ name_char (pretty_N_char y) = false.
Proof. unfold pretty_N_char. repeat case_match; split; reflexivity. Qed.

Lemma pretty_N_go_no_bar x s : no_bar s = true -> no_bar (pretty_N_go x s) = true.
Proof.
  revert s. induction (N.lt_wf_0 x) as [x _ IH]. intros s Hs.
  destruct (N.eq_dec x 0%N) as [->|Hx]; [exact Hs|].
  rewrite pretty_N_go_step by lia.
  apply IH; [apply N.div_lt; lia|].
  cbn [no_bar]. rewrite (proj1 (pretty_N_char_digit _)). exact Hs.
Qed.

Lemma pretty_N_go_not_name x s : is_name s = false -> is_name (pretty_N_go x s) = false.
Proof.
  revert s. induction (N.lt_wf_0 x) as [x _ IH]. intros s Hs.
  destruct (N.eq_dec x 0%N) as [->|Hx]; [exact Hs|].
  rewrite pretty_N_go_step by lia.
  apply IH; [apply N.div_lt; lia|].
  cbn [is_name]. rewrite (proj2 (pretty_N_char_digit _)). reflexivity.
Qed.

Lemma pretty_N_value_like (x : N) : value_like (pretty x).
Proof.
  unfold pretty, pretty_N. case_decide as Hx; [split; reflexivity|].
  rewrite pretty_N_go_step by lia. split.
  - apply pretty_N_go_no_bar. cbn [no_bar].
    now rewrite (proj1 (pretty_N_char_digit _)).
  - apply pretty_N_go_not_name. cbn [is_name].
    now rewrite (proj2 (pretty_N_char_digit _)).
Qed.

Lemma pretty_Z_value_like (z : Z) : value_like (pretty z).
Proof.
  destruct z as [|p|p]; unfold pretty, pretty_Z.
  - split; reflexivity.
  - apply pretty_N_value_like.
  - apply value_like_append_r; [reflexivity | apply pretty_N_value_like].
Qed.

Lemma pad2_value_like n : value_like (pad2 n).
Proof.
  unfold pad2. destruct (n <? 10).
  - apply value_like_append_r; [reflexivity | apply pretty_Z_value_like].
  - apply pretty_Z_value_like.
Qed.

Lemma pad4_value_like n : value_like (pad4 n).
Proof.
  unfold pad4.
  repeat case_match;
    first [ apply pretty_Z_value_like
          | apply value_like_append_r; [reflexivity | apply pretty_Z_value_like] ].
Qed.

Lemma no_bar_substring n m s : no_bar s = true -> no_bar (substring n m s) = true.
Proof.
  revert n m. induction s as [|c s IH]; intros n m Hs.
  - destruct n, m; reflexivity.
  - cbn [no_bar] in Hs. apply andb_prop in Hs as [Hc Hs].
    destruct n as [|n]; cbn [substring].
    + destruct m as [|m]; [reflexivity|].
      cbn [no_bar]. now rewrite Hc, IH.
    + now apply IH.
Qed.

Lemma no_bar_zeros n : no_bar (zeros n) = true.
Proof. induction n as [|n IH]; [reflexivity|]. cbn [zeros no_bar]. exact IH. Qed.

(** The text of a decimal has no bar and holds a point (or is NaN). *)
Lemma str_decimal_value_like d : value_like (str_decimal d).
Proof.
  destruct d as [|s c e]; [split; reflexivity|].
  unfold str_decimal.
  pose proof (proj1 (pretty_N_value_like c)) as Hdigits.
  apply value_like_append_r; [destruct s; reflexivity|].
  case_match.
  - apply value_like_append_r; [now apply no_bar_substring|].
    apply value_like_append_l; [split; reflexivity|].
    now apply no_bar_substring.
  - apply value_like_append_l; [split; reflexivity|].
    now rewrite no_bar_append, no_bar_zeros, Hdigits.
Qed.

Lemma strftime_HM_value_like dt : value_like (strftime_HM dt).
Proof.
  unfold strftime_HM.
  apply value_like_append_l; [apply pad2_value_like|].
  rewrite no_bar_append. now rewrite (proj1 (pad2_value_like _)).
Qed.

Lemma format_offset_no_bar off : no_bar (format_offset off) = true.
Proof.
  unfold format_offset.
  rewrite !no_bar_append, !(proj1 (pad2_value_like _)).
  destruct (off <? 0), (_ =? 0); try reflexivity;
    rewrite ?no_bar_append, ?(proj1 (pad2_value_like _)); reflexivity.
Qed.

Lemma str_datetime_value_like dt : value_like (str_datetime dt).
Proof.
  unfold str_datetime.
  destruct (civil_from_days _) as [[y m] d].
  apply value_like_append_l; [apply pad4_value_like|].
  rewrite !no_bar_append, !(proj1 (pad2_value_like _)), format_offset_no_bar.
  reflexivity.
Qed.

(** Whatever the number, the loop returns nothing or a label of the table. *)
Lemma scan_label degrees cs candidate l :
  scan degrees cs candidate = Some l ->
  l ∈ map snd cs \/ exists c, candidate = Some c /\ l = c.2.
Proof.
  revert candidate. induction cs as [|c cs IH]; intros candidate; cbn [scan map].
  - destruct candidate as [c|]; [|discriminate]. intros [= <-]. right. eauto.
  - destruct (_ || _).
    + destruct candidate as [c0|].
      * destruct (_ && _).
        -- intros [= <-]. left. left.
        -- intros H. apply IH in H as [H|H]; [left; now right | now right].
      * intros H. apply IH in H as [H|(c' & [= <-] & ->)]; left; [now right | left].
    + intros H. apply IH in H as [H|H]; [left; now right | now right].
Qed.

Lemma interpret_direction_label degrees l :
  _interpret_direction degrees = Some l -> l ∈ labels.
Proof.
  intros H. apply scan_label in H as [H|(c & [=] & _)]. exact H.
Qed.

Lemma direction_value_like degrees : value_like (str (of_option (_interpret_direction degrees))).
Proof.
  destruct (_interpret_direction degrees) as [l|] eqn:E; [|split; reflexivity].
  apply interpret_direction_label in E. cbn [of_option str].
  revert l E. apply Forall_forall. unfold labels, cardinals. cbn [map snd].
  repeat (apply Forall_cons_2; [split; reflexivity|]). apply Forall_nil_2.
Qed.

Lemma table_value_like (items : list (string * string)) code v :
  forallb (fun kv => no_bar kv.2 && negb (is_name kv.2)) items = true ->
  (list_to_map items : gmap string string) !! code = Some v -> value_like v.
Proof.
  intros Hall Hv. apply elem_of_list_to_map_2 in Hv.
  rewrite forallb_forall in Hall.
  apply list_elem_of_In in Hv. specialize (Hall _ Hv). cbn [snd] in Hall.
  apply andb_prop in Hall as [H1 H2]. apply negb_true_iff in H2. now split.
Qed.

(** Every value of the table of substitutions of a report that normalisation
    built is fit to stand in a template, under a name made of name
    characters. *)
Lemma subs_value_like p w :
  normalised p w ->
  Forall (fun sub => is_name sub.1 = true /\ value_like (str sub.2)) (subs w).
Proof.
  intros H. destruct H. unfold subs.
  cbn [icon icon_colour temperature feels_like calculated_at pressure humidity
       sunrise sunset wind speed direction].
  repeat (apply Forall_cons_2; [split; [reflexivity|]; cbn [snd str]|]);
    [ | | | | | | | | | | | apply Forall_nil_2 ].
  - eapply (table_value_like _icons_items); [vm_compute; reflexivity | eassumption].
  - eapply (table_value_like _icon_colours_items); [vm_compute; reflexivity | eassumption].
  - apply str_decimal_value_like.
  - apply str_decimal_value_like.
  - apply str_datetime_value_like.
  - apply pretty_Z_value_like.
  - apply pretty_Z_value_like.
  - apply strftime_HM_value_like.
  - apply strftime_HM_value_like.
  - apply str_decimal_value_like.
  - apply direction_value_like.
Qed.

Lemma minute_of_day l : (l mod 86400) mod 3600 = l mod 3600.
Proof.
  symmetry. rewrite (Z.div_mod l 86400) at 1 by lia.
  replace (86400 * (l / 86400) + l mod 86400)
    with (l mod 86400 + (24 * (l / 86400)) * 3600) by lia.
  apply Z.mod_add. lia.
Qed.

(** The table of the code holds, for each field name, the string form the
    specification describes, and nothing for any other name. *)
Lemma field_of_subs w name : str <$> field (subs w) name = field_text w name.
Proof.
  unfold subs, field_text, strftime_HM. cbn [field]. cbv zeta.
  rewrite !minute_of_day.
  repeat (rewrite (String.eqb_sym _ name); destruct (String.eqb name _); [reflexivity|]).
  rewrite (String.eqb_sym _ name). destruct (String.eqb name _); [|reflexivity].
  cbn. destruct (direction (wind w)); reflexivity.
Qed.

Lemma field_names_of_subs w : map fst (subs w) = field_names.
Proof. reflexivity. Qed.

Lemma field_names_are_names : Forall (fun m => is_name m = true) field_names.
Proof.
  unfold field_names.
  repeat (apply Forall_cons_2; [reflexivity|]). apply Forall_nil_2.
Qed.

(** Rendering a template through the table of a normalised report. *)
Lemma substitute_render p w segs :
  normalised p w ->
  well_formed field_names segs = true ->
  substitute (subs w) (template_text segs) = render (subs w) segs.
Proof.
  intros Hn Hwf.
  apply (substitute_segments (subs w) (subs_value_like p w Hn) field_names).
  - rewrite field_names_of_subs. reflexivity.
  - exact field_names_are_names.
  - exact Hwf.
Qed.

(** C9, as stated, fails in two places.  With no template named and a
    default template set in the configuration, that template is rendered, not
    the fixed one.  And replacement is literal, field by field in the order of
    the table: in [|temperature|icon|] the token [|icon|] goes first and takes
    the bar that closes [|temperature|], a recognised token that then stays. *)
Lemma apply_template_counterexample :
  exists w,
    _filter_data (Object example_mild) = ok w /\
    str_decimal (temperature w) = "21.0" /\
    _apply_template example_default w None = ok "60%" /\
    _apply_template example_overlap w (Some "t") = ok ("|temperature" +:+ glyph 0xe30d) /\
    _apply_template example_overlap w (Some "t") <> ok ("21.0" +:+ "icon|").
Proof.
  eexists. split; [vm_compute; reflexivity|].
  repeat split; try (vm_compute; reflexivity).
  vm_compute. discriminate.
Qed.

(** C9, amended: for a report that normalisation built and a template whose
    tokens are told apart from its text (bars occur only as the two ends of
    a token, and the text between two tokens is not itself a field name),
    rendering replaces every token that names a field by the string form of
    the field, and leaves every other token, and all the text, as they are,
    without error.  The string form is [HH:MM] in the zone of the report for
    sunrise and sunset, and [str] for the other fields.  When no template is
    named, the default template of the configuration is used, and when none
    is set either, the fixed template [|temperature|], which renders as the
    temperature.  In particular [|temperature| feels like |feels_like|]
    renders as [21.0 feels like 19.5] for a temperature of 21.0 and a
    feels_like of 19.5, and [|bogus|] renders as itself. *)
Theorem apply_template_renders :
  (forall c p w name segs,
     normalised p w ->
     get_template c name = Some (template_text segs) ->
     well_formed field_names segs = true ->
     _apply_template c w (Some name) = ok (render (subs w) segs)) /\
  (forall w name, str <$> field (subs w) name = field_text w name) /\
  (forall c w name,
     get_default_template c = Some name ->
     _apply_template c w None = _apply_template c w (Some name)) /\
  (forall c p w,
     normalised p w ->
     get_default_template c = None ->
     _apply_template c w None = ok (substitute (subs w) "|temperature|") /\
     _apply_template c w None = ok (str_decimal (temperature w))) /\
  (exists w,
     _filter_data (Object example_mild) = ok w /\
     str_decimal (temperature w) = "21.0" /\
     str_decimal (feels_like w) = "19.5" /\
     forall c name,
       get_template c name = Some "|temperature| feels like |feels_like|" ->
       _apply_template c w (Some name) = ok "21.0 feels like 19.5") /\
  (forall c p w name,
     normalised p w ->
     get_template c name = Some "|bogus|" ->
     _apply_template c w (Some name) = ok "|bogus|").
Proof.
  assert (forall c p w name segs,
     normalised p w ->
     get_template c name = Some (template_text segs) ->
     well_formed field_names segs = true ->
     _apply_template c w (Some name) = ok (render (subs w) segs)) as Hgen.
  { intros c p w name segs Hn Ht Hwf.
    unfold _apply_template. rewrite Ht. cbn [and_then].
    f_equal. now apply (substitute_render p). }
  split; [exact Hgen|].
  split; [exact field_of_subs|].
  split; [|split; [|split]].
  - intros c w name Hd. unfold _apply_template. now rewrite Hd.
  - intros c p w Hn Hd. unfold _apply_template. rewrite Hd. cbn [and_then].
    split; [reflexivity|].
    f_equal. change "|temperature|" with (template_text [Tok "temperature"]).
    rewrite (substitute_render p) by (exact Hn || reflexivity).
    unfold render. cbn [map render_segment subs field String.eqb Ascii.eqb Bool.eqb].
    cbn [template_text foldr segment_text str]. apply append_nil_r.
  - eexists. split; [vm_compute; reflexivity|].
    split; [vm_compute; reflexivity|]. split; [vm_compute; reflexivity|].
    intros c name Ht. unfold _apply_template. rewrite Ht. cbn [and_then].
    vm_compute. reflexivity.
  - intros c p w name Hn Ht.
    exact (Hgen c p w name [Tok "bogus"] Hn Ht eq_refl).
Qed.

Lemma apply_template_renders_witness :
  exists w,
    _filter_data (Object example_mild) = ok w /\
    _apply_template example_templates w (Some "t") = ok (render (subs w) example_segments) /\
    render (subs w) example_segments = "21.0 feels like 19.5".
Proof.
  eexists. split; [vm_compute; reflexivity|]. split.
  - apply (proj1 apply_template_renders example_templates example_mild).
    + apply filter_payload_normalised. vm_compute. reflexivity.
    + vm_compute. reflexivity.
    + vm_compute. reflexivity.
  - vm_compute. reflexivity.
Defined.

(** * Further properties of the code *)

(** ** Wind direction outside the table *)

Lemma ge_const_infinite x b :
  (value x = XPosInf -> ge_const x b = true /\ lt_const x b = false) /\
  (value x = XNegInf -> ge_const x b = false /\ lt_const x b = true) /\
  (value x = XNaN -> ge_const x b = false /\ lt_const x b = false).
Proof.
  unfold ge_const, lt_const.
  split; [|split]; intros ->; split; reflexivity.
Qed.

(** The wedge of North takes every bearing that no other wedge takes. *)
Lemma interpret_direction_north (degrees : number) :
  (exists q, value degrees = XFin q /\ (q < 11.25 \/ 348.75 <= q)%Q) \/
  value degrees = XPosInf \/ value degrees = XNegInf ->
  _interpret_direction degrees = Some "N".
Proof.
  intros [(q & Hv & [Hq|Hq])|[Hv|Hv]].
  - run_scan Hv q.
  - run_scan Hv q.
  - unfold _interpret_direction, cardinals. rewrite scan_start, scan_candidate.
    cbn [find fst snd]. unfold tight. cbn [fst snd].
    repeat rewrite (proj2 (proj1 (ge_const_infinite degrees _) Hv)).
    repeat rewrite (proj1 (proj1 (ge_const_infinite degrees _) Hv)).
    reflexivity.
  - unfold _interpret_direction, cardinals. rewrite scan_start, scan_candidate.
    cbn [find fst snd]. unfold tight. cbn [fst snd].
    repeat match goal with
    | |- context [ge_const degrees ?b] =>
        rewrite (proj1 (proj1 (proj2 (ge_const_infinite degrees b)) Hv))
    | |- context [lt_const degrees ?b] =>
        rewrite (proj2 (proj1 (proj2 (ge_const_infinite degrees b)) Hv))
    end.
    reflexivity.
Qed.

(** X1: a bearing at or above 348.75 or below 11.25 is North, also when it
    lies outside [0, 360): 360, 400 and -10 are North, and so are the two
    infinities.  No bearing is reduced modulo 360. *)
Theorem interpret_direction_fallback (degrees : number) :
  (exists q, value degrees = XFin q /\ (q < 11.25 \/ 348.75 <= q)%Q) \/
  value degrees = XPosInf \/ value degrees = XNegInf ->
  _interpret_direction degrees = Some "N".
Proof. exact (interpret_direction_north degrees). Qed.

Lemma interpret_direction_fallback_witness :
  _interpret_direction (Int 400) = Some "N".
Proof.
  apply interpret_direction_fallback. left. exists (inject_Z 400).
  split; [reflexivity|]. right. apply Qle_bool_iff. reflexivity.
Defined.

(** X2: the interpretation returns [None] for a NaN and for nothing else. *)
Theorem interpret_direction_none_iff_nan (degrees : number) :
  _interpret_direction degrees = None <-> value degrees = XNaN.
Proof.
  split.
  - intros H. destruct (value degrees) as [| |q|] eqn:Hv; [reflexivity|..].
    + rewrite interpret_direction_north in H by auto. discriminate.
    + destruct (interpret_direction_real degrees q Hv) as (c0 & rest & _ & E).
      rewrite E in H. discriminate.
    + rewrite interpret_direction_north in H by auto. discriminate.
  - intros Hv. unfold _interpret_direction, cardinals.
    repeat (rewrite scan_start; cbn [fst snd];
            rewrite (proj1 (proj2 (proj2 (ge_const_infinite degrees _)) Hv)),
                    (proj2 (proj2 (proj2 (ge_const_infinite degrees _)) Hv));
            cbn [orb]).
    reflexivity.
Qed.

Lemma interpret_direction_none_iff_nan_witness :
  _interpret_direction (Float S754_nan) = None.
Proof. apply interpret_direction_none_iff_nan. reflexivity. Defined.

(** ** Small negative measurements *)

Lemma finite_negative x q : value x = XFin q -> (q < 0)%Q -> is_negative x = true.
Proof.
  destruct x as [z|[s|s| |s m e]]; cbn [value float_value is_negative].
  - intros [= <-] H. unfold Qlt in H. cbn in H. apply Z.ltb_lt. lia.
  - intros [= <-] H. exfalso. revert H. apply Qlt_irrefl.
  - destruct s; discriminate.
  - discriminate.
  - intros [= <-] H. destruct s; [reflexivity|]. exfalso.
    assert (0 < inject_Z (Z.pos m) * Qpower 2 e)%Q as Hpos.
    { apply Qmult_lt_0_compat; [reflexivity | now apply Qpower_0_lt]. }
    apply (Qlt_irrefl 0). now apply (Qlt_trans _ _ _ Hpos).
Qed.

(** X3: a measurement below zero and no further from it than 0.05 is
    rounded to minus zero at one fractional digit: its sign is kept, and it
    prints as [-0.0]. *)
Theorem quantize_minus_zero (x : number) (q : Q) :
  value x = XFin q -> (- 0.05 <= q < 0)%Q ->
  quantize x 1 = ok (DFinite true 0 (-1)) /\
  str_decimal (DFinite true 0 (-1)) = "-0.0".
Proof.
  intros Hv [Hlo Hhi]. split; [|reflexivity].
  unfold quantize. rewrite Hv, (finite_negative x q Hv Hhi).
  assert (round_half_even (Z.abs (Qnum q) * 10 ^ 1) (Qden q) = 0) as ->.
  { destruct q as [n d]. unfold Qle, Qlt in *. cbn [Qnum Qden Qopp] in *.
    change (10 ^ 1) with 10.
    unfold round_half_even. cbv zeta.
    assert (0 <= Z.abs n * 10 < Z.pos d) as Hsmall by lia.
    rewrite (Z.div_small _ _ Hsmall), (Z.mod_small _ _ Hsmall).
    destruct (Z.compare_spec (2 * (Z.abs n * 10)) (Z.pos d)); [reflexivity..|lia]. }
  reflexivity.
Qed.

Lemma quantize_minus_zero_witness :
  quantize (Float (S754_finite true 1 (-5))) 1 = ok (DFinite true 0 (-1)).
Proof.
  apply (quantize_minus_zero (Float (S754_finite true 1 (-5))) (- (1 # 32))).
  - reflexivity.
  - split; [apply Qle_bool_iff | apply Qlt_alt]; reflexivity.
Defined.

(** ** The cache, beyond freshness *)

Section CacheProperties.

Variable sha1_hexdigest : string -> string.
Variable json_loads : string -> result document.
Variable json_dumps : document -> string.

Local Abbreviation lookup := (_get_cached sha1_hexdigest json_loads).
Local Abbreviation fetch := (_get_fresh sha1_hexdigest json_loads json_dumps).
Local Abbreviation store := (_cache_response sha1_hexdigest json_dumps).
Local Abbreviation service := (get_weather sha1_hexdigest json_loads json_dumps).
Local Abbreviation key_path w latitude longitude units :=
  (cache_path (settings w) (_get_cache_hash sha1_hexdigest latitude longitude units)).
Local Abbreviation url_of w latitude longitude units :=
  (request_url latitude longitude (get_api_key (settings w)) units).
Local Abbreviation logged w latitude longitude units :=
  (with_requests (requests w ++ [url_of w latitude longitude units]) w).
Local Abbreviation written w latitude longitude units data :=
  (with_files
     (<[key_path w latitude longitude units :=
          {| st_mtime := now w; content := json_dumps data |}]> (files w)) w).

Lemma cache_response_unfold data latitude longitude units w :
  store data latitude longitude units w =
  if can_write w (key_path w latitude longitude units)
  then (ok tt, written w latitude longitude units data)
  else (throw (OSError (key_path w latitude longitude units)), w).
Proof.
  cbv [_cache_response dump_file modify bind gets lift ret raise].
  destruct (can_write w _); reflexivity.
Qed.

(** A duration of minutes that [timedelta] takes. *)
Lemma timedelta_minutes_ok m :
  0 <= m <= 1439999999999 -> timedelta_minutes m = ok (m * 60000000).
Proof.
  intros H. unfold timedelta_minutes.
  assert (0 <= m / 1440 <= 999999999) as Hd.
  { split; [apply Z.div_pos; lia|].
    assert (m / 1440 < 1000000000) by (apply Z.div_lt_upper_bound; lia). lia. }
  destruct (Z.leb_spec (Z.abs (m / 1440)) 999999999); [reflexivity | lia].
Qed.

(** A store followed by a lookup of the same key. *)
Lemma cache_store_then_lookup data latitude longitude units w t :
  can_write w (key_path w latitude longitude units) = true ->
  can_read w (key_path w latitude longitude units) = true ->
  0 <= get_cache_duration (settings w) <= 1439999999999 ->
  now w <= t <= now w + get_cache_duration (settings w) * 60000000 ->
  store data latitude longitude units w =
    (ok tt, written w latitude longitude units data) /\
  lookup latitude longitude units
    (with_now t (written w latitude longitude units data)) =
    (json_loads (json_dumps data), with_now t (written w latitude longitude units data)) /\
  (json_loads (json_dumps data) = ok data ->
   (lookup latitude longitude units
      (with_now t (written w latitude longitude units data))).1 = ok data).
Proof.
  intros Hwrite Hread Hdur Ht.
  split; [rewrite cache_response_unfold, Hwrite; reflexivity|].
  assert (lookup latitude longitude units
            (with_now t (written w latitude longitude units data)) =
          (json_loads (json_dumps data),
           with_now t (written w latitude longitude units data))) as H.
  { rewrite get_cached_unfold. cbn [settings files with_now with_files now can_read].
    rewrite lookup_insert_eq, (timedelta_minutes_ok _ Hdur), Hread.
    cbn [st_mtime content].
    destruct (Z.gtb_spec (t - now w) (get_cache_duration (settings w) * 60000000));
      [lia | reflexivity]. }
  split; [exact H|]. intros Hrt. rewrite H. exact Hrt.
Qed.

(** X4: what is stored for a key is what a lookup of the key then finds,
    for as long as the duration lasts: after [_cache_response] the lookup,
    made up to [cache_duration] minutes later, returns the stored text
    parsed again, which is the stored document when printing and parsing
    round trip.  The store writes one file and changes nothing else. *)
Theorem cache_round_trip data latitude longitude units w t :
  can_write w (key_path w latitude longitude units) = true ->
  can_read w (key_path w latitude longitude units) = true ->
  0 <= get_cache_duration (settings w) <= 1439999999999 ->
  now w <= t <= now w + get_cache_duration (settings w) * 60000000 ->
  store data latitude longitude units w =
    (ok tt, written w latitude longitude units data) /\
  lookup latitude longitude units
    (with_now t (written w latitude longitude units data)) =
    (json_loads (json_dumps data), with_now t (written w latitude longitude units data)) /\
  (json_loads (json_dumps data) = ok data ->
   (lookup latitude longitude units
      (with_now t (written w latitude longitude units data))).1 = ok data).
Proof. exact (cache_store_then_lookup data latitude longitude units w t). Qed.

(** A document found by the lookup is normalised as it is. *)
Lemma get_weather_from_cache latitude longitude units w d :
  (lookup latitude longitude units w).1 = ok d -> d <> Null ->
  service latitude longitude units w = (_filter_data d, w) /\
  requests (service latitude longitude units w).2 = requests w /\
  files (service latitude longitude units w).2 = files w.
Proof.
  intros Hhit Hd.
  assert (service latitude longitude units w = (_filter_data d, w)) as H.
  { rewrite get_weather_unfold.
    pose proof (get_cached_state sha1_hexdigest json_loads latitude longitude units w) as Hw.
    destruct (lookup latitude longitude units w) as [r w1].
    cbn [fst snd] in Hhit, Hw. subst.
    destruct d; [contradiction | reflexivity..]. }
  rewrite H. auto.
Qed.

(** X5: a hit is served from the cache alone: when the lookup finds a
    document, [get_weather] normalises that document, makes no request and
    writes no file. *)
Theorem get_weather_hit latitude longitude units w d :
  (lookup latitude longitude units w).1 = ok d -> d <> Null ->
  service latitude longitude units w = (_filter_data d, w) /\
  requests (service latitude longitude units w).2 = requests w /\
  files (service latitude longitude units w).2 = files w.
Proof. exact (get_weather_from_cache latitude longitude units w d). Qed.

(** X6: on a miss answered by a good response, [get_weather] makes one
    request, writes the document under the key with the time of the clock,
    and normalises it; and the same call, repeated within the duration of
    the cache, is then answered from that entry, with no request at all. *)
Theorem get_weather_fetch_then_hit latitude longitude units w body data t :
  (lookup latitude longitude units w).1 = ok Null ->
  network w (length (requests w)) (url_of w latitude longitude units)
    = Response 200 body ->
  json_loads body = ok data -> data <> Null ->
  json_loads (json_dumps data) = ok data ->
  can_write w (key_path w latitude longitude units) = true ->
  can_read w (key_path w latitude longitude units) = true ->
  0 <= get_cache_duration (settings w) <= 1439999999999 ->
  now w <= t <= now w + get_cache_duration (settings w) * 60000000 ->
  let w1 := written (logged w latitude longitude units) latitude longitude units data in
  service latitude longitude units w = (_filter_data data, w1) /\
  requests w1 = (requests w ++ [url_of w latitude longitude units])%list /\
  service latitude longitude units (with_now t w1) = (_filter_data data, with_now t w1).
Proof.
  intros Hmiss Hnet Hbody Hd Hrt Hwrite Hread Hdur Ht w1.
  split; [|split; [reflexivity|]].
  - rewrite get_weather_miss by exact Hmiss.
    rewrite get_fresh_unfold, Hnet, Hbody, Hwrite. cbn [negb Z.eqb Pos.eqb].
    destruct data; [contradiction | reflexivity..].
  - apply get_weather_from_cache; [|exact Hd].
    destruct (cache_store_then_lookup data latitude longitude units
                (logged w latitude longitude units) t) as (_ & _ & H);
      [assumption..|].
    exact (H Hrt).
Qed.

(** X7: the key of the cache is the digest of latitude, longitude and units
    put end to end, with nothing between them: two places whose latitude and
    longitude run into the same text share one cache entry, so that a
    document cached for the one is served for the other. *)
Theorem cache_key_collision lat1 lon1 lat2 lon2 units w d :
  str_option lat1 +:+ str_option lon1 = str_option lat2 +:+ str_option lon2 ->
  _get_cache_hash sha1_hexdigest lat1 lon1 units =
    _get_cache_hash sha1_hexdigest lat2 lon2 units /\
  lookup lat1 lon1 units w = lookup lat2 lon2 units w /\
  ((lookup lat1 lon1 units w).1 = ok d -> d <> Null ->
   service lat2 lon2 units w = (_filter_data d, w)).
Proof.
  intros H.
  assert (_get_cache_hash sha1_hexdigest lat1 lon1 units =
          _get_cache_hash sha1_hexdigest lat2 lon2 units) as Hk.
  { unfold _get_cache_hash. now rewrite <- !append_assoc, H. }
  assert (lookup lat1 lon1 units w = lookup lat2 lon2 units w) as Hl.
  { rewrite !get_cached_unfold, Hk. reflexivity. }
  split; [exact Hk|]. split; [exact Hl|].
  intros Hhit Hd. apply get_weather_from_cache; [|exact Hd]. now rewrite <- Hl.
Qed.

(** X8: a fresh entry that cannot be parsed is not fetched again: the error
    of the parser leaves [get_weather], and no request is made, for as long
    as the entry is fresh. *)
Theorem get_weather_corrupt_entry latitude longitude units w f max_age e :
  files w !! key_path w latitude longitude units = Some f ->
  timedelta_minutes (get_cache_duration (settings w)) = ok max_age ->
  now w - st_mtime f <= max_age ->
  can_read w (key_path w latitude longitude units) = true ->
  json_loads (content f) = throw e ->
  service latitude longitude units w = (throw e, w).
Proof.
  intros Hf Hdur Hage Hread He.
  rewrite get_weather_unfold, get_cached_unfold, Hf, Hdur, Hread, He.
  destruct (Z.gtb_spec (now w - st_mtime f) max_age); [lia | reflexivity].
Qed.

(** X9: a negative [cache_duration] turns the cache off: every entry that
    is not from the future is a miss.  With a duration of zero only an entry
    written at the very instant of the lookup is fresh. *)
Theorem negative_duration_always_misses latitude longitude units w f :
  files w !! key_path w latitude longitude units = Some f ->
  - 1439999998560 <= get_cache_duration (settings w) ->
  (get_cache_duration (settings w) < 0 -> st_mtime f <= now w ->
   lookup latitude longitude units w = (ok Null, w)) /\
  (get_cache_duration (settings w) = 0 -> st_mtime f < now w ->
   lookup latitude longitude units w = (ok Null, w)).
Proof.
  intros Hf Hlo.
  assert (get_cache_duration (settings w) <= 0 ->
          timedelta_minutes (get_cache_duration (settings w)) =
            ok (get_cache_duration (settings w) * 60000000)) as Htd.
  { intros Hneg. unfold timedelta_minutes.
    set (m := get_cache_duration (settings w)) in *.
    assert (- 999999999 <= m / 1440 <= 0) as Hd.
    { split.
      - apply Z.div_le_lower_bound; lia.
      - apply Z.div_le_upper_bound; lia. }
    destruct (Z.leb_spec (Z.abs (m / 1440)) 999999999); [reflexivity | lia]. }
  split; intros Hm Hage; rewrite get_cached_unfold, Hf, Htd by lia.
  - destruct (Z.gtb_spec (now w - st_mtime f)
                (get_cache_duration (settings w) * 60000000)); [reflexivity | lia].
  - destruct (Z.gtb_spec (now w - st_mtime f)
                (get_cache_duration (settings w) * 60000000)); [reflexivity | lia].
Qed.

(** X10: the document [null] is no payload.  A good response that parses to
    [null] is written to the cache all the same, and [get_weather] raises
    [APIError]; and a fresh entry that holds [null] counts as a miss and is
    fetched again. *)
Theorem get_weather_null latitude longitude units w :
  (forall body,
     (lookup latitude longitude units w).1 = ok Null ->
     network w (length (requests w)) (url_of w latitude longitude units)
       = Response 200 body ->
     json_loads body = ok Null ->
     can_write w (key_path w latitude longitude units) = true ->
     service latitude longitude units w =
       (throw (APIError "Failed to retrieve weather data from API" None),
        written (logged w latitude longitude units) latitude longitude units Null)) /\
  (forall f max_age,
     files w !! key_path w latitude longitude units = Some f ->
     timedelta_minutes (get_cache_duration (settings w)) = ok max_age ->
     now w - st_mtime f <= max_age ->
     can_read w (key_path w latitude longitude units) = true ->
     json_loads (content f) = ok Null ->
     (lookup latitude longitude units w).1 = ok Null /\
     requests (service latitude longitude units w).2 =
       (requests w ++ [url_of w latitude longitude units])%list).
Proof.
  split.
  - intros body Hmiss Hnet Hbody Hwrite.
    rewrite get_weather_miss by exact Hmiss.
    rewrite get_fresh_unfold, Hnet, Hbody, Hwrite. reflexivity.
  - intros f max_age Hf Hdur Hage Hread Hnull.
    assert ((lookup latitude longitude units w).1 = ok Null) as Hmiss.
    { rewrite get_cached_unfold, Hf, Hdur, Hread, Hnull.
      destruct (Z.gtb_spec (now w - st_mtime f) max_age); reflexivity. }
    split; [exact Hmiss|].
    rewrite get_weather_miss by exact Hmiss.
    rewrite get_fresh_unfold.
    destruct (network w _ _) as [status body|detail]; [|reflexivity].
    destruct (negb _); [reflexivity|].
    destruct (json_loads body) as [e|d]; [reflexivity|].
    destruct (can_write w _); [|reflexivity].
    destruct (is_null d); reflexivity.
Qed.

End CacheProperties.

(** *** Instances *)

Lemma cache_round_trip_witness :
  let w := example_world 1700000000000000 ∅ true true (NoResponse "unreachable") in
  (_get_cached example_digest example_loads (Some "53.1") (Some "-6.2") "metric"
     (with_now (1700000000000000 + half_hour)
        (with_files
           (<[example_path := {| st_mtime := 1700000000000000;
                                 content := example_dumps example_document |}]> ∅) w))).1
  = ok example_document.
Proof.
  intros w.
  destruct (cache_round_trip example_digest example_loads example_dumps example_document
              (Some "53.1") (Some "-6.2") "metric" w (1700000000000000 + half_hour))
    as (_ & _ & H).
  - reflexivity.
  - reflexivity.
  - vm_compute. split; discriminate.
  - vm_compute. split; discriminate.
  - apply H. reflexivity.
Defined.

Lemma get_weather_hit_witness :
  let w := example_world 1700000000000000 (example_entry 1700000000000000 half_hour)
             true true (NoResponse "unreachable") in
  requests (get_weather example_digest example_loads example_dumps
              (Some "53.1") (Some "-6.2") "metric" w).2 = [].
Proof.
  intros w.
  destruct (get_weather_hit example_digest example_loads example_dumps
              (Some "53.1") (Some "-6.2") "metric" w example_document)
    as (_ & H & _).
  - reflexivity.
  - discriminate.
  - exact H.
Defined.

Lemma get_weather_fetch_then_hit_witness :
  let w := example_world 1700000000000000 ∅ true true (Response 200 "{}") in
  exists w1,
    get_weather example_digest example_loads example_dumps
      (Some "53.1") (Some "-6.2") "metric" w = (_filter_data example_document, w1) /\
    get_weather example_digest example_loads example_dumps
      (Some "53.1") (Some "-6.2") "metric" (with_now (1700000000000000 + 60000000) w1)
    = (_filter_data example_document, with_now (1700000000000000 + 60000000) w1).
Proof.
  intros w.
  destruct (get_weather_fetch_then_hit example_digest example_loads example_dumps
              (Some "53.1") (Some "-6.2") "metric" w "{}" example_document
              (1700000000000000 + 60000000))
    as (H1 & _ & H2).
  - reflexivity.
  - reflexivity.
  - reflexivity.
  - discriminate.
  - reflexivity.
  - reflexivity.
  - reflexivity.
  - vm_compute. split; discriminate.
  - vm_compute. split; discriminate.
  - eexists. split; [exact H1 | exact H2].
Defined.

Lemma cache_key_collision_witness :
  _get_cache_hash example_digest (Some "5") (Some "12.3") "metric" =
  _get_cache_hash example_digest (Some "51") (Some "2.3") "metric".
Proof.
  apply (cache_key_collision example_digest example_loads example_dumps
           (Some "5") (Some "12.3") (Some "51") (Some "2.3") "metric"
           (example_world 0 ∅ true true (NoResponse "")) Null).
  reflexivity.
Defined.

Lemma get_weather_corrupt_entry_witness :
  let w := example_world 1700000000000000
             {[ example_path := {| st_mtime := 1700000000000000; content := "" |} ]}
             true true (Response 200 "{}") in
  get_weather example_digest example_loads example_dumps
    (Some "53.1") (Some "-6.2") "metric" w = (throw JSONDecodeError, w).
Proof.
  intros w.
  apply (get_weather_corrupt_entry example_digest example_loads example_dumps
           (Some "53.1") (Some "-6.2") "metric" w
           {| st_mtime := 1700000000000000; content := "" |} half_hour).
  - reflexivity.
  - reflexivity.
  - vm_compute. discriminate.
  - reflexivity.
  - reflexivity.
Defined.

Lemma negative_duration_always_misses_witness :
  let w := {| settings := {| api_key := Some "key"; cache_duration := Some (-1);
                             default_template := None; templates := ∅;
                             cache_directory := "/cache" |};
              files := example_entry 1700000000000000 0;
              now := 1700000000000000;
              can_read := fun _ => true; can_write := fun _ => true;
              network := fun _ _ => NoResponse "unreachable"; requests := [] |} in
  _get_cached example_digest example_loads (Some "53.1") (Some "-6.2") "metric" w
  = (ok Null, w).
Proof.
  intros w.
  apply (proj1 (negative_duration_always_misses example_digest example_loads
                  (Some "53.1") (Some "-6.2") "metric" w
                  {| st_mtime := 1700000000000000 - 0; content := "{}" |}
                  eq_refl ltac:(vm_compute; discriminate))).
  - reflexivity.
  - vm_compute. discriminate.
Defined.

Lemma get_weather_null_witness :
  let w := example_world 1700000000000000 ∅ true true (Response 200 "null") in
  (get_weather example_digest (fun _ => ok Null) example_dumps
     (Some "53.1") (Some "-6.2") "metric" w).1
  = throw (APIError "Failed to retrieve weather data from API" None).
Proof.
  intros w.
  rewrite (proj1 (get_weather_null example_digest (fun _ => ok Null) example_dumps
                    (Some "53.1") (Some "-6.2") "metric" w) "null");
    reflexivity.
Defined.

(** ** Normalisation, in full *)

(** X11: [_filter_data] returns a report exactly for a payload object that
    has every key, whose timestamps and zone offset are in range, whose
    three measurements quantize and whose icon code is a key of both tables;
    the report is then the one [normalised] gives, field by field. *)
Theorem filter_data_accepts (d : document) (r : report) :
  _filter_data d = ok r <-> exists p, d = Object p /\ normalised p r.
Proof.
  split.
  - destruct d as [|p|]; cbn [_filter_data]; [discriminate| |discriminate].
    intros H. exists p. split; [reflexivity|]. now apply filter_payload_normalised.
  - intros (p & -> & H). cbn [_filter_data]. now apply filter_payload_normalised.
Qed.

Lemma item_error {A} key (entry : option A) e :
  item key entry = throw e -> normalisation_error e = true.
Proof. destruct entry; [discriminate | intros [= <-]; reflexivity]. Qed.

Lemma quantize_error x places e :
  quantize x places = throw e -> normalisation_error e = true.
Proof.
  unfold quantize. destruct (value x); try discriminate;
    try (intros [= <-]; reflexivity).
  destruct (_ <=? _); [intros [= <-]; reflexivity | discriminate].
Qed.

Lemma datetime_error :
  (forall t e, fromtimestamp_utc t = throw e -> normalisation_error e = true) /\
  (forall o e, timezone o = throw e -> normalisation_error e = true) /\
  (forall dt tz e, astimezone dt tz = throw e -> normalisation_error e = true).
Proof.
  unfold fromtimestamp_utc, timezone, astimezone.
  repeat split; intros; repeat case_match; simplify_eq; reflexivity.
Qed.

(** The class of what [_filter_data] raises. *)
Lemma filter_data_raises (d : document) (e : exception) :
  _filter_data d = throw e -> normalisation_error e = true.
Proof.
  intros H.
  destruct d as [|p|]; cbn [_filter_data] in H;
    [injection H as <-; reflexivity | | injection H as <-; reflexivity].
  unfold filter_payload, getitem in H.
  destruct datetime_error as (Hts & Htz & Hat).
  repeat match type of H with
  | and_then ?r _ = _ =>
      let E := fresh "E" in
      destruct r eqn:E; cbn [and_then] in H;
      [ injection H as <-;
        first [ eapply item_error; eassumption
              | eapply quantize_error; eassumption
              | eapply Hts; eassumption
              | eapply Htz; eassumption
              | eapply Hat; eassumption
              | destruct (_ : list _); cbn in E; simplify_eq; reflexivity ]
      | ]
  end.
  discriminate.
Qed.

Lemma normalisation_error_class (e : exception) :
  normalisation_error e = true -> is_APIError e = false.
Proof. destruct e; try discriminate; reflexivity. Qed.

(** X12: whatever the document, [_filter_data] raises nothing but
    [KeyError], [IndexError], [TypeError], [InvalidOperation] or a range
    error of [datetime]: never an [APIError]. *)
Theorem filter_data_errors (d : document) (e : exception) :
  _filter_data d = throw e ->
  normalisation_error e = true /\ is_APIError e = false.
Proof.
  intros H. pose proof (filter_data_raises d e H) as He.
  split; [exact He | exact (normalisation_error_class e He)].
Qed.

Lemma filter_data_errors_witness :
  normalisation_error (KeyError "99x") = true /\ is_APIError (KeyError "99x") = false.
Proof.
  apply (filter_data_errors
           (Object (example_payload (Float f64_21_04) (Float f64_21_05)
                      (Float f64_3_456) (Int 180) "99x"))).
  vm_compute. reflexivity.
Defined.

(** ** The configuration *)

Section ConfigProperties.

Variable loads : string -> outcome Config.toml.
Variable dumps : Config.toml -> string.

Local Abbreviation load := (Config._load_config loads).

(** Loading puts the document in memory and leaves the file alone. *)
Lemma load_ok s d :
  (load s).1 = inr d ->
  exists s', load s = (inr d, s') /\ Config.memory s' = Some d /\
             Config.disk s' = Config.disk s /\ Config.writable s' = Config.writable s.
Proof.
  unfold Config._load_config. destruct s as [[m|] [text|] w];
    cbn [Config.memory Config.disk Config.writable fst].
  - intros [= <-]. eexists. repeat split.
  - intros [= <-]. eexists. repeat split.
  - destruct (loads text) as [e|d']; cbn [fst]; [discriminate|].
    intros [= <-]. eexists. repeat split.
  - intros [= <-]. eexists. repeat split.
Qed.

Lemma load_loaded s d : Config.memory s = Some d -> load s = (inr d, s).
Proof. unfold Config._load_config. now intros ->. Qed.

(** An operation that starts by loading runs, from a store that loads, as
    it runs from the loaded store. *)
Lemma load_first {A} (k : Config.toml -> St Config.store A) s d s' :
  load s = (inr d, s') -> Config.memory s' = Some d ->
  st_bind load k s = k d s' /\ st_bind load k s' = k d s'.
Proof.
  intros H Hm. unfold st_bind. now rewrite H, (load_loaded s' d Hm).
Qed.

Lemma get_loaded {T V} (sec : Config.section T) (k : Config.key T V) dflt s d :
  Config.memory s = Some d ->
  Config._get_config_variable loads sec k dflt s =
  (inr match Config.table sec d with
       | None => dflt
       | Some t => match Config.read k t with Some v => Some v | None => dflt end
       end, s).
Proof.
  intros Hm. unfold Config._get_config_variable, st_bind.
  rewrite (load_loaded s d Hm). now destruct (Config.table sec d).
Qed.

Lemma set_loaded {T V} (sec : Config.section T) (k : Config.key T V) v s d :
  Config.memory s = Some d ->
  Config._set_config_variable loads sec k v s =
  (inr tt,
   Config.with_memory
     (Config.attach sec
        (Config.write k (Some v) (default (Config.fresh sec) (Config.table sec d))) d) s).
Proof.
  intros Hm. unfold Config._set_config_variable, st_bind.
  rewrite (load_loaded s d Hm). now destruct (Config.table sec d).
Qed.

Lemma delete_loaded {T V} (sec : Config.section T) (k : Config.key T V) s d :
  Config.memory s = Some d ->
  Config._delete_config_variable loads sec k s =
  match Config.table sec d with
  | None => (inl (Exc (ArgumentError "Specified section does not exist")), s)
  | Some t =>
      match Config.read k t with
      | None => (inl (Exc (KeyError (Config.name k))), s)
      | Some _ =>
          (inr tt, Config.with_memory (Config.attach sec (Config.write k None t) d) s)
      end
  end.
Proof.
  intros Hm. unfold Config._delete_config_variable, st_bind.
  rewrite (load_loaded s d Hm). destruct (Config.table sec d) as [t|]; [|reflexivity].
  now destruct (Config.read k t).
Qed.

Lemma save_loaded s d :
  Config.memory s = Some d ->
  Config._save_config loads dumps s =
  if Config.writable s then (inr tt, Config.with_disk (dumps d) s)
  else (inl (Exc (OSError Config.config_file)), s).
Proof.
  intros Hm. unfold Config._save_config, st_bind.
  now rewrite (load_loaded s d Hm).
Qed.

(** Every setter is [_set_config_variable] and then [_save_config]. *)
Lemma set_and_save {T V} (sec : Config.section T) (k : Config.key T V) v s d :
  (load s).1 = inr d ->
  let d1 := Config.attach sec
              (Config.write k (Some v) (default (Config.fresh sec) (Config.table sec d))) d in
  st_bind (Config._set_config_variable loads sec k v)
          (fun _ => Config._save_config loads dumps) s =
  if Config.writable s
  then (inr tt, {| Config.memory := Some d1; Config.disk := Some (dumps d1);
                   Config.writable := true |})
  else (inl (Exc (OSError Config.config_file)),
        {| Config.memory := Some d1; Config.disk := Config.disk s;
           Config.writable := false |}).
Proof.
  intros Hload d1.
  destruct (load_ok s d Hload) as (s' & Hs' & Hm & Hd & Hw).
  unfold st_bind at 1. unfold Config._set_config_variable at 1.
  rewrite (proj1 (load_first _ s d s' Hs' Hm)). cbv zeta.
  change (match Config.table sec d with Some t => t | None => Config.fresh sec end)
    with (default (Config.fresh sec) (Config.table sec d)).
  fold d1. rewrite (save_loaded _ d1) by reflexivity.
  unfold Config.with_disk, Config.with_memory.
  cbn [Config.writable Config.memory Config.disk].
  rewrite Hw, Hd. destruct (Config.writable s); reflexivity.
Qed.


Lemma get_named_location_loaded s d n :
  Config.memory s = Some d ->
  Config.get_named_location loads n s =
  match Config.locations d ≫= (fun t => t !! n) with
  | Some l => (inr l, s)
  | None => (inl (Exc (ArgumentError "Named location not found.")), s)
  end.
Proof.
  intros Hm. unfold Config.get_named_location, st_bind.
  rewrite (get_loaded _ _ _ s d Hm).
  cbn [Config.table Config.locations_section Config.read Config.entry].
  destruct (Config.locations d) as [t|]; cbn; [|reflexivity].
  destruct (t !! n); reflexivity.
Qed.

(** X13: a location saved under a name is found under that name, as it was
    given, for the rest of the process, whether or not the file could be
    written, and the locations under other names stay as they were.  When
    the file could be written it holds the new document, and a new process
    finds the location as well, provided the document survives printing and
    parsing; when it could not, [OSError] is raised and the file is as
    before. *)
Theorem save_then_get_location s d n latitude longitude :
  (load s).1 = inr d ->
  let d1 := {| Config.general_table := Config.general_table d;
               Config.locations :=
                 Some (<[n := (latitude, longitude)]> (default ∅ (Config.locations d)));
               Config.templates := Config.templates d |} in
  let s1 := (Config.save_named_location loads dumps n latitude longitude s).2 in
  Config.memory s1 = Some d1 /\
  (Config.save_named_location loads dumps n latitude longitude s).1 =
    (if Config.writable s then inr tt else inl (Exc (OSError Config.config_file))) /\
  Config.disk s1 = (if Config.writable s then Some (dumps d1) else Config.disk s) /\
  Config.get_named_location loads n s1 = (inr (latitude, longitude), s1) /\
  (forall n' l, n' <> n ->
     Config.locations d ≫= (fun t => t !! n') = Some l ->
     Config.get_named_location loads n' s1 = (inr l, s1)) /\
  (Config.writable s = true -> loads (dumps d1) = inr d1 ->
   (Config.get_named_location loads n (restart s1)).1 = inr (latitude, longitude)).
Proof.
  intros Hload d1 s1. subst s1.
  unfold Config.save_named_location.
  rewrite (set_and_save _ _ _ s d Hload).
  cbn [Config.attach Config.locations_section Config.write Config.entry
       Config.fresh Config.table].
  fold d1.
  assert (forall s2, Config.memory s2 = Some d1 ->
            Config.get_named_location loads n s2 = (inr (latitude, longitude), s2)) as Hget.
  { intros s2 Hm. rewrite (get_named_location_loaded s2 d1 n Hm).
    subst d1. cbn. now rewrite lookup_insert_eq. }
  assert (forall s2 n' l, Config.memory s2 = Some d1 -> n' <> n ->
            Config.locations d ≫= (fun t => t !! n') = Some l ->
            Config.get_named_location loads n' s2 = (inr l, s2)) as Hother.
  { intros s2 n' l Hm Hne Hl. rewrite (get_named_location_loaded s2 d1 n' Hm).
    subst d1. cbn. rewrite lookup_insert_ne by congruence.
    destruct (Config.locations d) as [t|]; cbn in *; [now rewrite Hl | discriminate]. }
  destruct (Config.writable s); cbn [fst snd Config.memory Config.disk];
    (split; [reflexivity|]); (split; [reflexivity|]); (split; [reflexivity|]);
    (split; [now apply Hget|]); (split; [intros; now apply Hother|]).
  - intros _ Hrt. unfold restart. cbn [Config.disk Config.writable].
    unfold Config.get_named_location, Config._get_config_variable, st_bind,
      Config._load_config.
    cbn [Config.memory Config.disk]. rewrite Hrt.
    subst d1. cbn. now rewrite lookup_insert_eq.
  - discriminate.
Qed.


Lemma get_first {T V A} (sec : Config.section T) (k : Config.key T V) dflt
    (K : option V -> St Config.store A) s d s' :
  load s = (inr d, s') -> Config.memory s' = Some d ->
  st_bind (Config._get_config_variable loads sec k dflt) K s =
  st_bind (Config._get_config_variable loads sec k dflt) K s'.
Proof.
  intros H Hm. unfold Config._get_config_variable, st_bind.
  rewrite H, (load_loaded s' d Hm). reflexivity.
Qed.

(** [delete_location], from a loaded store. *)
Lemma delete_location_loaded s d n :
  Config.memory s = Some d ->
  Config.delete_location loads dumps n s =
  match Config.locations d with
  | None =>
      (inl (Exc (ArgumentError "Specified section does not exist")),
       Config.with_memory (forget_default_location n d) s)
  | Some t =>
      match t !! n with
      | None =>
          (inl (Exc (KeyError n)), Config.with_memory (forget_default_location n d) s)
      | Some _ =>
          let d1 := forget_location n (forget_default_location n d) in
          if Config.writable s
          then (inr tt, Config.with_disk (dumps d1) (Config.with_memory d1 s))
          else (inl (Exc (OSError Config.config_file)), Config.with_memory d1 s)
      end
  end.
Proof.
  intros Hm. unfold Config.delete_location, Config.get_default_location.
  unfold st_bind at 1. rewrite (get_loaded _ _ _ s d Hm).
  cbn [Config.table Config.general_section Config.read Config.default_location_key].
  assert (forall s2 d2, Config.memory s2 = Some d2 ->
            Config.locations d2 = Config.locations d ->
            st_bind (Config._delete_config_variable loads Config.locations_section
                       (Config.entry (V := coordinate * coordinate) n))
                    (fun _ => Config._save_config loads dumps) s2 =
            match Config.locations d with
            | None =>
                (inl (Exc (ArgumentError "Specified section does not exist")), s2)
            | Some t =>
                match t !! n with
                | None => (inl (Exc (KeyError n)), s2)
                | Some _ =>
                    if Config.writable s2
                    then (inr tt, Config.with_disk (dumps (forget_location n d2))
                                    (Config.with_memory (forget_location n d2) s2))
                    else (inl (Exc (OSError Config.config_file)),
                          Config.with_memory (forget_location n d2) s2)
                end
            end) as Hrest.
  { intros s2 d2 Hm2 Hloc. unfold st_bind. rewrite (delete_loaded _ _ s2 d2 Hm2).
    cbn [Config.table Config.locations_section Config.read Config.entry Config.name
         Config.write Config.attach].
    unfold forget_location. rewrite Hloc.
    destruct (Config.locations d) as [t|]; [|reflexivity].
    destruct (t !! n); [|reflexivity].
    cbn [Config.attach Config.locations_section].
    rewrite (save_loaded (Config.with_memory _ s2) _ eq_refl). reflexivity. }
  unfold forget_default_location.
  assert (forall o : option string,
            match o with Some v => Some v | None => None end = o) as Hid
    by (intros []; reflexivity).
  destruct (Config.general_table d) as [g|] eqn:Hg; rewrite ?Hid.
  - destruct (bool_decide_reflect (Config.default_location g = Some n)) as [Hdef|Hdef].
    + unfold st_bind at 1.
      rewrite (delete_loaded _ _ s d Hm).
      cbn [Config.table Config.general_section Config.read Config.default_location_key].
      rewrite Hg, Hdef.
      set (d2 := Config.attach Config.general_section
                   (Config.write Config.default_location_key None g) d).
      rewrite (Hrest (Config.with_memory d2 s) d2 eq_refl eq_refl).
      destruct (Config.locations d) as [t|]; [|reflexivity].
      destruct (t !! n); [|reflexivity].
      cbv zeta. unfold Config.with_memory, Config.with_disk.
      cbn [Config.writable Config.memory Config.disk]. reflexivity.
    + unfold st_bind at 1. unfold st_ret at 1.
      rewrite (Hrest s d Hm eq_refl).
      destruct s as [m dk w]. cbn [Config.memory] in Hm. subst m.
      destruct (Config.locations d) as [t|]; [|reflexivity].
      destruct (t !! n); [|reflexivity]. reflexivity.
  - rewrite bool_decide_eq_false_2 by discriminate.
    unfold st_bind at 1. unfold st_ret at 1.
    rewrite (Hrest s d Hm eq_refl).
    destruct s as [m dk w]. cbn [Config.memory] in Hm. subst m.
    destruct (Config.locations d) as [t|]; [|reflexivity].
    destruct (t !! n); [|reflexivity]. reflexivity.
Qed.


Lemma with_memory_loaded d1 s s' :
  Config.disk s' = Config.disk s -> Config.writable s' = Config.writable s ->
  Config.with_memory d1 s' = Config.with_memory d1 s.
Proof. unfold Config.with_memory. now intros -> ->. Qed.

(** [delete_location], from a store that loads. *)
Lemma delete_location_result s d n :
  (load s).1 = inr d ->
  Config.delete_location loads dumps n s =
    match Config.locations d with
    | None =>
        (inl (Exc (ArgumentError "Specified section does not exist")),
         Config.with_memory (forget_default_location n d) s)
    | Some t =>
        match t !! n with
        | None =>
            (inl (Exc (KeyError n)), Config.with_memory (forget_default_location n d) s)
        | Some _ =>
            let d1 := forget_location n (forget_default_location n d) in
            if Config.writable s
            then (inr tt, Config.with_disk (dumps d1) (Config.with_memory d1 s))
            else (inl (Exc (OSError Config.config_file)), Config.with_memory d1 s)
        end
    end.
Proof.
  intros Hload.
  destruct (load_ok s d Hload) as (s' & Hs' & Hm & Hd & Hw).
  assert (Config.delete_location loads dumps n s =
          Config.delete_location loads dumps n s') as ->.
  { unfold Config.delete_location, Config.get_default_location.
    now apply (get_first _ _ _ _ s d s'). }
  rewrite (delete_location_loaded s' d n Hm). cbv zeta.
  now rewrite !(with_memory_loaded _ s s' Hd Hw), Hw.
Qed.

(** X14: [delete_location] raises [ArgumentError] when no location was
    ever saved and [KeyError] when the name is not a saved location, and
    writes nothing then; otherwise it removes the location, and saves.  In
    every case the default location is dropped from the document in memory
    when it is the name given, also when the call then fails.  After a
    removal the name is no longer found. *)
Theorem delete_location_effect s d n :
  (load s).1 = inr d ->
  Config.delete_location loads dumps n s =
    match Config.locations d with
    | None =>
        (inl (Exc (ArgumentError "Specified section does not exist")),
         Config.with_memory (forget_default_location n d) s)
    | Some t =>
        match t !! n with
        | None =>
            (inl (Exc (KeyError n)), Config.with_memory (forget_default_location n d) s)
        | Some _ =>
            let d1 := forget_location n (forget_default_location n d) in
            if Config.writable s
            then (inr tt, Config.with_disk (dumps d1) (Config.with_memory d1 s))
            else (inl (Exc (OSError Config.config_file)), Config.with_memory d1 s)
        end
    end /\
  (forall l, Config.locations d ≫= (fun t => t !! n) = Some l ->
     (Config.get_named_location loads n (Config.delete_location loads dumps n s).2).1
       = inl (Exc (ArgumentError "Named location not found."))).
Proof.
  intros Hload. split; [exact (delete_location_result s d n Hload)|].
  rewrite (delete_location_result s d n Hload).
  intros l Hl. destruct (Config.locations d) as [t|] eqn:Ht; [|discriminate].
  cbn in Hl. rewrite Hl. cbv zeta.
  assert (Config.locations (forget_location n (forget_default_location n d))
          = Some (delete n t)) as Hloc.
  { unfold forget_location, forget_default_location.
    destruct (Config.general_table d) as [g|]; [destruct (bool_decide _)|];
      cbn [Config.attach Config.general_section Config.locations_section
           Config.locations]; rewrite Ht; reflexivity. }
  destruct (Config.writable s); cbn [snd];
    (erewrite get_named_location_loaded by reflexivity);
    rewrite Hloc; cbn; rewrite lookup_delete_eq; reflexivity.
Qed.

Lemma forget_default_kept n d :
  default_location_exists d -> default_location_exists (forget_default_location n d).
Proof.
  destruct d as [[g|] l t]; unfold forget_default_location, default_location_exists;
    cbn; [|tauto].
  destruct (bool_decide _); cbn; [discriminate | tauto].
Qed.

Lemma forget_location_kept n d :
  default_location_exists d ->
  default_location_exists (forget_location n (forget_default_location n d)).
Proof.
  destruct d as [[g|] [l|] t];
    unfold forget_location, forget_default_location, default_location_exists; cbn;
    try (intros _ m; discriminate).
  - destruct (bool_decide_reflect (Config.default_location g = Some n)) as [Hdef|Hdef];
      cbn; [discriminate|].
    intros Hinv m Hm. rewrite lookup_delete_ne by congruence. auto.
  - destruct (bool_decide _); cbn; [discriminate | tauto].
Qed.

(** X15: the default location of the document in memory, when there is
    one, names a saved location, and [delete_location] and
    [save_named_location] keep it so, whether they succeed or fail;
    [set_default_location] checks nothing: after it the default names a
    saved location exactly when the name given happens to be one. *)
Theorem default_location_kept s d :
  (load s).1 = inr d -> default_location_exists d ->
  (forall n d1,
     Config.memory (Config.delete_location loads dumps n s).2 = Some d1 ->
     default_location_exists d1) /\
  (forall n latitude longitude d1,
     Config.memory (Config.save_named_location loads dumps n latitude longitude s).2
       = Some d1 ->
     default_location_exists d1) /\
  (forall n d1,
     Config.memory (Config.set_default_location loads dumps n s).2 = Some d1 ->
     (default_location_exists d1 <-> is_Some (Config.locations d ≫= fun t => t !! n))).
Proof.
  intros Hload Hinv. split; [|split].
  - intros n d1. rewrite (delete_location_result s d n Hload).
    pose proof (forget_default_kept n d Hinv) as Hinv1.
    pose proof (forget_location_kept n d Hinv) as Hinv2.
    destruct (Config.locations d) as [t|].
    + destruct (t !! n).
      * cbv zeta. destruct (Config.writable s); cbn; intros [= <-]; exact Hinv2.
      * cbn. intros [= <-]. exact Hinv1.
    + cbn. intros [= <-]. exact Hinv1.
  - intros n latitude longitude d1. unfold Config.save_named_location.
    rewrite (set_and_save _ _ _ s d Hload).
    destruct (Config.writable s); cbn; intros [= <-];
      unfold default_location_exists in *; cbn; intros m Hm;
      specialize (Hinv m Hm);
      (destruct (decide (m = n)) as [->|Hne];
       [rewrite lookup_insert_eq; eauto
       | rewrite lookup_insert_ne by congruence;
         destruct (Config.locations d); cbn in *; [exact Hinv | destruct Hinv; discriminate]]).
  - intros n d1. unfold Config.set_default_location.
    rewrite (set_and_save _ _ _ s d Hload).
    destruct (Config.writable s); cbn; intros [= <-];
      unfold default_location_exists; cbn;
      (split; [intros H; apply (H n); reflexivity | intros H m [= <-]; exact H]).
Qed.

(** X16: [set_units] takes one of [standard], [metric] and [imperial],
    which [get_units] then returns; for any other value it raises
    [ValueError] before the configuration is even loaded, and changes
    nothing. *)
Theorem set_units_validates s value :
  (value ∉ Config.valid_units ->
   Config.set_units loads dumps value s = (inl (ValueError "Invalid units"), s)) /\
  (forall d, value ∈ Config.valid_units -> (load s).1 = inr d ->
   (Config.get_units loads (Config.set_units loads dumps value s).2).1 = inr value) /\
  (value ∈ Config.valid_units <->
   value = "standard" \/ value = "metric" \/ value = "imperial").
Proof.
  split; [|split].
  - intros H. unfold Config.set_units. now rewrite bool_decide_eq_false_2.
  - intros d H Hload. unfold Config.set_units. rewrite bool_decide_eq_true_2 by exact H.
    rewrite (set_and_save _ _ _ s d Hload).
    destruct (Config.writable s); cbn [snd]; unfold Config.get_units, st_bind;
      (erewrite get_loaded by reflexivity); reflexivity.
  - unfold Config.valid_units. rewrite !elem_of_cons, elem_of_nil. tauto.
Qed.

(** X17: with no configuration file to read, the cache lasts 30 minutes,
    the units are metric, there is no API key, no default and no named
    location or template; reading the settings creates no file. *)
Theorem settings_defaults s :
  Config.memory s = None -> Config.disk s = None ->
  let s1 := Config.with_memory Config.empty s in
  Config.get_cache_duration loads s = (inr 30, s1) /\
  Config.get_units loads s = (inr "metric", s1) /\
  Config.get_api_key loads s = (inr None, s1) /\
  Config.get_default_location loads s = (inr None, s1) /\
  Config.get_default_template loads s = (inr None, s1) /\
  (forall n, Config.get_template loads n s = (inr None, s1)) /\
  (forall n, Config.get_named_location loads n s =
             (inl (Exc (ArgumentError "Named location not found.")), s1)) /\
  Config.disk s1 = None.
Proof.
  intros Hm Hd s1.
  assert (load s = (inr Config.empty, s1)) as Hload.
  { unfold Config._load_config. now rewrite Hm, Hd. }
  unfold Config.get_cache_duration, Config.get_units, Config.get_api_key,
    Config.get_default_location, Config.get_default_template, Config.get_template,
    Config.get_named_location, Config._get_config_variable, st_bind.
  rewrite Hload. cbn. repeat split; exact Hd.
Qed.

Lemma load_fails s text e :
  Config.memory s = None -> Config.disk s = Some text -> loads text = inl e ->
  load s = (inl e, s).
Proof. intros Hm Hd He. unfold Config._load_config. now rewrite Hm, Hd, He. Qed.

(** X18: a configuration file that does not parse makes every reader and
    every writer of the settings raise the parser's error; the file is not
    overwritten, and the next call fails in the same way. *)
Theorem corrupt_configuration s text e :
  Config.memory s = None -> Config.disk s = Some text -> loads text = inl e ->
  Config.get_cache_duration loads s = (inl e, s) /\
  Config.get_units loads s = (inl e, s) /\
  Config.get_api_key loads s = (inl e, s) /\
  Config.get_default_location loads s = (inl e, s) /\
  Config.get_default_template loads s = (inl e, s) /\
  (forall n, Config.get_template loads n s = (inl e, s)) /\
  (forall n, Config.get_named_location loads n s = (inl e, s)) /\
  (forall v, Config.set_cache_duration loads dumps v s = (inl e, s)) /\
  (forall v, v ∈ Config.valid_units ->
             Config.set_units loads dumps v s = (inl e, s)) /\
  (forall v, Config.set_api_key loads dumps v s = (inl e, s)) /\
  (forall n, Config.set_default_location loads dumps n s = (inl e, s)) /\
  (forall n, Config.set_default_template loads dumps n s = (inl e, s)) /\
  (forall n la lo, Config.save_named_location loads dumps n la lo s = (inl e, s)) /\
  (forall n t, Config.save_template loads dumps n t s = (inl e, s)) /\
  (forall n, Config.delete_location loads dumps n s = (inl e, s)) /\
  (forall n, Config.delete_template loads dumps n s = (inl e, s)).
Proof.
  intros Hm Hd He. pose proof (load_fails s text e Hm Hd He) as Hload.
  unfold Config.get_cache_duration, Config.get_units, Config.get_api_key,
    Config.get_default_location, Config.get_default_template, Config.get_template,
    Config.get_named_location, Config.set_cache_duration, Config.set_units,
    Config.set_api_key, Config.set_default_location, Config.set_default_template,
    Config.save_named_location, Config.save_template, Config.delete_location,
    Config.delete_template, Config.get_default_location, Config.get_default_template,
    Config._get_config_variable, Config._set_config_variable, st_bind.
  rewrite Hload.
  repeat (split; [try reflexivity; intros; try reflexivity|]).
  - now rewrite bool_decide_eq_true_2, Hload.
  - reflexivity.
Qed.

(** X19: a setting that was set is the setting read for the rest of the
    process, whether or not the file could be written, and the other
    settings stay as they were; no value is refused: the cache duration may
    be zero or negative.  When the file could not be written the setter
    raises [OSError] and the file is as before. *)
Theorem settings_round_trip s d :
  (load s).1 = inr d ->
  (forall v,
     let s1 := (Config.set_cache_duration loads dumps v s).2 in
     Config.get_cache_duration loads s1 = (inr v, s1) /\
     Config.get_api_key loads s1 =
       (inr (Config.general_table d ≫= Config.api_key), s1) /\
     (Config.set_cache_duration loads dumps v s).1 =
       (if Config.writable s then inr tt else inl (Exc (OSError Config.config_file))) /\
     (Config.writable s = false -> Config.disk s1 = Config.disk s)) /\
  (forall v,
     let s1 := (Config.set_api_key loads dumps v s).2 in
     Config.get_api_key loads s1 = (inr (Some v), s1) /\
     Config.get_cache_duration loads s1 =
       (inr (default 30 (Config.general_table d ≫= Config.cache_duration)), s1) /\
     (Config.set_api_key loads dumps v s).1 =
       (if Config.writable s then inr tt else inl (Exc (OSError Config.config_file))) /\
     (Config.writable s = false -> Config.disk s1 = Config.disk s)).
Proof.
  intros Hload. split; intros v s1; subst s1;
    unfold Config.set_cache_duration, Config.set_api_key;
    rewrite (set_and_save _ _ _ s d Hload); clear Hload;
    unfold Config.get_cache_duration, Config.get_api_key, st_bind;
    destruct (Config.writable s); cbn [fst snd];
    (erewrite !get_loaded by reflexivity);
    destruct d as [[[a c u dl dt]|] l t]; cbn;
    try destruct a; try destruct c; repeat split; discriminate.
Qed.

End ConfigProperties.

Lemma save_then_get_location_witness :
  let d1 := {| Config.general_table := Config.general_table example_configuration;
               Config.locations :=
                 Some (<["work" := (Text "53.3", Text "-6.3")]>
                         {[ "home" := (Text "53.1", Text "-6.2") ]});
               Config.templates := None |} in
  let loads := example_toml_loads d1 in
  let s := {| Config.memory := Some example_configuration; Config.disk := Some "";
              Config.writable := true |} in
  let s1 := (Config.save_named_location loads example_toml_dumps "work"
               (Text "53.3") (Text "-6.3") s).2 in
  Config.get_named_location loads "work" s1 = (inr (Text "53.3", Text "-6.3"), s1) /\
  Config.get_named_location loads "home" s1 = (inr (Text "53.1", Text "-6.2"), s1) /\
  (Config.get_named_location loads "work" (restart s1)).1 = inr (Text "53.3", Text "-6.3").
Proof.
  intros d1 loads s s1.
  assert ((Config._load_config loads s).1 = inr example_configuration) as Hload
    by reflexivity.
  pose proof (save_then_get_location loads example_toml_dumps s example_configuration
                "work" (Text "53.3") (Text "-6.3") Hload) as H.
  cbv zeta in H. destruct H as (_ & _ & _ & Hget & Hother & Hnew).
  split; [exact Hget|]. split.
  - apply Hother; [discriminate | reflexivity].
  - apply Hnew; reflexivity.
Defined.

Lemma delete_location_effect_witness :
  let loads := example_toml_loads example_configuration in
  let s := example_store (Some "") false in
  (Config.delete_location loads example_toml_dumps "home" s).1
    = inl (Exc (OSError "config.toml")) /\
  Config.memory (Config.delete_location loads example_toml_dumps "home" s).2
    = Some {| Config.general_table :=
                Some {| Config.api_key := Some "0123456789abcdef";
                        Config.cache_duration := None; Config.units := None;
                        Config.default_location := None;
                        Config.default_template := None |};
              Config.locations := Some (delete "home" {[ "home" := (Text "53.1", Text "-6.2") ]});
              Config.templates := None |} /\
  (Config.delete_location loads example_toml_dumps "work" s).1 = inl (Exc (KeyError "work")).
Proof.
  intros loads s.
  assert ((Config._load_config loads s).1 = inr example_configuration) as Hload
    by reflexivity.
  rewrite (proj1 (delete_location_effect loads example_toml_dumps s example_configuration
                    "home" Hload)).
  rewrite (proj1 (delete_location_effect loads example_toml_dumps s example_configuration
                    "work" Hload)).
  split; [reflexivity|]. split; reflexivity.
Defined.

Lemma example_default_exists : default_location_exists example_configuration.
Proof. intros n [= <-]. vm_compute. eauto. Qed.

Lemma default_location_kept_witness :
  default_location_exists
    (forget_location "home" (forget_default_location "home" example_configuration)) /\
  ~ default_location_exists
      {| Config.general_table :=
           Some {| Config.api_key := Some "0123456789abcdef";
                   Config.cache_duration := None; Config.units := None;
                   Config.default_location := Some "work";
                   Config.default_template := None |};
         Config.locations := Some {[ "home" := (Text "53.1", Text "-6.2") ]};
         Config.templates := None |}.
Proof.
  pose (loads := example_toml_loads example_configuration).
  pose (s := example_store (Some "") true).
  assert ((Config._load_config loads s).1 = inr example_configuration) as Hload
    by reflexivity.
  destruct (default_location_kept loads example_toml_dumps s example_configuration
              Hload example_default_exists) as (Hdelete & _ & Hset).
  split.
  - apply (Hdelete "home"). reflexivity.
  - intros H. apply (Hset "work") in H; [|reflexivity].
    destruct H as [l Hl]. vm_compute in Hl. discriminate.
Defined.

Lemma set_units_validates_witness :
  let loads := example_toml_loads example_configuration in
  let s := example_store (Some "") true in
  Config.set_units loads example_toml_dumps "kelvin" s
    = (inl (ValueError "Invalid units"), s) /\
  (Config.get_units loads (Config.set_units loads example_toml_dumps "imperial" s).2).1
    = inr "imperial".
Proof.
  intros loads s.
  destruct (set_units_validates loads example_toml_dumps s "kelvin") as (Hbad & _ & _).
  destruct (set_units_validates loads example_toml_dumps s "imperial") as (_ & Hgood & _).
  split.
  - apply Hbad. intros H. apply list_elem_of_In in H. cbn in H.
    intuition discriminate.
  - apply (Hgood example_configuration); [|reflexivity].
    apply list_elem_of_In. cbn. tauto.
Defined.

Lemma settings_defaults_witness :
  let loads := example_toml_loads example_configuration in
  (Config.get_cache_duration loads (example_store None true)).1 = inr 30 /\
  (Config.get_units loads (example_store None true)).1 = inr "metric".
Proof.
  intros loads.
  destruct (settings_defaults loads (example_store None true) eq_refl eq_refl)
    as (Hcache & Hunits & _).
  rewrite Hcache, Hunits. split; reflexivity.
Defined.

Lemma corrupt_configuration_witness :
  let loads := example_toml_loads example_configuration in
  let s := example_store (Some "[") true in
  Config.get_api_key loads s = (inl (ValueError "Unexpected end of file"), s) /\
  Config.set_api_key loads example_toml_dumps "0123456789abcdef" s
    = (inl (ValueError "Unexpected end of file"), s).
Proof.
  intros loads s.
  destruct (corrupt_configuration loads example_toml_dumps s "["
              (ValueError "Unexpected end of file") eq_refl eq_refl eq_refl)
    as (_ & _ & Hget & _ & _ & _ & _ & _ & _ & Hset & _).
  split; [exact Hget | apply Hset].
Defined.

Lemma settings_round_trip_witness :
  let loads := example_toml_loads example_configuration in
  let s := example_store (Some "") false in
  (Config.get_cache_duration loads
     (Config.set_cache_duration loads example_toml_dumps (-5) s).2).1 = inr (-5) /\
  (Config.set_cache_duration loads example_toml_dumps (-5) s).1
    = inl (Exc (OSError "config.toml")).
Proof.
  intros loads s.
  assert ((Config._load_config loads s).1 = inr example_configuration) as Hload
    by reflexivity.
  destruct (settings_round_trip loads example_toml_dumps s example_configuration Hload)
    as (Hcache & _).
  destruct (Hcache (-5)) as (Hget & _ & Hset & _).
  split; [now rewrite Hget | exact Hset].
Defined.
(** ** The commands *)

Section CommandProperties.

Variable loads : string -> outcome Config.toml.
Variable dumps : Config.toml -> string.
Variable sha1_hexdigest : string -> string.
Variable json_loads : string -> result document.
Variable json_dumps : document -> string.
Variable geocode : string -> geocoded.
Variable str_float : spec_float -> string.

Local Abbreviation command :=
  (fetch loads sha1_hexdigest json_loads json_dumps geocode str_float).
Local Abbreviation weather_of :=
  (get_weather sha1_hexdigest json_loads json_dumps).

Lemma load_state s d :
  (Config._load_config loads s).1 = inr d ->
  Config._load_config loads s = (inr d, Config.with_memory d s).
Proof.
  intros H. destruct (load_ok loads s d H) as (s' & -> & Hm & Hd & Hw).
  f_equal. destruct s'. cbn in *. unfold Config.with_memory. now subst.
Qed.

Lemma loaded_loads d a : (Config._load_config loads (conf (loaded d a))).1 = inr d.
Proof. reflexivity. Qed.

Lemma configured_load a d :
  (Config._load_config loads (conf a)).1 = inr d ->
  configured (Config._load_config loads) a = (inr d, loaded d a).
Proof. intros H. unfold configured. now rewrite (load_state _ _ H). Qed.

Lemma configured_get {T V} (sec : Config.section T) (k : Config.key T V) dflt a d :
  (Config._load_config loads (conf a)).1 = inr d ->
  configured (Config._get_config_variable loads sec k dflt) a =
  (inr match Config.table sec d with
       | None => dflt
       | Some t => match Config.read k t with Some v => Some v | None => dflt end
       end, loaded d a).
Proof.
  intros H. unfold configured, Config._get_config_variable, st_bind.
  rewrite (load_state _ _ H). now destruct (Config.table sec d).
Qed.

Lemma configured_named_location a d n :
  (Config._load_config loads (conf a)).1 = inr d ->
  configured (Config.get_named_location loads n) a =
  (match Config.locations d ≫= (fun t => t !! n) with
   | Some l => inr l
   | None => inl (Exc (ArgumentError "Named location not found."))
   end, loaded d a).
Proof.
  intros H. unfold configured.
  destruct (load_ok loads _ _ H) as (s' & Hs' & Hm & Hd & Hw).
  unfold Config.get_named_location.
  rewrite (get_first loads _ _ _ _ _ _ _ Hs' Hm).
  fold (Config.get_named_location loads n).
  rewrite (get_named_location_loaded loads s' d n Hm).
  assert (s' = Config.with_memory d (conf a)) as ->.
  { destruct s'. cbn in *. unfold Config.with_memory. now subst. }
  destruct (Config.locations d ≫= _); reflexivity.
Qed.

Lemma configured_default_location a d :
  (Config._load_config loads (conf a)).1 = inr d ->
  configured (Config.get_default_location loads) a =
  (inr (Config.general_table d ≫= Config.default_location), loaded d a).
Proof.
  intros H. unfold Config.get_default_location. rewrite (configured_get _ _ _ a d H).
  cbn. destruct (Config.general_table d) as [g|]; cbn; [|reflexivity].
  now destruct (Config.default_location g).
Qed.

Lemma configured_api_key a d :
  (Config._load_config loads (conf a)).1 = inr d ->
  configured (Config.get_api_key loads) a =
  (inr (Config.general_table d ≫= Config.api_key), loaded d a).
Proof.
  intros H. unfold Config.get_api_key. rewrite (configured_get _ _ _ a d H).
  cbn. destruct (Config.general_table d) as [g|]; cbn; [|reflexivity].
  now destruct (Config.api_key g).
Qed.

(** The settings the service and the templates are given are the ones the
    functions of [_config.py] return once the document is in memory. *)
Lemma settings_of_reads s d directory n :
  Config.memory s = Some d ->
  Config.get_api_key loads s = (inr (get_api_key (settings_of d directory)), s) /\
  Config.get_cache_duration loads s =
    (inr (get_cache_duration (settings_of d directory)), s) /\
  Config.get_default_template loads s =
    (inr (get_default_template (settings_of d directory)), s) /\
  Config.get_template loads n s = (inr (get_template (settings_of d directory) n), s).
Proof.
  intros Hm.
  unfold Config.get_api_key, Config.get_cache_duration, Config.get_default_template,
    Config.get_template, st_bind.
  rewrite !(get_loaded loads _ _ _ s d Hm).
  unfold get_api_key, get_cache_duration, get_default_template, get_template, settings_of.
  destruct d as [[[a c u dl dt]|] l [t|]]; cbn;
    try destruct a; try destruct c; try destruct dt;
    try destruct (t !! n) eqn:Hn; cbn; rewrite ?Hn; try rewrite lookup_empty;
    repeat split; reflexivity.
Qed.

Ltac run_command Hload :=
  repeat
    first
      [ progress
          cbv beta iota zeta delta
            [and_next st_bind try_except returns goes_on run st_ret st_raise echo body locate
             fst snd is_ArgumentError is_ValueError is_IOError is_API_error given
             _location_partially_specified orb andb negb fmap option_fmap option_map]
      | rewrite (configured_named_location _ _ _ Hload)
      | rewrite (configured_named_location (loaded _ _) _ _ (loaded_loads _ _))
      | rewrite (configured_default_location _ _ Hload)
      | rewrite (configured_default_location (loaded _ _) _ (loaded_loads _ _))
      | rewrite (configured_api_key _ _ Hload)
      | rewrite (configured_api_key (loaded _ _) _ (loaded_loads _ _))
      | match goal with
        | |- context [match ?x with _ => _ end] => is_var x; destruct x
        | |- context [geocode ?x] => destruct (geocode x)
        | |- context [match ?o ≫= ?f with _ => _ end] => destruct (o ≫= f) eqn:?
        end ].



Lemma served_loaded {A} (m : M A) a d :
  (Config._load_config loads (conf a)).1 = inr d ->
  served loads m a =
  (match (m (with_settings (settings_of d (cache_directory (settings (env a)))) (env a))).1 with
   | inl e => inl (Exc e)
   | inr x => inr x
   end,
   with_env (m (with_settings (settings_of d (cache_directory (settings (env a)))) (env a))).2
     (loaded d a)).
Proof.
  intros H. unfold served, st_bind. rewrite (configured_load a d H).
  change (env (loaded d a)) with (env a).
  now destruct (m _) as [r w].
Qed.

Lemma templated_loaded weather template a d :
  (Config._load_config loads (conf a)).1 = inr d ->
  templated loads weather template a =
  (match _apply_template (settings_of d (cache_directory (settings (env a))))
           weather template with
   | inl e => inl (Exc e)
   | inr x => inr x
   end, loaded d a).
Proof.
  intros H. unfold templated, st_bind. now rewrite (configured_load a d H).
Qed.

(** The templates are read from the settings alone. *)
Lemma apply_template_directory d weather template dir1 dir2 :
  _apply_template (settings_of d dir1) weather template =
  _apply_template (settings_of d dir2) weather template.
Proof. reflexivity. Qed.

Ltac served_step Hload :=
  first [ rewrite (served_loaded _ _ _ Hload)
        | rewrite (served_loaded _ (loaded _ _) _ (loaded_loads _ _)) ];
  repeat match goal with
         | |- context [env (loaded ?d ?x)] => change (env (loaded d x)) with (env x)
         end.

(** X22: with coordinates and an API key, when the service returns a report
    and the template exists, [fetch] returns 0 and its one output is the
    rendered template: echoed when no output file is asked for, written to
    the file otherwise, with nothing echoed.  When the file cannot be
    written it returns 1 with a message; what the service did, the cache
    entry it wrote included, stays. *)
Theorem fetch_reports latitude longitude template units out a d key r w1 text :
  (Config._load_config loads (conf a)).1 = inr d ->
  Config.general_table d ≫= Config.api_key = Some key ->
  let c := settings_of d (cache_directory (settings (env a))) in
  weather_of (Some latitude) (Some longitude) units (with_settings c (env a)) = (ok r, w1) ->
  _apply_template c r template = ok text ->
  command (Some longitude) (Some latitude) None None template units out a =
  match out with
  | None => (inr 0, said [text] (with_env w1 (loaded d a)))
  | Some path =>
      if can_write w1 path
      then (inr 0,
            with_env (with_files (<[path := {| st_mtime := now w1; content := text |}]>
                                    (files w1)) w1) (loaded d a))
      else (inr 1, said ["Failed to write output file."] (with_env w1 (loaded d a)))
  end.
Proof.
  intros Hload Hkey c Hw Ht. unfold fetch.
  run_command Hload; try congruence.
  all: served_step Hload; cbn [str_coordinate]; fold c; rewrite Hw;
    run_command Hload;
    rewrite (templated_loaded _ _ (with_env _ (loaded _ _)) d eq_refl);
    rewrite (apply_template_directory d r template _ (cache_directory (settings (env a))));
    fold c; rewrite Ht; run_command Hload; unfold _output, echo;
    cbn [env loaded with_env with_conf conf echoed];
    try destruct (can_write w1 _); reflexivity.
Qed.

Lemma apply_template_raises c weather template e :
  _apply_template c weather template = throw e ->
  e = ArgumentError "Specified template does not exist.".
Proof.
  unfold _apply_template.
  destruct template as [n|]; [|destruct (get_default_template c) as [n|]];
    try destruct (get_template c n); cbn; congruence.
Qed.


(** On a miss the service makes its one request, whatever comes of it. *)
Lemma get_weather_miss_requests latitude longitude units w :
  (_get_cached sha1_hexdigest json_loads latitude longitude units w).1 = ok Null ->
  requests (weather_of latitude longitude units w).2 =
    (requests w ++ [request_url latitude longitude (get_api_key (settings w)) units])%list.
Proof.
  intros Hmiss. rewrite (get_weather_miss _ _ _ _ _ _ _ Hmiss), get_fresh_unfold.
  destruct (network w _ _) as [status body|detail]; [|reflexivity].
  destruct (negb _); [reflexivity|].
  destruct (json_loads body) as [e|data']; [reflexivity|].
  destruct (can_write w _); [|reflexivity].
  destruct (is_null data'); reflexivity.
Qed.

(** X24: with no option that gives a place and no default location,
    [fetch] asks the service for the place [None], [None]: an exception of
    the service that is no [APIError] leaves [fetch], and on a miss of the
    cache the request goes to [lat=None&lon=None]. *)
Theorem fetch_without_location template units out a d key :
  (Config._load_config loads (conf a)).1 = inr d ->
  Config.general_table d ≫= Config.api_key = Some key ->
  Config.general_table d ≫= Config.default_location = None ->
  let c := settings_of d (cache_directory (settings (env a))) in
  let w0 := with_settings c (env a) in
  let result := command None None None None template units out a in
  (forall e w1, weather_of None None units w0 = (throw e, w1) -> is_APIError e = false ->
     result = (inl (Exc e), with_env w1 (loaded d a))) /\
  ((_get_cached sha1_hexdigest json_loads None None units w0).1 = ok Null ->
   requests (env result.2) =
     (requests (env a) ++
      ["https://api.openweathermap.org/data/2.5/weather?lat=None&lon=None&appid="
       +:+ key +:+ "&units=" +:+ units])%list).
Proof.
  intros Hload Hkey Hdefault c w0 result. subst result.
  assert (request_url None None (Some key) units =
          "https://api.openweathermap.org/data/2.5/weather?lat=None&lon=None&appid="
          +:+ key +:+ "&units=" +:+ units) as Hurl.
  { unfold request_url, str_option. cbn [default].
    rewrite !append_cons, !append_nil_l. reflexivity. }
  split.
  - intros e w1 Hw He. unfold fetch. run_command Hload; try congruence.
    served_step Hload. fold c. fold w0. rewrite Hw.
    run_command Hload. rewrite He. reflexivity.
  - intros Hmiss. rewrite <- Hurl.
    pose proof (get_weather_miss_requests None None units w0 Hmiss) as Hreq.
    change (get_api_key (settings w0)) with (Config.general_table d ≫= Config.api_key)
      in Hreq.
    rewrite Hkey in Hreq. change (requests w0) with (requests (env a)) in Hreq.
    rewrite <- Hreq. clear Hreq Hurl.
    unfold fetch. run_command Hload; try congruence.
    all: served_step Hload; fold c; fold w0;
      destruct (weather_of None None units w0) as [[e|r] w1];
      run_command Hload.
    + destruct (is_APIError e); run_command Hload; reflexivity.
    + rewrite (templated_loaded _ _ (with_env _ (loaded _ _)) d eq_refl).
      destruct (_apply_template _ r template) as [e|text] eqn:Ht.
      * apply apply_template_raises in Ht as ->. run_command Hload. reflexivity.
      * run_command Hload. unfold _output, echo.
        destruct out as [path|]; cbn [env loaded with_env with_conf conf echoed];
          try destruct (can_write w1 path); reflexivity.
Qed.

(** X25: the command [set-default-location] accepts a name that is no
    saved location, and says so little; in the next process a [fetch]
    without a place then ends with the message that the default location no
    longer exists, and the code 1. *)
Theorem fetch_dangling_default n template units out a d :
  (Config._load_config loads (conf a)).1 = inr d ->
  Config.locations d ≫= (fun t => t !! n) = None ->
  Config.writable (conf a) = true ->
  let d1 := Config.attach Config.general_section
              (Config.write Config.default_location_key (Some n)
                 (default Config.no_settings (Config.general_table d))) d in
  let a1 := (set_default_location loads dumps n a).2 in
  loads (dumps d1) = inr d1 ->
  (set_default_location loads dumps n a).1 = inr tt /\
  echoed a1 = (echoed a ++ ["Default location set."])%list /\
  Config.disk (conf a1) = Some (dumps d1) /\
  (forall a', conf a' = restart (conf a1) ->
     command None None None None template units out a' =
     (inr 1, said ["The default location no longer exists."] (loaded d1 a'))).
Proof.
  intros Hload Hn Hw d1 a1 Hrt. subst a1.
  unfold set_default_location, st_bind, configured, Config.set_default_location.
  rewrite (set_and_save loads dumps _ _ _ (conf a) d Hload). rewrite Hw.
  cbn [fst snd echo with_conf conf env echoed Config.fresh Config.table
       Config.general_section].
  fold d1. split; [reflexivity|]. split; [reflexivity|]. split; [reflexivity|].
  intros a' Ha'.
  assert ((Config._load_config loads (conf a')).1 = inr d1) as Hload1.
  { rewrite Ha'. unfold restart, Config._load_config.
    cbn [Config.memory Config.disk]. now rewrite Hrt. }
  assert (Config.general_table d1 ≫= Config.default_location = Some n) as Hdefault
    by reflexivity.
  assert (Config.locations d1 ≫= (fun t => t !! n) = None) as Hn1 by exact Hn.
  unfold fetch. run_command Hload1; try congruence; try reflexivity;
    exfalso; injection Hdefault as ->; congruence.
Qed.

Lemma settings_of_agree d d1 directory :
  Config.general_table d1 ≫= Config.api_key = Config.general_table d ≫= Config.api_key ->
  Config.general_table d1 ≫= Config.cache_duration =
    Config.general_table d ≫= Config.cache_duration ->
  Config.general_table d1 ≫= Config.default_template =
    Config.general_table d ≫= Config.default_template ->
  Config.templates d1 = Config.templates d ->
  settings_of d1 directory = settings_of d directory.
Proof. unfold settings_of. now intros -> -> -> ->. Qed.

(** [fetch] reads the API key, the cache duration, the defaults, the
    locations and the templates of the configuration, and nothing else. *)
Lemma fetch_depends_on
    longitude latitude address location template units out a a' d d1 :
  (Config._load_config loads (conf a)).1 = inr d ->
  (Config._load_config loads (conf a')).1 = inr d1 ->
  Config.general_table d1 ≫= Config.api_key = Config.general_table d ≫= Config.api_key ->
  Config.general_table d1 ≫= Config.cache_duration =
    Config.general_table d ≫= Config.cache_duration ->
  Config.general_table d1 ≫= Config.default_location =
    Config.general_table d ≫= Config.default_location ->
  Config.general_table d1 ≫= Config.default_template =
    Config.general_table d ≫= Config.default_template ->
  Config.locations d1 = Config.locations d ->
  Config.templates d1 = Config.templates d ->
  env a' = env a -> echoed a' = echoed a ->
  let r := command longitude latitude address location template units out a in
  let r' := command longitude latitude address location template units out a' in
  r'.1 = r.1 /\ env r'.2 = env r.2 /\ echoed r'.2 = echoed r.2.
Proof.
  intros Hload Hload' Hkey Hcache Hdefault Htemplate Hlocations Htemplates Henv Hechoed
    r r'.
  subst r r'.
  assert (forall directory, settings_of d1 directory = settings_of d directory)
    as Hsettings
    by (intros directory; exact (settings_of_agree d d1 directory
                                   Hkey Hcache Htemplate Htemplates)).
  unfold fetch.
  repeat
    first
      [ progress
          cbv beta iota zeta delta
            [and_next st_bind try_except returns goes_on run st_ret st_raise echo body locate
             fst snd is_ArgumentError is_ValueError is_IOError is_API_error given
             _location_partially_specified orb andb negb fmap option_fmap option_map]
      | rewrite (configured_named_location _ _ _ Hload)
      | rewrite (configured_named_location _ _ _ Hload')
      | rewrite (configured_named_location (loaded _ _) _ _ (loaded_loads _ _))
      | rewrite (configured_default_location _ _ Hload)
      | rewrite (configured_default_location _ _ Hload')
      | rewrite (configured_default_location (loaded _ _) _ (loaded_loads _ _))
      | rewrite (configured_api_key _ _ Hload)
      | rewrite (configured_api_key _ _ Hload')
      | rewrite (configured_api_key (loaded _ _) _ (loaded_loads _ _))
      | rewrite Hkey
      | rewrite Hdefault
      | rewrite Hlocations
      | match goal with
        | |- context [match ?x with _ => _ end] => is_var x; destruct x
        | |- context [geocode ?x] => destruct (geocode x)
        | |- context [match ?o ≫= ?f with _ => _ end] => destruct (o ≫= f) eqn:?
        end ];
    try (cbn [env echoed conf loaded with_env with_conf fst snd];
         rewrite ?Henv, ?Hechoed; repeat split; reflexivity).
  all: rewrite (served_loaded _ (loaded d1 _) d1 (loaded_loads _ _)),
         (served_loaded _ (loaded d _) d (loaded_loads _ _));
    cbn [env loaded with_conf]; rewrite Henv, Hsettings;
    match goal with
    | |- context [get_weather ?h ?l ?p ?x ?y ?u ?w] =>
        destruct (get_weather h l p x y u w) as [[e|r] w1]
    end;
    cbv beta iota zeta delta
      [and_next st_bind try_except returns goes_on run st_ret st_raise echo body
       fst snd is_ArgumentError is_IOError is_API_error].
  all: try (destruct (is_APIError e);
            cbn [env echoed conf loaded with_env with_conf fst snd];
            rewrite ?Henv, ?Hechoed; repeat split; reflexivity).
  all: rewrite (templated_loaded _ _ (with_env _ (loaded d1 _)) d1 eq_refl),
         (templated_loaded _ _ (with_env _ (loaded d _)) d eq_refl);
    cbn [env with_env]; rewrite Hsettings;
    destruct (_apply_template _ r template) as [e|text] eqn:Ht;
    [ apply apply_template_raises in Ht as -> | ];
    cbv beta iota zeta delta
      [and_next st_bind try_except returns goes_on run st_ret st_raise echo body
       fst snd is_ArgumentError is_IOError is_API_error];
    unfold _output, echo; try destruct out as [path|];
    cbn [env echoed conf loaded with_env with_conf fst snd];
    try destruct (can_write w1 path);
    cbn [env echoed conf loaded with_env with_conf fst snd];
    rewrite ?Henv, ?Hechoed; repeat split; reflexivity.
Qed.

(** X26: the units that the command [set-units] stores are read back by
    [get_units] in the next process, and by nothing [fetch] does: a [fetch]
    in that process returns, echoes and does to the world what it would
    have without the change; its units are those of its option alone. *)
Theorem set_units_no_effect_on_fetch
    value longitude latitude address location template units out a a' d :
  (Config._load_config loads (conf a)).1 = inr d ->
  value ∈ Config.valid_units ->
  Config.writable (conf a) = true ->
  let d1 := Config.attach Config.general_section
              (Config.write Config.units_key (Some value)
                 (default Config.no_settings (Config.general_table d))) d in
  let a1 := (set_units loads dumps value a).2 in
  loads (dumps d1) = inr d1 ->
  conf a' = restart (conf a1) -> env a' = env a -> echoed a' = echoed a ->
  let r := command longitude latitude address location template units out a in
  let r' := command longitude latitude address location template units out a' in
  ((set_units loads dumps value a).1 = inr tt /\
   echoed a1 = (echoed a ++ ["Default units set."])%list /\
   (Config.get_units loads (conf a')).1 = inr value) /\
  r'.1 = r.1 /\ env r'.2 = env r.2 /\ echoed r'.2 = echoed r.2.
Proof.
  intros Hload Hvalue Hw d1 a1 Hrt Hconf Henv Hechoed r r'. subst a1 r r'.
  revert Hconf.
  unfold set_units, st_bind, configured, Config.set_units.
  rewrite (bool_decide_eq_false_2 (value ∉ Config.valid_units)) by tauto.
  rewrite (bool_decide_eq_true_2 _ Hvalue).
  rewrite (set_and_save loads dumps _ _ _ (conf a) d Hload). rewrite Hw.
  cbn [fst snd echo with_conf conf env echoed Config.fresh Config.table
       Config.general_section].
  fold d1. intros Hconf.
  assert ((Config._load_config loads (conf a')).1 = inr d1) as Hload1.
  { rewrite Hconf. unfold restart, Config._load_config.
    cbn [Config.memory Config.disk]. now rewrite Hrt. }
  split.
  - split; [reflexivity|]. split; [reflexivity|].
    unfold Config.get_units, st_bind.
    destruct (load_ok loads _ _ Hload1) as (s' & Hs' & Hm & _).
    unfold Config._get_config_variable, st_bind. rewrite Hs'. reflexivity.
  - apply (fetch_depends_on longitude latitude address location template units out
             a a' d d1 Hload Hload1); try assumption; try reflexivity;
      subst d1; cbn; destruct (Config.general_table d); reflexivity.
Qed.

(** X27: the command [delete-location] says that the location was not
    found when no location has the name, and writes nothing; it removes
    a saved location, writes the file and says so; and when the file cannot
    be written the [OSError] leaves the command with nothing echoed.  It
    never touches the world of the service. *)
Theorem delete_location_command name a d :
  (Config._load_config loads (conf a)).1 = inr d ->
  let r := delete_location loads dumps name a in
  match Config.locations d ≫= (fun t => t !! name) with
  | None =>
      r.1 = inr tt /\ echoed r.2 = (echoed a ++ ["Location not found."])%list /\
      Config.disk (conf r.2) = Config.disk (conf a)
  | Some _ =>
      if Config.writable (conf a)
      then r.1 = inr tt /\ echoed r.2 = (echoed a ++ ["Location deleted."])%list /\
           Config.disk (conf r.2) =
             Some (dumps (forget_location name (forget_default_location name d)))
      else r.1 = inl (Exc (OSError Config.config_file)) /\ echoed r.2 = echoed a /\
           Config.disk (conf r.2) = Config.disk (conf a)
  end /\
  env r.2 = env a.
Proof.
  intros Hload r. subst r.
  unfold delete_location, body, and_next, try_except, run, st_bind, configured.
  rewrite (delete_location_result loads dumps (conf a) d name Hload).
  destruct (Config.locations d) as [t|]; cbn [mbind option_bind];
    [destruct (t !! name); [cbv zeta; destruct (Config.writable (conf a))|]|];
    cbn; repeat split; reflexivity.
Qed.

End CommandProperties.



Lemma fetch_reports_witness :
  let a := example_app (Some "") true
             (example_world 1700000000000000 (example_entry 1700000000000000 0)
                true true (NoResponse "unreachable")) in
  let r := fetch (example_toml_loads example_configuration) example_digest example_loads
             example_dumps example_geocode example_str_float
             (Some "-6.2") (Some "53.1") None None None "metric" None a in
  r.1 = inr 0 /\ echoed r.2 = ["21.0"].
Proof.
  intros a r. subst r.
  pose (c := settings_of example_configuration (cache_directory (settings (env a)))).
  eassert (get_weather example_digest example_loads example_dumps
             (Some "53.1") (Some "-6.2") "metric" (with_settings c (env a))
           = (ok _, _)) as Hw by (vm_compute; reflexivity).
  match type of Hw with
  | _ = (ok ?r, _) =>
      eassert (_apply_template c r None = ok _) as Ht by (vm_compute; reflexivity)
  end.
  pose proof (fetch_reports (example_toml_loads example_configuration) example_digest
             example_loads example_dumps example_geocode example_str_float
             "53.1" "-6.2" None "metric" None a example_configuration
             "0123456789abcdef" _ _ _ eq_refl eq_refl Hw Ht) as H.
  cbv beta iota in H.
  split.
  - exact (f_equal fst H).
  - exact (f_equal (fun x => echoed x.2) H).
Defined.


Lemma fetch_without_location_witness :
  let a := example_app (Some "") true
             (example_world 1700000000000000 ∅ true true (NoResponse "unreachable")) in
  requests (env (fetch (example_toml_loads example_keyed) example_digest example_loads
                   example_dumps example_geocode example_str_float
                   None None None None None "metric" None a).2)
  = [ "https://api.openweathermap.org/data/2.5/weather?lat=None&lon=None&appid=0123456789abcdef&units=metric" ].
Proof.
  intros a.
  apply (proj2 (fetch_without_location (example_toml_loads example_keyed) example_digest
                  example_loads example_dumps example_geocode example_str_float
                  None "metric" None a example_keyed "0123456789abcdef"
                  eq_refl eq_refl eq_refl)).
  vm_compute. reflexivity.
Defined.

Lemma fetch_dangling_default_witness :
  let d1 := {| Config.general_table :=
                 Some {| Config.api_key := Some "0123456789abcdef";
                         Config.cache_duration := None; Config.units := None;
                         Config.default_location := Some "work";
                         Config.default_template := None |};
               Config.locations := Some {[ "home" := (Text "53.1", Text "-6.2") ]};
               Config.templates := None |} in
  let loads := example_toml_loads d1 in
  let w := example_world 1700000000000000 ∅ true true (NoResponse "unreachable") in
  let a := {| conf := {| Config.memory := Some example_configuration;
                         Config.disk := Some ""; Config.writable := true |};
              env := w; echoed := [] |} in
  let a' := {| conf := restart (conf (set_default_location loads example_toml_dumps
                                        "work" a).2);
               env := w; echoed := [] |} in
  fetch loads example_digest example_loads example_dumps example_geocode
    example_str_float None None None None None "metric" None a'
  = (inr 1, said ["The default location no longer exists."] (loaded d1 a')).
Proof.
  intros d1 loads w a a'.
  destruct (fetch_dangling_default loads example_toml_dumps example_digest example_loads
              example_dumps example_geocode example_str_float
              "work" None "metric" None a example_configuration)
    as (_ & _ & _ & H).
  - reflexivity.
  - vm_compute. reflexivity.
  - reflexivity.
  - reflexivity.
  - apply (H a'). reflexivity.
Defined.

Lemma set_units_no_effect_on_fetch_witness :
  let d1 := {| Config.general_table :=
                 Some {| Config.api_key := Some "0123456789abcdef";
                         Config.cache_duration := None; Config.units := Some "imperial";
                         Config.default_location := Some "home";
                         Config.default_template := None |};
               Config.locations := Some {[ "home" := (Text "53.1", Text "-6.2") ]};
               Config.templates := None |} in
  let loads := example_toml_loads d1 in
  let w := example_world 1700000000000000 (example_entry 1700000000000000 0)
             true true (NoResponse "unreachable") in
  let a := {| conf := {| Config.memory := Some example_configuration;
                         Config.disk := Some ""; Config.writable := true |};
              env := w; echoed := [] |} in
  let a' := {| conf := restart (conf (set_units loads example_toml_dumps "imperial" a).2);
               env := w; echoed := [] |} in
  (Config.get_units loads (conf a')).1 = inr "imperial" /\
  echoed (fetch loads example_digest example_loads example_dumps example_geocode
            example_str_float None None None None None "metric" None a').2
  = echoed (fetch loads example_digest example_loads example_dumps example_geocode
              example_str_float None None None None None "metric" None a).2.
Proof.
  intros d1 loads w a a'.
  destruct (set_units_no_effect_on_fetch loads example_toml_dumps example_digest
              example_loads example_dumps example_geocode example_str_float
              "imperial" None None None None None "metric" None a a'
              example_configuration)
    as ((_ & _ & Hunits) & _ & _ & Hechoed).
  - reflexivity.
  - apply list_elem_of_In. cbn. tauto.
  - reflexivity.
  - reflexivity.
  - reflexivity.
  - reflexivity.
  - reflexivity.
  - split; [exact Hunits | exact Hechoed].
Defined.

Lemma delete_location_command_witness :
  let loads := example_toml_loads example_configuration in
  let a := example_app (Some "") true
             (example_world 1700000000000000 ∅ true true (NoResponse "unreachable")) in
  let r := delete_location loads example_toml_dumps "home" a in
  r.1 = inr tt /\ echoed r.2 = ["Location deleted."] /\
  Config.disk (conf r.2) =
    Some (example_toml_dumps
            (forget_location "home" (forget_default_location "home" example_configuration))).
Proof.
  intros loads a r.
  exact (proj1 (delete_location_command loads example_toml_dumps "home" a
                  example_configuration eq_refl)).
Defined.
